(** * Poker simulation core: deck, hand evaluator, decision policy, hand orchestration

    A shallow embedding of [src/deck.py], [src/player.py] and [src/game.py].

    Conventions of the embedding:
    - Python [int]s are [Z]; list positions are [nat].
    - Chip amounts ([stack], [pot], [current_bet], bets) are Python floats in
      the source.  A float that is a number is embedded as the rational [Q]
      it denotes, and every float operation of the source as the exact
      operation followed by [binary64], the rounding to the nearest binary64
      number (ties to even, subnormals included).  Comparisons of floats do
      not round.  Infinities, NaN, the sign of zero and overflow beyond the
      binary64 range are outside this model.
    - A Python exception is a value [Raise e] of the error monad [res].
    - [random.shuffle] is a parameter: an arbitrary function on card lists
      (assumed to return a permutation only where a statement needs it).
    - Event emission, console output and the statistics counters never feed
      back into the fields modelled here and are left out. *)

From Stdlib Require Import ZArith QArith Qfield Lia Permutation Sorted.
From stdpp Require Import base decidable countable list gmap strings pretty.

Local Open Scope Z_scope.

(** ** Cards ([deck.py]) *)

Inductive Suit := HEARTS | DIAMONDS | CLUBS | SPADES.

Inductive Rank :=
  | TWO | THREE | FOUR | FIVE | SIX | SEVEN | EIGHT | NINE | TEN
  | JACK | QUEEN | KING | ACE.

(** [list(Suit)] and [list(Rank)]: the members in definition order. *)
Definition all_suits : list Suit := [HEARTS; DIAMONDS; CLUBS; SPADES].
Definition all_ranks : list Rank :=
  [TWO; THREE; FOUR; FIVE; SIX; SEVEN; EIGHT; NINE; TEN; JACK; QUEEN; KING; ACE].

(** [list(Rank).index(r)] *)
Definition rank_index (r : Rank) : Z :=
  match r with
  | TWO => 0 | THREE => 1 | FOUR => 2 | FIVE => 3 | SIX => 4 | SEVEN => 5
  | EIGHT => 6 | NINE => 7 | TEN => 8 | JACK => 9 | QUEEN => 10 | KING => 11
  | ACE => 12
  end.

Definition suit_index (s : Suit) : Z :=
  match s with HEARTS => 0 | DIAMONDS => 1 | CLUBS => 2 | SPADES => 3 end.

#[global] Instance Suit_eq_dec : EqDecision Suit.
Proof. solve_decision. Defined.
#[global] Instance Rank_eq_dec : EqDecision Rank.
Proof. solve_decision. Defined.

Record Card := mkCard { rank : Rank; suit : Suit }.

#[global] Instance Card_eq_dec : EqDecision Card.
Proof. solve_decision. Defined.

Definition rank_of_nat (n : nat) : Rank := nth n all_ranks ACE.
Definition suit_of_nat (n : nat) : Suit := nth n all_suits SPADES.

#[global] Instance Rank_countable : Countable Rank.
Proof.
  apply (inj_countable' (fun r => Z.to_nat (rank_index r)) rank_of_nat).
  intros []; reflexivity.
Defined.

#[global] Instance Suit_countable : Countable Suit.
Proof.
  apply (inj_countable' (fun s => Z.to_nat (suit_index s)) suit_of_nat).
  intros []; reflexivity.
Defined.

#[global] Instance Card_countable : Countable Card.
Proof.
  apply (inj_countable' (fun c => (rank c, suit c)) (fun p => mkCard p.1 p.2)).
  intros []; reflexivity.
Defined.

(** [Card.__lt__]: by rank index only. *)
Definition card_lt (a b : Card) : bool := rank_index (rank a) <? rank_index (rank b).

(** ** The error monad for Python exceptions *)

Inductive exn := IndexError | StopIteration | ValueError | ZeroDivisionError.

Inductive res (A : Type) :=
  | Ok (a : A)
  | Raise (e : exn).
Arguments Ok {A} a.
Arguments Raise {A} e.

#[global] Instance exn_eq_dec : EqDecision exn.
Proof. solve_decision. Defined.
#[global] Instance res_eq_dec {A} `{EqDecision A} : EqDecision (res A).
Proof. solve_decision. Defined.

Definition rbind {A B} (m : res A) (k : A -> res B) : res B :=
  match m with Ok a => k a | Raise e => Raise e end.

Notation "'do' x <- m ; k" := (rbind m (fun x => k))
  (at level 10, x pattern, m at level 100, k at level 200).

(** ** Deck ([deck.py]) *)

Module Deck.

Record t := mk { cards : list Card; discarded : gset Card }.

(** [[Card(rank, suit) for suit in Suit for rank in Rank]] *)
Definition full_deck : list Card :=
  s ← all_suits; r ← all_ranks; [mkCard r s].

(** [_create_deck]: rebuild the 52 cards, clear the discards. *)
Definition _create_deck (d : t) : t := mk full_deck ∅.

(** [__init__]; seeding the random source does not touch the deck. *)
Definition new : t := _create_deck (mk [] ∅).

Section WithShuffle.
(** The outcome of [random.shuffle] on a list. *)
Variable shuffle_list : list Card -> list Card.

Definition shuffle (d : t) : t := mk (shuffle_list (cards d)) (discarded d).

Definition reset (d : t) : t := shuffle (_create_deck d).
End WithShuffle.

(** [list.pop()]: the last element and the list without it. *)
Fixpoint list_pop (l : list Card) : option (Card * list Card) :=
  match l with
  | [] => None
  | [c] => Some (c, [])
  | c :: l' =>
      match list_pop l' with
      | Some (x, r) => Some (x, c :: r)
      | None => None
      end
  end.

(** [draw]: [None] on an empty deck, else pop the last card and discard it. *)
Definition draw (d : t) : option Card * t :=
  match list_pop (cards d) with
  | None => (None, d)
  | Some (card, rest) => (Some card, mk rest ({[card]} ∪ discarded d))
  end.

Definition remaining (d : t) : nat := length (cards d).

(** [list.remove(x)]: drop the first element equal to [x]; [ValueError]
    when there is none. *)
Fixpoint list_remove (x : Card) (l : list Card) : res (list Card) :=
  match l with
  | [] => Raise ValueError
  | c :: l' =>
      if decide (c = x) then Ok l'
      else do r <- list_remove x l'; Ok (c :: r)
  end.

(** [deal_specific_card]: the [ValueError] of [remove] is caught and turned
    into [None]; nothing has been modified at that point. *)
Definition deal_specific_card (d : t) (r : Rank) (s : Suit) : option Card * t :=
  let card := mkCard r s in
  match list_remove card (cards d) with
  | Ok rest => (Some card, mk rest ({[card]} ∪ discarded d))
  | Raise _ => (None, d)
  end.

(** One operation of the deck's interface; [shuffle] and [reset] may
    produce any permutation. *)
Inductive step : t -> t -> Prop :=
  | step_shuffle d f :
      (forall l, Permutation l (f l)) -> step d (shuffle f d)
  | step_draw d : step d (draw d).2
  | step_deal d r s : step d (deal_specific_card d r s).2
  | step_reset d f :
      (forall l, Permutation l (f l)) -> step d (reset f d).

(** The decks reachable from a freshly constructed one. *)
Inductive reachable : t -> Prop :=
  | reach_new : reachable new
  | reach_step d d' : reachable d -> step d d' -> reachable d'.

(** The deck invariant of the data model. *)
Definition invariant (d : t) : Prop :=
  (remaining d + size (discarded d) = 52)%nat
  /\ (forall c, c ∈ cards d -> c ∉ discarded d)
  /\ NoDup (cards d).

End Deck.

(** ** Python list primitives used by the evaluator and the orchestrator *)

Section Sorting.
Context {A : Type} (lt : A -> A -> bool).

(** Python's sort is stable and calls only [<].  Any stable sort returns
    the same list, so [sorted] is embedded as an insertion sort that keeps
    an element in front of the later elements it is not greater than. *)
Fixpoint insert_asc (x : A) (l : list A) : list A :=
  match l with
  | [] => [x]
  | y :: l' => if lt y x then y :: insert_asc x l' else x :: y :: l'
  end.

(** [sorted(l)] *)
Definition py_sorted (l : list A) : list A := foldr insert_asc [] l.

(** With [reverse=True] the result is descending and equal elements keep
    their original order. *)
Fixpoint insert_desc (x : A) (l : list A) : list A :=
  match l with
  | [] => [x]
  | y :: l' => if lt x y then y :: insert_desc x l' else x :: y :: l'
  end.

(** [sorted(l, reverse=True)] *)
Definition py_sorted_rev (l : list A) : list A := foldr insert_desc [] l.
End Sorting.

(** [l[i]] for a Python [int] index: negative indices count from the end. *)
Definition py_index {A} (l : list A) (i : Z) : res A :=
  let n := Z.of_nat (length l) in
  let j := if i <? 0 then i + n else i in
  if (0 <=? j) && (j <? n) then
    match l !! Z.to_nat j with Some a => Ok a | None => Raise IndexError end
  else Raise IndexError.

(** [l[i] = x] for an index already known to be valid. *)
Definition py_store {A} (l : list A) (i : Z) (x : A) : list A :=
  let n := Z.of_nat (length l) in
  let j := if i <? 0 then i + n else i in
  <[Z.to_nat j := x]> l.

(** [range(n)] *)
Definition py_range (n : Z) : list Z := map Z.of_nat (seq 0 (Z.to_nat n)).

(** ** Hand evaluation ([player.py]) *)

Inductive HandRank :=
  | HIGH_CARD | PAIR | TWO_PAIR | THREE_OF_A_KIND | STRAIGHT | FLUSH
  | FULL_HOUSE | FOUR_OF_A_KIND | STRAIGHT_FLUSH | ROYAL_FLUSH.

#[global] Instance HandRank_eq_dec : EqDecision HandRank.
Proof. solve_decision. Defined.

(** The [IntEnum] value. *)
Definition value (h : HandRank) : Z :=
  match h with
  | HIGH_CARD => 1 | PAIR => 2 | TWO_PAIR => 3 | THREE_OF_A_KIND => 4
  | STRAIGHT => 5 | FLUSH => 6 | FULL_HOUSE => 7 | FOUR_OF_A_KIND => 8
  | STRAIGHT_FLUSH => 9 | ROYAL_FLUSH => 10
  end.

Module HandStrength.
Record t := mk { rank : HandRank; high_cards : list Z }.
End HandStrength.

#[global] Instance HandStrength_eq_dec : EqDecision HandStrength.t.
Proof. solve_decision. Defined.

(** [[list(Rank).index(c.rank) for c in cs]] *)
Definition rank_indices (cs : list Card) : list Z :=
  map (fun c => rank_index (rank c)) cs.

(** [Counter(...)]: a dict in first-insertion order, embedded as an
    association list; [counter_incr] is one [self[elem] += 1]. *)
Fixpoint counter_incr (r : Rank) (m : list (Rank * nat)) : list (Rank * nat) :=
  match m with
  | [] => [(r, 1%nat)]
  | (r', n) :: m' =>
      if decide (r' = r) then (r', S n) :: m' else (r', n) :: counter_incr r m'
  end.

Definition Counter (l : list Rank) : list (Rank * nat) :=
  fold_left (fun m r => counter_incr r m) l [].

(** [rank_counts = Counter(card.rank for card in cards)] *)
Definition rank_counts (cards : list Card) : list (Rank * nat) :=
  Counter (map rank cards).

(** [[card for card in cards if card.rank == r]] and its complement. *)
Definition of_rank (r : Rank) (cards : list Card) : list Card :=
  filter (fun c => rank c = r) cards.
Definition not_of_rank (r : Rank) (cards : list Card) : list Card :=
  filter (fun c => rank c ≠ r) cards.

(** [next(generator)]: the first element, [StopIteration] when exhausted. *)
Definition py_next {A} (l : list A) : res A :=
  match l with
  | [] => Raise StopIteration
  | a :: _ => Ok a
  end.

(** The ranks of the Ace-low straight, in the order the source lists them. *)
Definition wheel_ranks : list Rank := [ACE; TWO; THREE; FOUR; FIVE].

(** [ranks[k]] for an index inside the list. *)
Definition rank_at (ranks : list Rank) (k : nat) : Rank := nth k ranks TWO.

(** [all(index(ranks[i+j+1]) - index(ranks[i+j]) == 1 for j in range(4))] *)
Definition run_at (ranks : list Rank) (i : nat) : bool :=
  forallb
    (fun j => rank_index (rank_at ranks (i + j + 1))
              - rank_index (rank_at ranks (i + j)) =? 1)
    (seq 0 4).

(** [_check_straight].  [sorted(set(...), key=index)] does not depend on the
    iteration order of the set: the keys are distinct. *)
Definition _check_straight (cards : list Card) : option (list Card) :=
  let ranks :=
    py_sorted (fun a b => rank_index a <? rank_index b)
              (remove_dups (map rank cards)) in
  if bool_decide (ACE ∈ ranks) && bool_decide (TWO ∈ ranks)
     && bool_decide (THREE ∈ ranks) && bool_decide (FOUR ∈ ranks)
     && bool_decide (FIVE ∈ ranks)
  then Some (py_sorted card_lt (filter (fun c => rank c ∈ wheel_ranks) cards))
  else
    match List.find (run_at ranks) (seq 0 (length ranks - 4)) with
    | Some i =>
        let straight_ranks := take 5 (drop i ranks) in
        Some (take 5 (py_sorted card_lt
                        (filter (fun c => rank c ∈ straight_ranks) cards)))
    | None => None
    end.

(** [_check_straight_flush]: the loop over the suits, in [Suit] order, stops
    at the first suit whose cards hold a straight. *)
Fixpoint straight_flush_scan (cards : list Card) (suits : list Suit)
    : option (list Card) :=
  match suits with
  | [] => None
  | s :: suits' =>
      let suited_cards :=
        py_sorted (fun a b => rank_index (rank a) <? rank_index (rank b))
                  (filter (fun c => suit c = s) cards) in
      match _check_straight suited_cards with
      | Some (c :: l) => Some (c :: l)
      | _ => straight_flush_scan cards suits'
      end
  end.

Definition _check_straight_flush (cards : list Card) : option (list Card) :=
  straight_flush_scan cards all_suits.

(** [_check_four_of_a_kind]: the loop over [rank_counts.items()]; [next]
    raises when every card has the rank. *)
Fixpoint four_of_a_kind_scan (cards : list Card) (items : list (Rank * nat))
    : res (option (list Card)) :=
  match items with
  | [] => Ok None
  | (r, count) :: items' =>
      if decide (count = 4%nat) then
        let four_cards := of_rank r cards in
        do kicker <- py_next (not_of_rank r cards);
        Ok (Some (four_cards ++ [kicker]))
      else four_of_a_kind_scan cards items'
  end.

Definition _check_four_of_a_kind (cards : list Card) : res (option (list Card)) :=
  four_of_a_kind_scan cards (rank_counts cards).

(** The loop of [_check_full_house] over [rank_counts.items()]. *)
Fixpoint full_house_scan (items : list (Rank * nat))
    (three_rank pair_rank : option Rank) : option Rank * option Rank :=
  match items with
  | [] => (three_rank, pair_rank)
  | (r, count) :: items' =>
      if bool_decide (3 <= count)%nat && bool_decide (three_rank = None)
      then full_house_scan items' (Some r) pair_rank
      else if bool_decide (2 <= count)%nat && bool_decide (pair_rank = None)
      then full_house_scan items' three_rank (Some r)
      else full_house_scan items' three_rank pair_rank
  end.

Definition _check_full_house (cards : list Card) : option (list Card) :=
  match full_house_scan (rank_counts cards) None None with
  | (Some three_rank, Some pair_rank) =>
      let three_cards := take 3 (of_rank three_rank cards) in
      let pair_cards := take 2 (of_rank pair_rank cards) in
      Some (three_cards ++ pair_cards)
  | _ => None
  end.

Fixpoint flush_scan (cards : list Card) (suits : list Suit) : option (list Card) :=
  match suits with
  | [] => None
  | s :: suits' =>
      let suited_cards := filter (fun c => suit c = s) cards in
      if bool_decide (5 <= length suited_cards)%nat
      then Some (take 5 suited_cards)
      else flush_scan cards suits'
  end.

Definition _check_flush (cards : list Card) : option (list Card) :=
  flush_scan cards all_suits.

Fixpoint three_of_a_kind_scan (cards : list Card) (items : list (Rank * nat))
    : option (list Card) :=
  match items with
  | [] => None
  | (r, count) :: items' =>
      if bool_decide (3 <= count)%nat then
        let three_cards := take 3 (of_rank r cards) in
        let other_cards := take 2 (not_of_rank r cards) in
        Some (three_cards ++ other_cards)
      else three_of_a_kind_scan cards items'
  end.

Definition _check_three_of_a_kind (cards : list Card) : option (list Card) :=
  three_of_a_kind_scan cards (rank_counts cards).

(** [_check_two_pair]: [next] raises when no card lies outside the first
    two paired ranks. *)
Definition _check_two_pair (cards : list Card) : res (option (list Card)) :=
  let pairs :=
    map fst (filter (fun rc => (2 <= rc.2)%nat) (rank_counts cards)) in
  match pairs with
  | p0 :: p1 :: _ =>
      let pair1_cards := take 2 (of_rank p0 cards) in
      let pair2_cards := take 2 (of_rank p1 cards) in
      do kicker <- py_next (filter (fun c => rank c ≠ p0 /\ rank c ≠ p1) cards);
      Ok (Some (pair1_cards ++ pair2_cards ++ [kicker]))
  | _ => Ok None
  end.

Fixpoint pair_scan (cards : list Card) (items : list (Rank * nat))
    : option (list Card) :=
  match items with
  | [] => None
  | (r, count) :: items' =>
      if bool_decide (2 <= count)%nat then
        let pair_cards := take 2 (of_rank r cards) in
        let other_cards := take 3 (not_of_rank r cards) in
        Some (pair_cards ++ other_cards)
      else pair_scan cards items'
  end.

Definition _check_pair (cards : list Card) : option (list Card) :=
  pair_scan cards (rank_counts cards).

(** The fallback value of every branch:
    [HandStrength(HIGH_CARD, [index(c.rank) for c in sorted_cards[:5]])]. *)
Definition high_card_of (sorted_cards : list Card) : HandStrength.t :=
  HandStrength.mk HIGH_CARD (rank_indices (take 5 sorted_cards)).

(** [_evaluate_cards].  A walrus test [if x := f(...)] succeeds on a
    non-empty list, hence the patterns [Some (c :: l)]; [c] is [x[0]]. *)
Definition _evaluate_cards (cards : list Card) : res HandStrength.t :=
  let sorted_cards := py_sorted_rev card_lt cards in
  match _check_straight_flush sorted_cards with
  | Some (c :: l) =>
      if decide (length (c :: l) = 5%nat) then
        if decide (rank c = ACE) then Ok (HandStrength.mk ROYAL_FLUSH [])
        else Ok (HandStrength.mk STRAIGHT_FLUSH [rank_index (rank c)])
      else Ok (high_card_of sorted_cards)
  | _ =>
  do four_kind <- _check_four_of_a_kind sorted_cards;
  match four_kind with
  | Some (c :: l) =>
      if decide (length (c :: l) = 4%nat)
      then Ok (HandStrength.mk FOUR_OF_A_KIND [rank_index (rank c)])
      else Ok (high_card_of sorted_cards)
  | _ =>
  match _check_full_house sorted_cards with
  | Some (c :: l) =>
      if decide (length (c :: l) = 5%nat)
      then Ok (HandStrength.mk FULL_HOUSE [rank_index (rank c)])
      else Ok (high_card_of sorted_cards)
  | _ =>
  match _check_flush sorted_cards with
  | Some (c :: l) =>
      if decide (length (c :: l) = 5%nat)
      then Ok (HandStrength.mk FLUSH (rank_indices (take 5 (c :: l))))
      else Ok (high_card_of sorted_cards)
  | _ =>
  match _check_straight sorted_cards with
  | Some (c :: l) =>
      if decide (length (c :: l) = 5%nat)
      then Ok (HandStrength.mk STRAIGHT [rank_index (rank c)])
      else Ok (high_card_of sorted_cards)
  | _ =>
  match _check_three_of_a_kind sorted_cards with
  | Some (c :: l) =>
      if decide (length (c :: l) = 3%nat)
      then Ok (HandStrength.mk THREE_OF_A_KIND [rank_index (rank c)])
      else Ok (high_card_of sorted_cards)
  | _ =>
  do two_pair <- _check_two_pair sorted_cards;
  match two_pair with
  | Some (c :: l) =>
      if decide (length (c :: l) = 4%nat)
      then Ok (HandStrength.mk TWO_PAIR (rank_indices (take 4 (c :: l))))
      else Ok (high_card_of sorted_cards)
  | _ =>
  match _check_pair sorted_cards with
  | Some (c :: l) =>
      if decide (length (c :: l) = 2%nat)
      then Ok (HandStrength.mk PAIR (rank_indices (take 2 (c :: l))))
      else Ok (high_card_of sorted_cards)
  | _ => Ok (high_card_of sorted_cards)
  end end end end end end end end.

(** [max(...)] over a non-empty sequence of ints. *)
Definition py_max (x : Z) (l : list Z) : Z := foldl Z.max x l.

(** ** Python floats: binary64 arithmetic on the numbers they denote *)

(** The integer nearest to [n / d], for [0 <= n]; a tie goes to the even
    one. *)
Definition round_half_even (n : Z) (d : positive) : Z :=
  let q := n / Zpos d in
  let r := n mod Zpos d in
  match 2 * r ?= Zpos d with
  | Lt => q
  | Gt => q + 1
  | Eq => if Z.even q then q else q + 1
  end.

(** The binary64 number nearest to [x]: a significand of 53 bits scaled by
    a power of two that is at least [2 ^ -1074]; ties to even. *)
Definition binary64 (x : Q) : Q :=
  let n := Qnum x in
  let d := Qden x in
  if n =? 0 then 0%Q
  else
    let a := Z.abs n in
    let k := Z.log2 a - Z.log2 (Zpos d) in
    let ge := if 0 <=? k then Zpos d * 2 ^ k <=? a else Zpos d <=? a * 2 ^ (- k) in
    let e := Z.max ((if ge then k else k - 1) - 52) (-1074) in
    let m := if 0 <=? e then round_half_even a (d * Z.to_pos (2 ^ e))
             else round_half_even (a * 2 ^ (- e)) d in
    Qred (if 0 <=? e then inject_Z (Z.sgn n * m * 2 ^ e)
          else Qmake (Z.sgn n * m) (Z.to_pos (2 ^ (- e)))).

Arguments binary64 : simpl never.

(** [a + b], [a - b], [a * b] and [a / b] on floats. *)
Definition fadd (a b : Q) : Q := binary64 (a + b).
Definition fsub (a b : Q) : Q := binary64 (a - b).
Definition fmul (a b : Q) : Q := binary64 (a * b).
Definition fdiv (a b : Q) : Q := binary64 (a / b).

(** A float literal of the source, written as the decimal fraction [q], and
    the conversion of an [int] operand. *)
Definition float_lit (q : Q) : Q := binary64 q.
Definition float_of_int (n : Z) : Q := binary64 (inject_Z n).

(** Comparisons of floats compare the numbers. *)
Definition Qltb (a b : Q) : bool := negb (Qle_bool b a).
Definition Qleb (a b : Q) : bool := Qle_bool a b.

(** [min(a, b)]: the first argument unless the second is smaller. *)
Definition py_min (a b : Q) : Q := if Qltb b a then b else a.

(** ** Players and the decision policy ([player.py]) *)

Module Player.

Record t := mk {
  name : string;
  stack : Q;
  hole_cards : list Card;
  current_bet : Q;
  is_active : bool;
  position : string;
  position_index : Z;
  folded : bool;
  num_players : Z
}.

Definition set_stack (v : Q) (p : t) : t :=
  mk (name p) v (hole_cards p) (current_bet p) (is_active p) (position p)
     (position_index p) (folded p) (num_players p).
Definition set_hole_cards (v : list Card) (p : t) : t :=
  mk (name p) (stack p) v (current_bet p) (is_active p) (position p)
     (position_index p) (folded p) (num_players p).
Definition set_current_bet (v : Q) (p : t) : t :=
  mk (name p) (stack p) (hole_cards p) v (is_active p) (position p)
     (position_index p) (folded p) (num_players p).
Definition set_is_active (v : bool) (p : t) : t :=
  mk (name p) (stack p) (hole_cards p) (current_bet p) v (position p)
     (position_index p) (folded p) (num_players p).
Definition set_position (v : string) (p : t) : t :=
  mk (name p) (stack p) (hole_cards p) (current_bet p) (is_active p) v
     (position_index p) (folded p) (num_players p).
Definition set_folded (v : bool) (p : t) : t :=
  mk (name p) (stack p) (hole_cards p) (current_bet p) (is_active p)
     (position p) (position_index p) v (num_players p).

(** [__init__] *)
Definition new (name : string) (stack : Q) : t :=
  mk name stack [] 0%Q true "BTN" (-1) false 6.

(** [reset_hand]: position and stack are kept. *)
Definition reset_hand (p : t) : t :=
  set_folded false (set_is_active true (set_current_bet 0%Q (set_hole_cards [] p))).

Definition receive_card (c : Card) (p : t) : t :=
  set_hole_cards (hole_cards p ++ [c]) p.

(** [evaluate_hand]; [community_cards] being [None] or empty selects the
    pre-flop heuristic, which indexes the first two hole cards. *)
Definition evaluate_hand (p : t) (community_cards : list Card) : res HandStrength.t :=
  match community_cards with
  | [] =>
      let ranks := map rank (hole_cards p) in
      do r0 <- py_index ranks 0;
      do r1 <- py_index ranks 1;
      if decide (r0 = r1) then
        let rank_value := rank_index r0 in
        if rank_index TEN <=? rank_value
        then Ok (HandStrength.mk PAIR [rank_value])
        else Ok (HandStrength.mk HIGH_CARD [rank_value])
      else
        match map rank_index ranks with
        | [] => Raise ValueError
        | x :: xs =>
            let high_card := py_max x xs in
            if rank_index JACK <=? high_card
            then Ok (HandStrength.mk HIGH_CARD [high_card])
            else Ok (HandStrength.mk HIGH_CARD [0])
        end
  | _ :: _ => _evaluate_cards (hole_cards p ++ community_cards)
  end.

(** The [position_ranks] dictionary of [make_decision]. *)
Definition position_ranks : gmap string Z :=
  list_to_map
    [("BTN", 5); ("CO", 4); ("MP", 3); ("UTG", 2); ("BB", 1); ("SB", 0)].

Definition _preflop_strategy (p : t) (to_call pot : Q) (is_late_position : bool)
    : string * Q :=
  let has_pair :=
    match hole_cards p with
    | [c0; c1] => bool_decide (rank c0 = rank c1)
    | _ => false
    end in
  let high_cards :=
    filter (fun c => rank c ∈ [ACE; KING; QUEEN]) (hole_cards p) in
  if has_pair then
    if Qeq_bool to_call 0
    then ("raise", py_min (fmul pot (float_lit (3 # 4))) (stack p))
    else if Qleb to_call (fmul (stack p) (float_lit (1 # 10))) then ("call", to_call)
    else ("fold", 0%Q)
  else if bool_decide (1 <= length high_cards)%nat then
    if is_late_position then
      if Qeq_bool to_call 0
      then ("raise", py_min (fmul pot (float_lit (1 # 2))) (stack p))
      else if Qleb to_call (fmul (stack p) (float_lit (1 # 20))) then ("call", to_call)
      else ("fold", 0%Q)
    else ("fold", 0%Q)
  else
    if Qeq_bool to_call 0 then ("call", 0%Q) else ("fold", 0%Q).

Definition _postflop_strategy (p : t) (hand_strength : HandStrength.t)
    (to_call pot : Q) (is_late_position : bool) : string * Q :=
  if value THREE_OF_A_KIND <=? value (HandStrength.rank hand_strength) then
    if Qeq_bool to_call 0 then ("raise", py_min pot (stack p))
    else if Qleb to_call (fmul (stack p) (float_lit (3 # 10))) then ("call", to_call)
    else ("fold", 0%Q)
  else if (value PAIR <=? value (HandStrength.rank hand_strength))
          && is_late_position then
    if Qeq_bool to_call 0
    then ("raise", py_min (fmul pot (float_lit (1 # 2))) (stack p))
    else if Qleb to_call (fmul (stack p) (float_lit (1 # 10))) then ("call", to_call)
    else ("fold", 0%Q)
  else
    if Qeq_bool to_call 0 then ("call", 0%Q)
    else if Qleb to_call (fmul (stack p) (float_lit (1 # 20))) then ("call", to_call)
    else ("fold", 0%Q).

(** [make_decision]: the stack test comes before the hand is evaluated. *)
Definition make_decision (p : t) (to_call pot : Q) (community_cards : list Card)
    : res (string * Q) :=
  if Qltb (stack p) to_call then Ok ("fold", 0%Q)
  else
    do hand_strength <- evaluate_hand p community_cards;
    let position_strength := default 0 (position_ranks !! position p) in
    let is_late_position := 4 <=? position_strength in
    match community_cards with
    | [] => Ok (_preflop_strategy p to_call pot is_late_position)
    | _ :: _ =>
        Ok (_postflop_strategy p hand_strength to_call pot is_late_position)
    end.

End Player.

(** ** The orchestrator ([game.py]) *)

(** [a % n] on Python ints: the sign of the divisor, an error on zero. *)
Definition py_mod (a n : Z) : res Z :=
  if n =? 0 then Raise ZeroDivisionError else Ok (a mod n).

(** A loop that the source does not bound runs on fuel: [None] stands for
    fuel exhausted, [Some r] for the outcome of a run that ended. *)
Definition fueled (A : Type) : Type := option (res A).

Module PokerGame.

Record t := mk {
  num_players : Z;
  initial_stack : Q;
  small_blind : Q;
  big_blind : Q;
  four_card_flop : bool;
  deck : Deck.t;
  players : list Player.t;
  community_cards : list Card;
  pot : Q;
  current_bet : Q;
  button_pos : Z
}.

Definition set_deck (v : Deck.t) (g : t) : t :=
  mk (num_players g) (initial_stack g) (small_blind g) (big_blind g)
     (four_card_flop g) v (players g) (community_cards g) (pot g)
     (current_bet g) (button_pos g).
Definition set_players (v : list Player.t) (g : t) : t :=
  mk (num_players g) (initial_stack g) (small_blind g) (big_blind g)
     (four_card_flop g) (deck g) v (community_cards g) (pot g)
     (current_bet g) (button_pos g).
Definition set_community_cards (v : list Card) (g : t) : t :=
  mk (num_players g) (initial_stack g) (small_blind g) (big_blind g)
     (four_card_flop g) (deck g) (players g) v (pot g)
     (current_bet g) (button_pos g).
Definition set_pot (v : Q) (g : t) : t :=
  mk (num_players g) (initial_stack g) (small_blind g) (big_blind g)
     (four_card_flop g) (deck g) (players g) (community_cards g) v
     (current_bet g) (button_pos g).
Definition set_current_bet (v : Q) (g : t) : t :=
  mk (num_players g) (initial_stack g) (small_blind g) (big_blind g)
     (four_card_flop g) (deck g) (players g) (community_cards g) (pot g)
     v (button_pos g).
Definition set_button_pos (v : Z) (g : t) : t :=
  mk (num_players g) (initial_stack g) (small_blind g) (big_blind g)
     (four_card_flop g) (deck g) (players g) (community_cards g) (pot g)
     (current_bet g) v.

(** [self.players[i].<field> = ...]: read the seat, store the new player. *)
Definition update_player (i : Z) (f : Player.t -> Player.t) (g : t) : res t :=
  do p <- py_index (players g) i;
  Ok (set_players (py_store (players g) i (f p)) g).

(** [__init__]: seats are named [Player 1], [Player 2], ... *)
Definition new (num_players : Z) (initial_stack small_blind big_blind : Q)
    (four_card_flop : bool) : t :=
  mk num_players initial_stack small_blind big_blind four_card_flop Deck.new
     (map (fun i => Player.new ("Player " +:+ pretty (i + 1)) initial_stack)
          (py_range num_players))
     [] 0%Q 0%Q 0.

Definition position_names : list string :=
  ["BTN"; "SB"; "BB"; "UTG"; "MP"; "CO"].

(** The position loop of [reset_hand]; seats past the six names are
    labelled [MP2], [MP3], ... *)
Fixpoint reset_hand_positions (seats : list Z) (g : t) : res t :=
  match seats with
  | [] => Ok g
  | i :: seats' =>
      do pos <- py_mod (i - button_pos g) (num_players g);
      do label <-
        (if pos <? Z.of_nat (length position_names)
         then py_index position_names pos
         else Ok ("MP" +:+ pretty (pos - 4)));
      do g' <- update_player i (Player.set_position label) g;
      reset_hand_positions seats' g'
  end.

(** The per-player part of [reset_hand]: a bust player is given a new
    stack. *)
Definition reset_player (initial_stack : Q) (p : Player.t) : Player.t :=
  let p := Player.reset_hand p in
  if Qleb (Player.stack p) 0 then Player.set_stack initial_stack p else p.

Definition reset_hand (g : t) : res t :=
  let g := set_deck Deck.new g in
  let g := set_community_cards [] g in
  let g := set_pot 0%Q g in
  let g := set_current_bet 0%Q g in
  do b <- py_mod (button_pos g + 1) (num_players g);
  let g := set_button_pos b g in
  do g <- reset_hand_positions (py_range (num_players g)) g;
  Ok (set_players (map (reset_player (initial_stack g)) (players g)) g).

(** The position loop of [run_simulation]: it indexes [position_names]
    without the test that [reset_hand] makes. *)
Fixpoint run_simulation_positions (seats : list Z) (g : t) : res t :=
  match seats with
  | [] => Ok g
  | i :: seats' =>
      do pos <- py_mod (i - button_pos g) (num_players g);
      do label <- py_index position_names pos;
      do g' <- update_player i (Player.set_position label) g;
      run_simulation_positions seats' g'
  end.

Section WithShuffle.
Variable shuffle_list : list Card -> list Card.

(** One pass of the inner loop of [deal_hole_cards] over the seats. *)
Fixpoint deal_round (done todo : list Player.t) (d : Deck.t)
    : list Player.t * Deck.t :=
  match todo with
  | [] => (done, d)
  | p :: todo' =>
      if Player.is_active p then
        match Deck.draw d with
        | (Some card, d') => deal_round (done ++ [Player.receive_card card p]) todo' d'
        | (None, d') => deal_round (done ++ [p]) todo' d'
        end
      else deal_round (done ++ [p]) todo' d
  end.

Definition deal_hole_cards (g : t) : t :=
  let d := Deck.shuffle shuffle_list (deck g) in
  let '(ps, d) := deal_round [] (players g) d in
  let '(ps, d) := deal_round [] ps d in
  set_deck d (set_players ps g).

(** [card = self.deck.draw(); if card: self.community_cards.append(card)] *)
Definition deal_community (g : t) : t :=
  match Deck.draw (deck g) with
  | (Some card, d') =>
      set_community_cards (community_cards g ++ [card]) (set_deck d' g)
  | (None, d') => set_deck d' g
  end.

Definition deal_flop (g : t) : t :=
  let num_flop_cards := if four_card_flop g then 4%nat else 3%nat in
  Nat.iter num_flop_cards deal_community g.

Definition deal_turn (g : t) : t := deal_community g.
Definition deal_river (g : t) : t := deal_community g.
End WithShuffle.

End PokerGame.

(** ** Betting, hand play and resolution ([game.py], continued) *)

Definition fbind {A B} (m : fueled A) (k : A -> fueled B) : fueled B :=
  match m with
  | None => None
  | Some (Raise e) => Some (Raise e)
  | Some (Ok a) => k a
  end.

(** A computation that needs no fuel, run inside a fuelled one. *)
Definition lift {A} (m : res A) : fueled A := Some m.

Notation "'run' x <- m ; k" := (fbind m (fun x => k))
  (at level 10, x pattern, m at level 100, k at level 200).

(** [HandStrength] sort key [(rank.value, high_cards)] and Python's [<] on
    it: lists and tuples compare at the first position where they differ,
    a proper prefix being smaller. *)
Fixpoint list_lt (a b : list Z) : bool :=
  match a, b with
  | [], [] => false
  | [], _ :: _ => true
  | _ :: _, [] => false
  | x :: a', y :: b' => if x =? y then list_lt a' b' else x <? y
  end.

Definition hand_key (h : HandStrength.t) : Z * list Z :=
  (value (HandStrength.rank h), HandStrength.high_cards h).

Definition key_lt (a b : Z * list Z) : bool :=
  if a.1 =? b.1 then list_lt a.2 b.2 else a.1 <? b.1.

(** A loop that appends while a test holds and leaves at the first failure. *)
Fixpoint take_until_break {A} (test : A -> bool) (l : list A) : list A :=
  match l with
  | [] => []
  | a :: l' => if test a then a :: take_until_break test l' else []
  end.

(** [[f(x) for x in l]] where [f] may raise. *)
Fixpoint res_map {A B} (f : A -> res B) (l : list A) : res (list B) :=
  match l with
  | [] => Ok []
  | a :: l' => do b <- f a; do bs <- res_map f l'; Ok (b :: bs)
  end.

Module Game.
Import PokerGame.

(** [[p for p in self.players if p.is_active]], each with its seat: the
    list holds the player objects themselves, identified here by seat. *)
Definition active_players (g : t) : list (nat * Player.t) :=
  filter (fun ip => Player.is_active ip.2 = true) (imap pair (players g)).

(** The body of [_betting_round] that processes one decision of the
    player at seat [current_pos]. *)
Definition process_action (current_pos : Z) (action : string) (amount : Q)
    (g : t) : res t :=
  do player <- py_index (players g) current_pos;
  if decide (action = "fold") then
    update_player current_pos (Player.set_is_active false) g
  else if decide (action = "call") then
    let call_amount := fsub (current_bet g) (Player.current_bet player) in
    do g <- update_player current_pos
              (fun p => Player.set_current_bet (current_bet g)
                          (Player.set_stack (fsub (Player.stack p) call_amount) p)) g;
    Ok (set_pot (fadd (pot g) call_amount) g)
  else if decide (action = "raise") then
    let raise_amount := fsub amount (Player.current_bet player) in
    do g <- update_player current_pos
              (fun p => Player.set_current_bet amount
                          (Player.set_stack (fsub (Player.stack p) raise_amount) p)) g;
    Ok (set_current_bet amount (set_pot (fadd (pot g) raise_amount) g))
  else Ok g.

(** [while not self.players[current_pos].is_active: current_pos = ...]
    The seats visited repeat with a period of at most the number of valid
    indices, so [length players + 2] visits without an active player mean
    that the source loops forever. *)
Fixpoint next_active (fuel : nat) (g : t) (current_pos : Z) : fueled Z :=
  match fuel with
  | O => None
  | S fuel' =>
      run p <- lift (py_index (players g) current_pos);
      if Player.is_active p then Some (Ok current_pos)
      else
        run pos' <- lift (py_mod (current_pos + 1) (num_players g));
        next_active fuel' g pos'
  end.

(** [all(not p.is_active or p.current_bet == self.current_bet ...)] *)
Definition all_called (g : t) : bool :=
  forallb (fun p => negb (Player.is_active p)
                    || Qeq_bool (Player.current_bet p) (current_bet g))
          (players g).

(** The [while True] loop of [_betting_round]; one unit of fuel per turn. *)
Fixpoint betting_loop (fuel : nat) (start_pos current_pos : Z) (g : t)
    : fueled (bool * t) :=
  match fuel with
  | O => None
  | S fuel' =>
      run current_pos <- next_active (length (players g) + 2) g current_pos;
      run player <- lift (py_index (players g) current_pos);
      run decision <-
        lift (Player.make_decision player
                (fsub (current_bet g) (Player.current_bet player)) (pot g)
                (community_cards g));
      let action := decision.1 in
      let amount := decision.2 in
      run g <- lift (process_action current_pos action amount g);
      if bool_decide (length (active_players g) <= 1)%nat
      then Some (Ok (false, g))
      else if all_called g && (current_pos =? start_pos)
      then Some (Ok (true, g))
      else
        run pos' <- lift (py_mod (current_pos + 1) (num_players g));
        betting_loop fuel' start_pos pos' g
  end.

Definition _betting_round (fuel : nat) (g : t) : fueled (bool * t) :=
  if bool_decide (length (active_players g) <= 1)%nat
  then Some (Ok (false, g))
  else
    run start_pos <- lift (py_mod (button_pos g + 3) (num_players g));
    betting_loop fuel start_pos start_pos g.

(** Posting one blind in [play_hand]. *)
Definition post_small_blind (g : t) : res t :=
  do sb_pos <- py_mod (button_pos g + 1) (num_players g);
  do g <- update_player sb_pos
            (fun p => Player.set_stack (fsub (Player.stack p) (small_blind g)) p) g;
  do g <- update_player sb_pos (Player.set_current_bet (small_blind g)) g;
  Ok (set_pot (fadd (pot g) (small_blind g)) g).

Definition post_big_blind (g : t) : res t :=
  do bb_pos <- py_mod (button_pos g + 2) (num_players g);
  do g <- update_player bb_pos
            (fun p => Player.set_stack (fsub (Player.stack p) (big_blind g)) p) g;
  do g <- update_player bb_pos (Player.set_current_bet (big_blind g)) g;
  Ok (set_current_bet (big_blind g) (set_pot (fadd (pot g) (big_blind g)) g)).

(** [winner.stack += winnings] for the player object at a seat. *)
Definition credit (winnings : Q) (g : t) (seat : nat) : t :=
  set_players
    (alter (fun p => Player.set_stack (fadd (Player.stack p) winnings) p) seat
           (players g)) g.

(** [_resolve_winners]: the new state and the list of (seat, winnings). *)
Definition _resolve_winners (g : t) : res (t * list (nat * Q)) :=
  match active_players g with
  | [] => Ok (g, [])
  | [(seat, winner)] =>
      let winnings := pot g in
      Ok (credit winnings g seat, [(seat, winnings)])
  | active =>
      do player_hands <-
        res_map (fun ip : nat * Player.t =>
                   do h <- Player.evaluate_hand ip.2 (community_cards g);
                   Ok (ip.1, h)) active;
      let player_hands :=
        py_sorted_rev (fun x y => key_lt (hand_key x.2) (hand_key y.2))
                      player_hands in
      do best <- py_index player_hands 0;
      let best_hand_rank := value (HandStrength.rank best.2) in
      let best_high_cards := HandStrength.high_cards best.2 in
      let winners :=
        map fst
          (take_until_break
             (fun ph : nat * HandStrength.t =>
                (value (HandStrength.rank ph.2) =? best_hand_rank)
                && bool_decide (HandStrength.high_cards ph.2 = best_high_cards))
             player_hands) in
      do winnings_per_player <-
        (if bool_decide (length winners = 0%nat) then Raise ZeroDivisionError
         else Ok (fdiv (pot g) (float_of_int (Z.of_nat (length winners)))));
      Ok (foldl (credit winnings_per_player) g winners,
          map (fun w => (w, winnings_per_player)) winners)
  end.

End Game.

(** ** A whole hand, the hand log and the simulation loop *)

(** [Rank.value], [Suit.value] and [Card.__str__]. *)
Definition rank_value (r : Rank) : string :=
  match r with
  | TWO => "2" | THREE => "3" | FOUR => "4" | FIVE => "5" | SIX => "6"
  | SEVEN => "7" | EIGHT => "8" | NINE => "9" | TEN => "10" | JACK => "J"
  | QUEEN => "Q" | KING => "K" | ACE => "A"
  end.

Definition suit_value (s : Suit) : string :=
  match s with
  | HEARTS => "♥" | DIAMONDS => "♦" | CLUBS => "♣" | SPADES => "♠"
  end.

Definition card_str (c : Card) : string := rank_value (rank c) +:+ suit_value (suit c).

(** The record that [_log_hand_results] appends to the output file. *)
Module HandLog.
Record winner_entry := mk_winner {
  player : string;
  winnings : Q;
  winner_hole_cards : list string
}.
Record player_entry := mk_player {
  name : string;
  hole_cards : list string;
  stack : Q;
  folded : bool;
  is_active : bool
}.
Record t := mk {
  community_cards : list string;
  pot_size : Q;
  winners : list winner_entry;
  players : list player_entry
}.
End HandLog.

Module Session.
Import PokerGame Game.

Section WithShuffle.
Variable shuffle_list : list Card -> list Card.

(** [play_hand].  The events built after the turn and the river read
    [community_cards[3]] and [community_cards[4]]. *)
Definition play_hand (fuel : nat) (g : t) : fueled (t * list (nat * Q)) :=
  run g <- lift (reset_hand g);
  run g <- lift (post_small_blind g);
  run g <- lift (post_big_blind g);
  let g := deal_hole_cards shuffle_list g in
  run r <- _betting_round fuel g;
  if negb r.1 then lift (_resolve_winners r.2) else
  let g := deal_flop r.2 in
  run r <- _betting_round fuel g;
  if negb r.1 then lift (_resolve_winners r.2) else
  let g := deal_turn r.2 in
  run _ <- lift (py_index (community_cards g) 3);
  run r <- _betting_round fuel g;
  if negb r.1 then lift (_resolve_winners r.2) else
  let g := deal_river r.2 in
  run _ <- lift (py_index (community_cards g) 4);
  run r <- _betting_round fuel g;
  lift (_resolve_winners r.2).

(** [_log_hand_results], up to the write to the file. *)
Definition _log_hand_results (g : t) (winners : list (nat * Q)) : res HandLog.t :=
  do ws <-
    res_map (fun w : nat * Q =>
               do p <- py_index (players g) (Z.of_nat w.1);
               Ok (HandLog.mk_winner (Player.name p) w.2
                     (map card_str (Player.hole_cards p)))) winners;
  Ok (HandLog.mk
        (map card_str (community_cards g))
        (pot g)
        ws
        (map (fun p => HandLog.mk_player (Player.name p)
                         (map card_str (Player.hole_cards p))
                         (Player.stack p) (Player.folded p)
                         (Player.is_active p))
             (players g))).

(** One iteration of the loop of [run_simulation]. *)
Definition run_one_hand (fuel : nat) (g : t) : fueled (t * HandLog.t) :=
  run b <- lift (py_mod (button_pos g + 1) (num_players g));
  let g := set_button_pos b g in
  run g <- lift (run_simulation_positions (py_range (num_players g)) g);
  run r <- play_hand fuel g;
  run entry <- lift (_log_hand_results r.1 r.2);
  Some (Ok (r.1, entry)).

Fixpoint run_hands (fuel : nat) (num_hands : nat) (g : t)
    : fueled (t * list HandLog.t) :=
  match num_hands with
  | O => Some (Ok (g, []))
  | S n =>
      run r <- run_one_hand fuel g;
      run rs <- run_hands fuel n r.1;
      Some (Ok (rs.1, r.2 :: rs.2))
  end.

Definition run_simulation (fuel : nat) (num_hands : Z) (g : t)
    : fueled (t * list HandLog.t) :=
  run_hands fuel (Z.to_nat num_hands) g.
End WithShuffle.

End Session.

(** * Specification predicates *)

(** What a returned decision looks like when the call is affordable. *)
Definition decision_shape (stack to_call : Q) (d : string * Q) : Prop :=
  (d.1 = "fold" /\ d.2 == 0)%Q
  \/ (d.1 = "call" /\ d.2 == to_call /\ d.2 <= stack)%Q
  \/ (d.1 = "raise" /\ d.2 <= stack)%Q.



(** [g'] differs from [g] by moving [x] chips from the stack of the player
    at list position [k] into the pot, in one step: one float subtraction
    from that stack and one float addition of the same amount to the pot; no
    other stack moves. *)
Definition moves_chips (g g' : PokerGame.t) (k : nat) (x : Q) : Prop :=
  PokerGame.pot g' = fadd (PokerGame.pot g) x
  /\ length (PokerGame.players g') = length (PokerGame.players g)
  /\ (forall p p', PokerGame.players g !! k = Some p ->
                   PokerGame.players g' !! k = Some p' ->
                   Player.stack p' = fsub (Player.stack p) x)
  /\ (forall j, j <> k ->
        Player.stack <$> (PokerGame.players g' !! j)
        = Player.stack <$> (PokerGame.players g !! j)).




(** The [folded] flags around the table, seat by seat. *)
Definition folded_flags (g : PokerGame.t) : list bool :=
  map Player.folded (PokerGame.players g).

(** No player at the table is marked as folded. *)
Definition nobody_folded (g : PokerGame.t) : Prop :=
  Forall (fun p => Player.folded p = false) (PokerGame.players g).

(** [a] may stand before [b] in a list that is descending, resp. ascending,
    for the comparison [lt]. *)
Definition desc_ok {A} (lt : A -> A -> bool) (a b : A) : Prop := lt a b = false.
Definition asc_ok {A} (lt : A -> A -> bool) (a b : A) : Prop := lt b a = false.

(** A test over the four suits. *)
Definition for_all_suits (f : Suit -> bool) : bool := forallb f all_suits.

(** Every arrangement of five cards of the given ranks, in suits that are
    not all the same, is evaluated as a straight whose tie-break is the
    index of the Two. *)
Definition straight_on_two_check (rs : list Rank) : bool :=
  for_all_suits (fun s1 => for_all_suits (fun s2 => for_all_suits (fun s3 =>
  for_all_suits (fun s4 => for_all_suits (fun s5 =>
    bool_decide (s1 = s2 /\ s2 = s3 /\ s3 = s4 /\ s4 = s5)
    || forallb
         (fun l => bool_decide
                     (_evaluate_cards l
                      = Ok (HandStrength.mk STRAIGHT [rank_index TWO])))
         (permutations (zip_with mkCard rs [s1; s2; s3; s4; s5]))))))).

(** The sum of the winnings in the list returned by [_resolve_winners]. *)
Definition winnings_total (results : list (nat * Q)) : Q :=
  foldr (fun r acc => (r.2 + acc)%Q) 0%Q results.

(** The hands that the active players of [g] show down. *)
Definition shown_hand (g : PokerGame.t) (seat : nat) (h : HandStrength.t) : Prop :=
  exists p, (seat, p) ∈ Game.active_players g
    /\ Player.evaluate_hand p (PokerGame.community_cards g) = Ok h.

(** The number of cards of rank [r]. *)
Definition rank_count (r : Rank) (cards : list Card) : nat :=
  length (of_rank r cards).

(** The cards are not all of one rank. *)
Definition two_ranks (cards : list Card) : Prop :=
  exists c1 c2, c1 ∈ cards /\ c2 ∈ cards /\ rank c1 <> rank c2.

(** The cards show at least three different ranks. *)
Definition three_ranks (cards : list Card) : Prop :=
  exists c1 c2 c3, c1 ∈ cards /\ c2 ∈ cards /\ c3 ∈ cards
    /\ rank c1 <> rank c2 /\ rank c1 <> rank c3 /\ rank c2 <> rank c3.

(** The label that [reset_hand] gives the seat at distance [pos] from the
    button. *)
Definition seat_label (pos : Z) : string :=
  if pos <? 6 then nth (Z.to_nat pos) PokerGame.position_names ""
  else "MP" +:+ pretty (pos - 4).

(** Every arrangement of the five cards Ten to Ace of one suit is evaluated
    as a straight flush whose tie-break is the index of the Ten. *)
Definition royal_on_ten_check : bool :=
  for_all_suits (fun s =>
    forallb
      (fun l => bool_decide
                  (_evaluate_cards l
                   = Ok (HandStrength.mk STRAIGHT_FLUSH [rank_index TEN])))
      (permutations
         [mkCard TEN s; mkCard JACK s; mkCard QUEEN s; mkCard KING s;
          mkCard ACE s])).

(** ** Dealing, frames and invariants of a hand *)

(** [k] successive calls of [draw], as the dealing loops make them; once the
    deck is empty every further call returns [None]. *)
Fixpoint draw_many (k : nat) (d : Deck.t) : list Card * Deck.t :=
  match k with
  | O => ([], d)
  | S k' =>
      match Deck.draw d with
      | (Some c, d') => let '(cs, d'') := draw_many k' d' in (c :: cs, d'')
      | (None, d') => ([], d')
      end
  end.

(** The cards hold the five consecutive ranks whose indices start at [k]. *)
Definition holds_run (cards : list Card) (k : Z) : Prop :=
  forall j, 0 <= j < 5 -> exists x, x ∈ cards /\ rank_index (rank x) = k + j.

(** Who is still in the hand, seat by seat. *)
Definition active_flags (g : PokerGame.t) : list bool :=
  map Player.is_active (PokerGame.players g).

(** What identifies a player during a hand: name, hole cards, position. *)
Definition player_seat (p : Player.t) : string * list Card * string :=
  (Player.name p, Player.hole_cards p, Player.position p).

(** The part of the table that betting never touches. *)
Definition table_setup (g : PokerGame.t)
    : Z * Q * Q * Q * bool * Deck.t * list Card * Z :=
  (PokerGame.num_players g, PokerGame.initial_stack g, PokerGame.small_blind g,
   PokerGame.big_blind g, PokerGame.four_card_flop g, PokerGame.deck g,
   PokerGame.community_cards g, PokerGame.button_pos g).

(** No seat that is out of the hand in [g] is in the hand in [g']. *)
Definition never_reactivated (g g' : PokerGame.t) : Prop :=
  forall k, active_flags g' !! k = Some true -> active_flags g !! k = Some true.

(** What a betting step leaves as it was. *)
Definition round_frame (g g' : PokerGame.t) : Prop :=
  table_setup g' = table_setup g
  /\ map player_seat (PokerGame.players g') = map player_seat (PokerGame.players g)
  /\ never_reactivated g g'
  /\ (length (Game.active_players g') <= length (Game.active_players g))%nat.

(** Every card on the table: the hole cards, the board and the deck. *)
Definition cards_in_play (g : PokerGame.t) : list Card :=
  concat (map Player.hole_cards (PokerGame.players g))
  ++ PokerGame.community_cards g ++ Deck.cards (PokerGame.deck g).

(** [p'] is [p] with [n] more hole cards if [p] is in the hand, and [p]
    itself otherwise. *)
Definition dealt (n : nat) (p p' : Player.t) : Prop :=
  exists new,
    p' = Player.set_hole_cards (Player.hole_cards p ++ new) p
    /\ length new = if Player.is_active p then n else 0%nat.

(** The settings of a table and the seat of the button. *)
Definition game_config (g : PokerGame.t) : Z * Q * Q * Q * bool * Z :=
  (PokerGame.num_players g, PokerGame.initial_stack g, PokerGame.small_blind g,
   PokerGame.big_blind g, PokerGame.four_card_flop g, PokerGame.button_pos g).

(** What every step of a hand between [reset_hand] and the payout keeps:
    the settings, the names around the table, and a player in the hand if
    there was one. *)
Definition hand_step (g g' : PokerGame.t) : Prop :=
  game_config g' = game_config g
  /\ map Player.name (PokerGame.players g') = map Player.name (PokerGame.players g)
  /\ ((1 <= length (Game.active_players g))%nat ->
      (1 <= length (Game.active_players g'))%nat).

(** The cards on the table are the same, up to their order. *)
Definition cards_step (g g' : PokerGame.t) : Prop :=
  Permutation (cards_in_play g') (cards_in_play g).

(** * Properties *)

(** ** Deck *)

Lemma full_deck_length : length Deck.full_deck = 52%nat.
Proof. reflexivity. Qed.

Lemma full_deck_NoDup : NoDup Deck.full_deck.
Proof. apply (bool_decide_unpack _). vm_compute. exact I. Qed.

Lemma list_pop_snoc l c rest :
  Deck.list_pop l = Some (c, rest) -> l = rest ++ [c].
Proof.
  revert c rest. induction l as [|a l IH]; intros c rest H; simpl in H.
  - discriminate.
  - destruct l as [|b l'].
    + injection H as <- <-. reflexivity.
    + destruct (Deck.list_pop (b :: l')) as [[x r]|] eqn:E; [|discriminate].
      injection H as <- <-. rewrite (IH x r eq_refl). reflexivity.
Qed.

Lemma list_pop_None l : Deck.list_pop l = None -> l = [].
Proof.
  induction l as [|a l IH]; simpl; [reflexivity|].
  destruct l as [|b l']; [discriminate|].
  destruct (Deck.list_pop (b :: l')) as [[x r]|] eqn:E; [discriminate|].
  intros _. specialize (IH eq_refl). discriminate.
Qed.

Lemma list_remove_Ok x l rest :
  Deck.list_remove x l = Ok rest ->
  exists l1 l2, l = l1 ++ x :: l2 /\ rest = l1 ++ l2.
Proof.
  revert rest. induction l as [|a l IH]; intros rest H; simpl in H.
  - discriminate.
  - destruct (decide (a = x)) as [->|Hne].
    + injection H as <-. exists [], l. split; reflexivity.
    + destruct (Deck.list_remove x l) as [r|e] eqn:E; simpl in H; [|discriminate].
      injection H as <-.
      destruct (IH r eq_refl) as (l1 & l2 & -> & ->).
      exists (a :: l1), l2. split; reflexivity.
Qed.

Lemma list_remove_absent x l :
  x ∉ l -> Deck.list_remove x l = Raise ValueError.
Proof.
  induction l as [|a l IH]; intros Hx; simpl; [reflexivity|].
  apply not_elem_of_cons in Hx as [Hne Hx].
  destruct (decide (a = x)) as [->|_]; [congruence|].
  rewrite (IH Hx). reflexivity.
Qed.

Lemma invariant_new : Deck.invariant Deck.new.
Proof.
  repeat split; simpl.
  - intros c _. apply not_elem_of_empty.
  - apply full_deck_NoDup.
Qed.

Lemma invariant_permute d l' :
  Deck.invariant d -> Permutation (Deck.cards d) l' ->
  Deck.invariant (Deck.mk l' (Deck.discarded d)).
Proof.
  intros (Hn & Hd & Hu) Hp. unfold Deck.invariant, Deck.remaining in *; simpl.
  repeat split.
  - rewrite <- (Permutation_length Hp). exact Hn.
  - intros c Hc. apply Hd. rewrite Hp. exact Hc.
  - rewrite <- Hp. exact Hu.
Qed.

(** Moving one card from the remaining sequence to the discards. *)
Lemma invariant_move d l1 c l2 :
  Deck.invariant d -> Deck.cards d = l1 ++ c :: l2 ->
  Deck.invariant (Deck.mk (l1 ++ l2) ({[c]} ∪ Deck.discarded d)).
Proof.
  intros (Hn & Hd & Hu) E. unfold Deck.invariant, Deck.remaining in *; simpl.
  rewrite E in Hn, Hd, Hu.
  apply NoDup_app in Hu as (Hu1 & Hu12 & Hu2).
  apply NoDup_cons in Hu2 as (Hc2 & Hu2).
  assert (Hc : c ∉ Deck.discarded d).
  { apply Hd. apply elem_of_app. right. left. }
  repeat split.
  - rewrite size_union by set_solver. rewrite size_singleton.
    rewrite length_app in *. simpl in Hn. lia.
  - intros x Hx. rewrite elem_of_union, elem_of_singleton.
    intros [->|Hx'].
    + apply elem_of_app in Hx as [Hx|Hx]; [|tauto].
      apply (Hu12 _ Hx). left.
    + revert Hx'. apply Hd. rewrite !elem_of_app in *. rewrite elem_of_cons. tauto.
  - apply NoDup_app. repeat split; try assumption.
    intros x Hx1 Hx2. apply (Hu12 _ Hx1). right. exact Hx2.
Qed.

Lemma invariant_step d d' : Deck.invariant d -> Deck.step d d' -> Deck.invariant d'.
Proof.
  intros Hinv Hstep. destruct Hstep as [d f Hf|d|d r s|d f Hf].
  - apply invariant_permute; [exact Hinv|apply Hf].
  - unfold Deck.draw. destruct (Deck.list_pop (Deck.cards d)) as [[c rest]|] eqn:E;
      simpl; [|exact Hinv].
    apply list_pop_snoc in E.
    replace rest with (rest ++ []) by apply app_nil_r.
    apply invariant_move; [exact Hinv|exact E].
  - unfold Deck.deal_specific_card.
    destruct (Deck.list_remove _ _) as [rest|e] eqn:E; simpl; [|exact Hinv].
    apply list_remove_Ok in E as (l1 & l2 & E & ->).
    apply invariant_move; [exact Hinv|exact E].
  - apply (invariant_permute Deck.new); [apply invariant_new|apply Hf].
Qed.

(** C6. After construction and any sequence of [shuffle], [draw],
    [deal_specific_card] and [reset], [remaining()] plus the number of
    discarded cards is 52, no card is both remaining and discarded, and no
    card occurs twice among the remaining ones. *)
Theorem deck_invariant_reachable (d : Deck.t) :
  Deck.reachable d ->
  (Deck.remaining d + size (Deck.discarded d) = 52)%nat
  /\ (forall c, c ∈ Deck.cards d -> c ∉ Deck.discarded d)
  /\ NoDup (Deck.cards d).
Proof.
  induction 1 as [|d d' _ IH Hstep].
  - apply invariant_new.
  - exact (invariant_step d d' IH Hstep).
Qed.

(** C9. Asking [deal_specific_card] for a card that is not among the
    remaining cards returns [None] and changes neither the remaining
    sequence nor the discarded set. *)
Theorem deal_specific_card_not_found (d : Deck.t) (r : Rank) (s : Suit) :
  mkCard r s ∉ Deck.cards d ->
  Deck.deal_specific_card d r s = (None, d).
Proof.
  intros H. unfold Deck.deal_specific_card.
  rewrite (list_remove_absent _ _ H). reflexivity.
Qed.

Lemma deck_invariant_reachable_witness :
  let d := (Deck.draw (Deck.deal_specific_card
                         (Deck.shuffle (@rev Card) (Deck.draw Deck.new).2)
                         KING HEARTS).2).2 in
  Deck.reachable d
  /\ (Deck.remaining d + size (Deck.discarded d) = 52)%nat
  /\ (forall c, c ∈ Deck.cards d -> c ∉ Deck.discarded d)
  /\ NoDup (Deck.cards d).
Proof.
  intros d.
  assert (H : Deck.reachable d).
  { unfold d.
    eapply Deck.reach_step; [|apply Deck.step_draw].
    eapply Deck.reach_step; [|apply Deck.step_deal].
    eapply Deck.reach_step; [|apply Deck.step_shuffle, Permutation_rev].
    eapply Deck.reach_step; [|apply Deck.step_draw].
    apply Deck.reach_new. }
  split; [exact H|].
  exact (deck_invariant_reachable d H).
Defined.

Lemma deal_specific_card_not_found_witness :
  let d := (Deck.draw Deck.new).2 in
  (mkCard ACE SPADES ∉ Deck.cards d)
  /\ Deck.deal_specific_card d ACE SPADES = (None, d).
Proof.
  intros d.
  assert (H : mkCard ACE SPADES ∉ Deck.cards d).
  { apply (bool_decide_unpack _). vm_compute. exact I. }
  split; [exact H|].
  exact (deal_specific_card_not_found d ACE SPADES H).
Defined.

(** ** Sorting *)

Lemma filter_none {A} (P : A -> Prop) `{forall x, Decision (P x)} (l : list A) :
  (forall z, z ∈ l -> ~ P z) -> filter P l = [].
Proof.
  induction l as [|a l IH]; intros Hl; [reflexivity|].
  rewrite filter_cons_False by (apply Hl; left).
  apply IH. intros z Hz. apply Hl. right. exact Hz.
Qed.

Section SortingFacts.
Context {A : Type} (lt : A -> A -> bool).

Lemma insert_asc_perm x l : Permutation (insert_asc lt x l) (x :: l).
Proof.
  induction l as [|y l IH]; simpl; [reflexivity|].
  destruct (lt y x); [|reflexivity].
  rewrite IH. apply perm_swap.
Qed.

Lemma py_sorted_perm l : Permutation (py_sorted lt l) l.
Proof.
  induction l as [|x l IH]; simpl; [reflexivity|].
  rewrite insert_asc_perm, IH. reflexivity.
Qed.

Lemma insert_desc_perm x l : Permutation (insert_desc lt x l) (x :: l).
Proof.
  induction l as [|y l IH]; simpl; [reflexivity|].
  destruct (lt x y); [|reflexivity].
  rewrite IH. apply perm_swap.
Qed.

Lemma py_sorted_rev_perm l : Permutation (py_sorted_rev lt l) l.
Proof.
  induction l as [|x l IH]; simpl; [reflexivity|].
  rewrite insert_desc_perm, IH. reflexivity.
Qed.

(** [lt] is the strict part of a total preorder. *)
Hypothesis lt_irrefl : forall a, lt a a = false.
Hypothesis lt_asym : forall a b, lt a b = true -> lt b a = false.
Hypothesis ge_trans : forall a b c, lt a b = false -> lt b c = false -> lt a c = false.

Local Abbreviation desc_ok := (desc_ok lt).
Local Abbreviation asc_ok := (asc_ok lt).

Lemma insert_desc_sorted x l :
  StronglySorted desc_ok l -> StronglySorted desc_ok (insert_desc lt x l).
Proof.
  induction 1 as [|y l Hs IH Hy]; simpl.
  - repeat constructor.
  - destruct (lt x y) eqn:E.
    + constructor; [exact IH|].
      apply Forall_forall. intros z Hz.
      rewrite insert_desc_perm in Hz. apply elem_of_cons in Hz as [->|Hz].
      * apply lt_asym, E.
      * rewrite Forall_forall in Hy. apply Hy, Hz.
    + constructor; [constructor; assumption|].
      constructor; [exact E|].
      apply Forall_forall. intros z Hz. rewrite Forall_forall in Hy.
      exact (ge_trans _ _ _ E (Hy z Hz)).
Qed.

Lemma py_sorted_rev_sorted l : StronglySorted desc_ok (py_sorted_rev lt l).
Proof.
  induction l as [|x l IH]; simpl; [constructor|].
  apply insert_desc_sorted, IH.
Qed.

Lemma insert_asc_sorted x l :
  StronglySorted asc_ok l -> StronglySorted asc_ok (insert_asc lt x l).
Proof.
  induction 1 as [|y l Hs IH Hy]; simpl.
  - repeat constructor.
  - destruct (lt y x) eqn:E.
    + constructor; [exact IH|].
      apply Forall_forall. intros z Hz.
      rewrite insert_asc_perm in Hz. apply elem_of_cons in Hz as [->|Hz].
      * apply lt_asym, E.
      * rewrite Forall_forall in Hy. apply Hy, Hz.
    + constructor; [constructor; assumption|].
      constructor; [exact E|].
      apply Forall_forall. intros z Hz. rewrite Forall_forall in Hy.
      exact (ge_trans _ _ _ (Hy z Hz) E).
Qed.

Lemma py_sorted_sorted l : StronglySorted asc_ok (py_sorted lt l).
Proof.
  induction l as [|x l IH]; simpl; [constructor|].
  apply insert_asc_sorted, IH.
Qed.

(** The head of [sorted(l)] is a least element of [l]. *)
Lemma py_sorted_head_least l c t x :
  py_sorted lt l = c :: t -> x ∈ l -> lt x c = false.
Proof.
  intros E Hx. pose proof (py_sorted_sorted l) as Hs.
  rewrite <- (py_sorted_perm l), E in Hx. rewrite E in Hs.
  apply StronglySorted_inv in Hs as [_ Hc].
  apply elem_of_cons in Hx as [->|Hx]; [apply lt_irrefl|].
  rewrite Forall_forall in Hc. apply Hc, Hx.
Qed.

(** The head of [sorted(l, reverse=True)] is a greatest element of [l]. *)
Lemma py_sorted_rev_head_greatest l c t x :
  py_sorted_rev lt l = c :: t -> x ∈ l -> lt c x = false.
Proof.
  intros E Hx. pose proof (py_sorted_rev_sorted l) as Hs.
  rewrite <- (py_sorted_rev_perm l), E in Hx. rewrite E in Hs.
  apply StronglySorted_inv in Hs as [_ Hc].
  apply elem_of_cons in Hx as [->|Hx]; [apply lt_irrefl|].
  rewrite Forall_forall in Hc. apply Hc, Hx.
Qed.

(** In a descending list, a test that is upward closed selects a leading
    run: the loop that stops at the first failure collects every element
    that passes. *)
Lemma take_until_break_filter (test : A -> bool) l :
  StronglySorted desc_ok l ->
  (forall a b, desc_ok a b -> test b = true -> test a = true) ->
  take_until_break test l = filter (fun a => test a = true) l.
Proof.
  intros Hs Hup. induction Hs as [|y l Hs IH Hy]; simpl; [reflexivity|].
  rewrite filter_cons. destruct (test y) eqn:E.
  - rewrite decide_True by reflexivity. rewrite IH. reflexivity.
  - rewrite decide_False by discriminate.
    symmetry. apply filter_none.
    intros z Hz Ht. rewrite Forall_forall in Hy.
    rewrite (Hup _ _ (Hy z Hz) Ht) in E. discriminate.
Qed.

End SortingFacts.

Section KeySorting.
Context {A : Type} (key : A -> Z).

Local Abbreviation klt := (fun a b : A => key a <? key b).

Lemma klt_irrefl a : klt a a = false.
Proof. apply Z.ltb_irrefl. Qed.

Lemma klt_asym a b : klt a b = true -> klt b a = false.
Proof. cbv beta. rewrite Z.ltb_lt, Z.ltb_ge. lia. Qed.

Lemma klt_ge_trans a b c : klt a b = false -> klt b c = false -> klt a c = false.
Proof. cbv beta. rewrite !Z.ltb_ge. lia. Qed.

Lemma py_sorted_key_head l c t x :
  py_sorted klt l = c :: t -> x ∈ l -> key c <= key x.
Proof.
  intros E Hx.
  pose proof (py_sorted_head_least klt klt_irrefl klt_asym klt_ge_trans
                l c t x E Hx) as H.
  cbv beta in H. apply Z.ltb_ge in H. exact H.
Qed.

Lemma py_sorted_rev_key_head l c t x :
  py_sorted_rev klt l = c :: t -> x ∈ l -> key x <= key c.
Proof.
  intros E Hx.
  pose proof (py_sorted_rev_head_greatest klt klt_irrefl klt_asym klt_ge_trans
                l c t x E Hx) as H.
  cbv beta in H. apply Z.ltb_ge in H. exact H.
Qed.

End KeySorting.

(** ** Straights *)

(** The ranks that [_check_straight] sorts are those of the cards. *)
Lemma sorted_ranks_elem (cards : list Card) (r : Rank) :
  r ∈ py_sorted (fun a b => rank_index a <? rank_index b)
        (remove_dups (map rank cards))
  <-> exists c, c ∈ cards /\ rank c = r.
Proof.
  rewrite py_sorted_perm, elem_of_remove_dups.
  change (map rank cards) with (rank <$> cards). rewrite list_elem_of_fmap.
  split; intros (c & H1 & H2); exists c; auto.
Qed.

Lemma sorted_ranks_length (cards : list Card) :
  (length (py_sorted (fun a b => Z.ltb (rank_index a) (rank_index b))
             (remove_dups (map rank cards))) <= length cards)%nat.
Proof.
  rewrite (Permutation_length
             (py_sorted_perm _ (remove_dups (map rank cards)))).
  transitivity (length (map rank cards)).
  - apply submseteq_length, NoDup_submseteq; [apply NoDup_remove_dups|].
    intros x Hx. rewrite elem_of_remove_dups in Hx. exact Hx.
  - rewrite length_map. reflexivity.
Qed.

Lemma run_at_first ranks i :
  run_at ranks i = true ->
  rank_index (rank_at ranks (i + 1)) - rank_index (rank_at ranks i) = 1.
Proof.
  unfold run_at. simpl. rewrite !andb_true_iff. intros (H & _).
  apply Z.eqb_eq in H. rewrite Nat.add_0_r in H. exact H.
Qed.

Lemma rank_index_range r : 0 <= rank_index r <= 12.
Proof. destruct r; simpl; lia. Qed.

(** The list returned by [_check_straight] is sorted upwards, so that its
    first card is the lowest card of the straight: never an Ace. *)
Lemma _check_straight_head cards c l :
  _check_straight cards = Some (c :: l) -> rank c <> ACE.
Proof.
  unfold _check_straight.
  set (ranks := py_sorted _ (remove_dups (map rank cards))).
  destruct (_ && _) eqn:Hw.
  - rewrite !andb_true_iff in Hw. destruct Hw as ((((_ & H2) & _) & _) & _).
    apply bool_decide_eq_true in H2. apply sorted_ranks_elem in H2 as (x & Hx & Hr).
    intros H. injection H as H.
    assert (Hin : x ∈ filter (fun c => rank c ∈ wheel_ranks) cards).
    { apply list_elem_of_filter. split; [|exact Hx]. rewrite Hr.
      unfold wheel_ranks. set_solver. }
    pose proof (py_sorted_key_head (fun c => rank_index (rank c)) _ _ _ _ H Hin) as Hle.
    simpl in Hle. rewrite Hr in Hle. simpl in Hle.
    intros Hc. rewrite Hc in Hle. simpl in Hle. lia.
  - destruct (List.find _ _) as [i|] eqn:Hf; [|discriminate].
    apply find_some in Hf as [Hi Hrun].
    apply in_seq in Hi. apply run_at_first in Hrun.
    intros H. injection H as H.
    assert (Hlook : ranks !! i = Some (rank_at ranks i)).
    { unfold rank_at.
      destruct (nth_lookup_or_length ranks i TWO) as [E|E]; [exact E|lia]. }
    assert (Hr0 : rank_at ranks i ∈ ranks).
    { eapply list_elem_of_lookup_2. exact Hlook. }
    apply sorted_ranks_elem in Hr0 as (x & Hx & Hr).
    assert (Hin : x ∈ filter
              (fun c => rank c ∈ take 5 (drop i ranks)) cards).
    { apply list_elem_of_filter. split; [|exact Hx]. rewrite Hr.
      apply (list_elem_of_lookup_2 _ 0%nat).
      rewrite lookup_take_lt by lia. rewrite lookup_drop, Nat.add_0_r.
      exact Hlook. }
    destruct (py_sorted card_lt _) as [|c' l'] eqn:Hs; [discriminate|].
    simpl in H. injection H as -> _.
    pose proof (py_sorted_key_head (fun c => rank_index (rank c)) _ _ _ _ Hs Hin) as Hle.
    simpl in Hle. rewrite Hr in Hle.
    pose proof (rank_index_range (rank_at ranks (i + 1))).
    intros Hc. rewrite Hc in Hle. simpl in Hle. lia.
Qed.

Lemma straight_flush_scan_head cards suits c l :
  straight_flush_scan cards suits = Some (c :: l) -> rank c <> ACE.
Proof.
  induction suits as [|s suits IH]; simpl; [discriminate|].
  destruct (_check_straight _) as [[|c' l']|] eqn:E; try exact IH.
  intros H. injection H as -> ->. eapply _check_straight_head. exact E.
Qed.

(** ** The Ace-low straight *)

Lemma for_all_suits_elim f s : for_all_suits f = true -> f s = true.
Proof.
  unfold for_all_suits. simpl. rewrite !andb_true_iff.
  intros (H1 & H2 & H3 & H4 & _). destruct s; assumption.
Qed.

Lemma straight_on_two_check_elim rs s1 s2 s3 s4 s5 l :
  straight_on_two_check rs = true ->
  ~ (s1 = s2 /\ s2 = s3 /\ s3 = s4 /\ s4 = s5) ->
  Permutation l (zip_with mkCard rs [s1; s2; s3; s4; s5]) ->
  _evaluate_cards l = Ok (HandStrength.mk STRAIGHT [rank_index TWO]).
Proof.
  intros Hc Hmixed Hperm. unfold straight_on_two_check in Hc.
  apply (for_all_suits_elim _ s1) in Hc. apply (for_all_suits_elim _ s2) in Hc.
  apply (for_all_suits_elim _ s3) in Hc. apply (for_all_suits_elim _ s4) in Hc.
  apply (for_all_suits_elim _ s5) in Hc.
  apply orb_true_iff in Hc as [Hc|Hc].
  - apply bool_decide_eq_true in Hc. contradiction.
  - rewrite forallb_forall in Hc.
    eapply bool_decide_eq_true_1. apply Hc.
    apply list_elem_of_In, permutations_Permutation. symmetry. exact Hperm.
Qed.

Lemma wheel_check : straight_on_two_check [ACE; TWO; THREE; FOUR; FIVE] = true.
Proof. vm_compute. reflexivity. Qed.

Lemma six_high_check : straight_on_two_check [TWO; THREE; FOUR; FIVE; SIX] = true.
Proof. vm_compute. reflexivity. Qed.

(** C4 (a defect of the code).  Five cards A,2,3,4,5 of mixed suits, in
    any order, are classified [STRAIGHT], but the tie-break is the index of
    the first card of the upward-sorted straight, the Two, not of the Five;
    a Six-high straight 2,3,4,5,6 gets the same tie-break, so the Ace-low
    straight does not compare below it: the two keys are equal. *)
Theorem ace_low_straight_ties_six_high
    (s1 s2 s3 s4 s5 t1 t2 t3 t4 t5 : Suit) (wheel six_high : list Card) :
  Permutation wheel
    [mkCard ACE s1; mkCard TWO s2; mkCard THREE s3; mkCard FOUR s4; mkCard FIVE s5] ->
  ~ (s1 = s2 /\ s2 = s3 /\ s3 = s4 /\ s4 = s5) ->
  Permutation six_high
    [mkCard TWO t1; mkCard THREE t2; mkCard FOUR t3; mkCard FIVE t4; mkCard SIX t5] ->
  ~ (t1 = t2 /\ t2 = t3 /\ t3 = t4 /\ t4 = t5) ->
  exists hw hs,
    _evaluate_cards wheel = Ok hw /\ _evaluate_cards six_high = Ok hs
    /\ hw = HandStrength.mk STRAIGHT [rank_index TWO]
    /\ HandStrength.high_cards hw <> [rank_index FIVE]
    /\ hand_key hw = hand_key hs
    /\ key_lt (hand_key hw) (hand_key hs) = false.
Proof.
  intros Hw Hs Hx Ht.
  pose proof (straight_on_two_check_elim _ _ _ _ _ _ _ wheel_check Hs Hw) as Ew.
  pose proof (straight_on_two_check_elim _ _ _ _ _ _ _ six_high_check Ht Hx) as Ex.
  exists (HandStrength.mk STRAIGHT [rank_index TWO]),
         (HandStrength.mk STRAIGHT [rank_index TWO]).
  split; [exact Ew|]. split; [exact Ex|]. split; [reflexivity|].
  split; [simpl; congruence|]. split; reflexivity.
Qed.

Lemma ace_low_straight_ties_six_high_witness :
  let wheel := [mkCard ACE HEARTS; mkCard TWO SPADES; mkCard THREE CLUBS;
                mkCard FOUR DIAMONDS; mkCard FIVE HEARTS] in
  let six_high := [mkCard TWO CLUBS; mkCard THREE HEARTS; mkCard FOUR HEARTS;
                   mkCard FIVE SPADES; mkCard SIX DIAMONDS] in
  exists hw hs,
    _evaluate_cards wheel = Ok hw /\ _evaluate_cards six_high = Ok hs
    /\ hw = HandStrength.mk STRAIGHT [rank_index TWO]
    /\ HandStrength.high_cards hw <> [rank_index FIVE]
    /\ hand_key hw = hand_key hs
    /\ key_lt (hand_key hw) (hand_key hs) = false.
Proof.
  intros wheel six_high.
  apply (ace_low_straight_ties_six_high
           HEARTS SPADES CLUBS DIAMONDS HEARTS CLUBS HEARTS HEARTS SPADES DIAMONDS).
  - reflexivity.
  - intros (H & _). discriminate H.
  - reflexivity.
  - intros (H & _). discriminate H.
Defined.

(** ** Rank counts *)

Lemma counter_incr_elem r m r' n' :
  NoDup (map fst m) ->
  (r', n') ∈ counter_incr r m <->
  (r' <> r /\ (r', n') ∈ m)
  \/ (r' = r /\ ((exists n, (r, n) ∈ m /\ n' = S n)
                 \/ ((r ∉ map fst m) /\ n' = 1%nat))).
Proof.
  induction m as [|[r0 n0] m IH]; intros Hnd; simpl.
  - rewrite list_elem_of_singleton. split.
    + intros E. injection E as -> ->. right. split; [reflexivity|].
      right. split; [apply not_elem_of_nil|reflexivity].
    + intros [[_ H]|[-> [(n & H & _)|[_ ->]]]]; try (inversion H; fail). reflexivity.
  - simpl in Hnd. apply NoDup_cons in Hnd as [Hr0 Hnd].
    assert (Hkey : forall k, (r0, k) ∈ m -> False).
    { intros k Hk. apply Hr0. change (r0 ∈ fst <$> m).
      apply list_elem_of_fmap. exists (r0, k). auto. }
    destruct (decide (r0 = r)) as [->|Hne].
    + split.
      * intros H. apply elem_of_cons in H as [E|H].
        -- injection E as -> ->. right. split; [reflexivity|]. left.
           exists n0. split; [left|reflexivity].
        -- left. split; [|right; exact H]. intros ->. exact (Hkey _ H).
      * intros [[Hne H]|[-> [(n & H & ->)|[H _]]]].
        -- apply elem_of_cons in H as [E|H]; [injection E as -> _; congruence|].
           right. exact H.
        -- apply elem_of_cons in H as [E|H]; [injection E as ->; left|].
           exfalso. exact (Hkey _ H).
        -- exfalso. apply H. left.
    + split.
      * intros H. apply elem_of_cons in H as [E|H].
        -- injection E as -> ->. left. split; [exact Hne|left].
        -- apply (IH Hnd) in H as [[H1 H2]|[-> [(n & H & ->)|[H ->]]]].
           ++ left. split; [exact H1|right; exact H2].
           ++ right. split; [reflexivity|]. left. exists n.
              split; [right; exact H|reflexivity].
           ++ right. split; [reflexivity|]. right. split; [|reflexivity].
              apply not_elem_of_cons. split; [congruence|exact H].
      * intros [[H1 H]|[-> [(n & H & ->)|[H ->]]]].
        -- apply elem_of_cons in H as [E|H]; [rewrite E; left|].
           right. apply (IH Hnd). left. split; assumption.
        -- apply elem_of_cons in H as [E|H]; [injection E as -> _; congruence|].
           right. apply (IH Hnd). right. split; [reflexivity|]. left. exists n. auto.
        -- apply not_elem_of_cons in H as [_ H].
           right. apply (IH Hnd). right. split; [reflexivity|]. right. auto.
Qed.

Lemma counter_incr_keys r m :
  NoDup (map fst m) -> NoDup (map fst (counter_incr r m)).
Proof.
  induction m as [|[r0 n0] m IH]; intros Hnd; simpl.
  - constructor; [apply not_elem_of_nil|constructor].
  - simpl in Hnd. pose proof Hnd as Hnd0. apply NoDup_cons in Hnd as [Hr0 Hnd].
    destruct (decide (r0 = r)) as [->|Hne]; simpl; [exact Hnd0|].
    apply NoDup_cons. split; [|apply IH, Hnd].
    intros Hin. change (r0 ∈ fst <$> counter_incr r m) in Hin.
    apply list_elem_of_fmap in Hin as ([r1 n1] & E & Hin). simpl in E. subst r1.
    apply (counter_incr_elem _ _ _ _ Hnd) in Hin as [[_ H]|[E _]]; [|congruence].
    apply Hr0. change (r0 ∈ fst <$> m). apply list_elem_of_fmap. exists (r0, n1). auto.
Qed.

Lemma rank_counts_snoc cards c :
  rank_counts (cards ++ [c]) = counter_incr (rank c) (rank_counts cards).
Proof.
  unfold rank_counts, Counter. rewrite map_app, fold_left_app. reflexivity.
Qed.

Lemma rank_count_snoc r cards c :
  rank_count r (cards ++ [c])
  = (rank_count r cards + if decide (rank c = r) then 1 else 0)%nat.
Proof.
  unfold rank_count, of_rank. rewrite filter_app, length_app. f_equal.
  rewrite filter_cons, filter_nil. destruct (decide (rank c = r)); reflexivity.
Qed.

(** [rank_counts] lists each rank that occurs, once, with its number of
    cards. *)
Lemma rank_counts_spec cards :
  NoDup (map fst (rank_counts cards))
  /\ forall r n, (r, n) ∈ rank_counts cards <->
                 (n = rank_count r cards /\ 1 <= n)%nat.
Proof.
  induction cards as [|c cards IH] using rev_ind.
  - split; [constructor|]. intros r n. split.
    + intros H. inversion H.
    + intros [-> H]. unfold rank_count in H. simpl in H. lia.
  - destruct IH as [Hnd IH]. rewrite rank_counts_snoc.
    split; [apply counter_incr_keys, Hnd|].
    intros r n. rewrite (counter_incr_elem _ _ _ _ Hnd), rank_count_snoc.
    split.
    + intros [[Hne H]|[-> [(k & H & ->)|[H ->]]]].
      * apply IH in H as [-> H]. rewrite decide_False by congruence. lia.
      * apply IH in H as [-> H]. rewrite decide_True by reflexivity. lia.
      * rewrite decide_True by reflexivity. split; [|lia].
        destruct (rank_count (rank c) cards) as [|k] eqn:E; [reflexivity|].
        exfalso. apply H. change (rank c ∈ fst <$> rank_counts cards).
        apply list_elem_of_fmap. exists (rank c, S k). split; [reflexivity|].
        apply IH. split; [congruence|lia].
    + intros [-> Hn]. destruct (decide (rank c = r)) as [<-|Hne].
      * right. split; [reflexivity|].
        destruct (rank_count (rank c) cards) as [|k] eqn:E.
        -- right. split; [|reflexivity]. intros Hin.
           change (rank c ∈ fst <$> rank_counts cards) in Hin.
           apply list_elem_of_fmap in Hin as ([r1 n1] & E1 & Hin). simpl in E1. subst r1.
           apply IH in Hin. lia.
        -- left. exists (S k). split; [|lia]. apply IH. split; [congruence|lia].
      * left. split; [congruence|]. apply IH. split; lia.
Qed.

Lemma rank_counts_elem cards r n :
  (r, n) ∈ rank_counts cards -> n = rank_count r cards /\ (1 <= n)%nat.
Proof. apply rank_counts_spec. Qed.

Lemma rank_counts_has cards r :
  (1 <= rank_count r cards)%nat -> (r, rank_count r cards) ∈ rank_counts cards.
Proof. intros H. apply rank_counts_spec. split; [reflexivity|exact H]. Qed.

(** ** The categories of [_evaluate_cards] *)

Ltac category_leaf :=
  let H := fresh "H" in
  intros H; injection H as <-; cbn [HandStrength.rank];
  repeat first
    [ reflexivity
    | solve [eauto 8]
    | left; first [reflexivity | solve [eauto 8]]
    | right ].

Ltac category_test t :=
  let E := fresh "E" in
  destruct t as [[|? ?]|] eqn:E;
  [ | destruct (decide _); category_leaf | ].

Ltac category_test_res t :=
  let E := fresh "E" in
  destruct t as [[[|? ?]|]|?] eqn:E; cbn [rbind];
  [ | destruct (decide _); category_leaf | | intros; discriminate ].

(** Which test decides a hand: every category other than [HIGH_CARD] comes
    from its own detector, with a list of the length that the caller
    requires. *)
Lemma _evaluate_cards_category (cards : list Card) (h : HandStrength.t) :
  _evaluate_cards cards = Ok h ->
  HandStrength.rank h = HIGH_CARD
  \/ HandStrength.rank h = ROYAL_FLUSH
  \/ HandStrength.rank h = STRAIGHT_FLUSH
  \/ (exists l, _check_four_of_a_kind (py_sorted_rev card_lt cards) = Ok (Some l)
        /\ length l = 4%nat /\ HandStrength.rank h = FOUR_OF_A_KIND)
  \/ HandStrength.rank h = FULL_HOUSE
  \/ HandStrength.rank h = FLUSH
  \/ HandStrength.rank h = STRAIGHT
  \/ (exists l, _check_three_of_a_kind (py_sorted_rev card_lt cards) = Some l
        /\ length l = 3%nat /\ HandStrength.rank h = THREE_OF_A_KIND)
  \/ (exists l, _check_two_pair (py_sorted_rev card_lt cards) = Ok (Some l)
        /\ length l = 4%nat /\ HandStrength.rank h = TWO_PAIR)
  \/ (exists l, _check_pair (py_sorted_rev card_lt cards) = Some l
        /\ length l = 2%nat /\ HandStrength.rank h = PAIR).
Proof.
  unfold _evaluate_cards.
  set (s := py_sorted_rev card_lt cards).
  destruct (_check_straight_flush s) as [[|c l]|] eqn:Hsf.
  2:{ destruct (decide _); [destruct (decide _)|]; category_leaf. }
  all: category_test_res (_check_four_of_a_kind s).
  all: category_test (_check_full_house s).
  all: category_test (_check_flush s).
  all: category_test (_check_straight s).
  all: category_test (_check_three_of_a_kind s).
  all: category_test_res (_check_two_pair s).
  all: category_test (_check_pair s).
  all: category_leaf.
Qed.

(** ** The four detectors whose lists are too long *)

Lemma rank_split r cards :
  (length (of_rank r cards) + length (not_of_rank r cards) = length cards)%nat.
Proof.
  unfold of_rank, not_of_rank. induction cards as [|c cards IH]; [reflexivity|].
  rewrite !filter_cons. destruct (decide (rank c = r)) as [E|E].
  - rewrite decide_False by tauto. simpl. lia.
  - rewrite decide_True by exact E. simpl. lia.
Qed.

Lemma not_of_rank_nonempty r cards :
  two_ranks cards -> not_of_rank r cards <> [].
Proof.
  intros (c1 & c2 & H1 & H2 & Hne) E.
  assert (Hall : forall c, c ∈ cards -> rank c = r).
  { intros c Hc. destruct (decide (rank c = r)) as [|Hn]; [assumption|].
    exfalso. eapply filter_nil_not_elem_of; [exact E| |exact Hc]. exact Hn. }
  rewrite (Hall c1 H1), (Hall c2 H2) in Hne. congruence.
Qed.

Lemma not_of_rank_empty r cards c :
  not_of_rank r cards = [] -> c ∈ cards -> rank c = r.
Proof.
  intros E Hc. destruct (decide (rank c = r)) as [|Hn]; [assumption|].
  exfalso. eapply filter_nil_not_elem_of; [exact E| |exact Hc]. exact Hn.
Qed.

Lemma rank_count_perm r cards cards' :
  Permutation cards cards' -> rank_count r cards = rank_count r cards'.
Proof.
  intros H. unfold rank_count, of_rank. rewrite H. reflexivity.
Qed.

Lemma two_ranks_perm cards cards' :
  Permutation cards cards' -> two_ranks cards -> two_ranks cards'.
Proof.
  intros H (c1 & c2 & H1 & H2 & Hne). exists c1, c2.
  rewrite <- H. auto.
Qed.

Lemma three_ranks_perm cards cards' :
  Permutation cards cards' -> three_ranks cards -> three_ranks cards'.
Proof.
  intros H (c1 & c2 & c3 & H1 & H2 & H3 & Hne). exists c1, c2, c3.
  rewrite <- H. auto.
Qed.

(** Four of a kind: the four cards and a kicker, five cards. *)
Lemma four_of_a_kind_scan_length cards items l :
  (forall r n, (r, n) ∈ items -> n = rank_count r cards) ->
  four_of_a_kind_scan cards items = Ok (Some l) -> length l = 5%nat.
Proof.
  induction items as [|[r n] items IH]; intros Hit; simpl; [discriminate|].
  destruct (decide (n = 4%nat)) as [->|_].
  - destruct (py_next _) as [kicker|]; simpl; [|discriminate].
    intros H. injection H as <-. rewrite length_app. simpl.
    rewrite (Hit r 4%nat) at 1 by left. unfold rank_count.
    pose proof (Hit r 4%nat ltac:(left)) as E. unfold rank_count in E. lia.
  - apply IH. intros r' n' H. apply Hit. right. exact H.
Qed.

Lemma four_of_a_kind_scan_hit cards items :
  two_ranks cards -> (exists r, (r, 4%nat) ∈ items) ->
  exists l, four_of_a_kind_scan cards items = Ok (Some l).
Proof.
  intros H2 (r & Hr). induction items as [|[r0 n0] items IH]; simpl.
  - inversion Hr.
  - destruct (decide (n0 = 4%nat)) as [->|Hne].
    + destruct (not_of_rank r0 cards) as [|k ks] eqn:E.
      * exfalso. exact (not_of_rank_nonempty r0 cards H2 E).
      * simpl. eexists. reflexivity.
    + apply IH. apply elem_of_cons in Hr as [E|Hr]; [|exact Hr].
      injection E as _ <-. congruence.
Qed.

(** Three of a kind: three cards and up to two others. *)
Lemma three_of_a_kind_scan_Some cards items l :
  (forall r n, (r, n) ∈ items -> n = rank_count r cards) ->
  three_of_a_kind_scan cards items = Some l ->
  exists r, (3 <= rank_count r cards)%nat
    /\ l = take 3 (of_rank r cards) ++ take 2 (not_of_rank r cards).
Proof.
  induction items as [|[r n] items IH]; intros Hit; simpl; [discriminate|].
  destruct (bool_decide (3 <= n)%nat) eqn:E.
  - apply bool_decide_eq_true in E. intros H. injection H as <-.
    exists r. split; [|reflexivity]. rewrite <- (Hit r n) by left. exact E.
  - apply IH. intros r' n' H. apply Hit. right. exact H.
Qed.

Lemma three_of_a_kind_scan_hit cards items :
  (exists r n, (r, n) ∈ items /\ (3 <= n)%nat) ->
  is_Some (three_of_a_kind_scan cards items).
Proof.
  intros (r & n & Hr & Hn). induction items as [|[r0 n0] items IH]; simpl.
  - inversion Hr.
  - destruct (bool_decide (3 <= n0)%nat) eqn:E; [eexists; reflexivity|].
    apply bool_decide_eq_false in E. apply IH.
    apply elem_of_cons in Hr as [E'|Hr]; [|exact Hr].
    injection E' as _ <-. contradiction.
Qed.

(** A pair: two cards and up to three others. *)
Lemma pair_scan_Some cards items l :
  (forall r n, (r, n) ∈ items -> n = rank_count r cards) ->
  pair_scan cards items = Some l ->
  exists r, (2 <= rank_count r cards)%nat
    /\ l = take 2 (of_rank r cards) ++ take 3 (not_of_rank r cards).
Proof.
  induction items as [|[r n] items IH]; intros Hit; simpl; [discriminate|].
  destruct (bool_decide (2 <= n)%nat) eqn:E.
  - apply bool_decide_eq_true in E. intros H. injection H as <-.
    exists r. split; [|reflexivity]. rewrite <- (Hit r n) by left. exact E.
  - apply IH. intros r' n' H. apply Hit. right. exact H.
Qed.

Lemma pair_scan_hit cards items :
  (exists r n, (r, n) ∈ items /\ (2 <= n)%nat) ->
  is_Some (pair_scan cards items).
Proof.
  intros (r & n & Hr & Hn). induction items as [|[r0 n0] items IH]; simpl.
  - inversion Hr.
  - destruct (bool_decide (2 <= n0)%nat) eqn:E; [eexists; reflexivity|].
    apply bool_decide_eq_false in E. apply IH.
    apply elem_of_cons in Hr as [E'|Hr]; [|exact Hr].
    injection E' as _ <-. contradiction.
Qed.

Lemma kind_list_length (k m : nat) (r : Rank) (cards : list Card) :
  (k <= rank_count r cards)%nat ->
  length (take k (of_rank r cards) ++ take m (not_of_rank r cards))
  = (k + Nat.min m (length (not_of_rank r cards)))%nat.
Proof.
  intros H. unfold rank_count in H. rewrite length_app, !length_take. lia.
Qed.

(** Two pair: two cards of each of the first two paired ranks and a
    kicker, five cards. *)
Lemma _check_two_pair_length cards l :
  _check_two_pair cards = Ok (Some l) -> length l = 5%nat.
Proof.
  unfold _check_two_pair.
  destruct (map fst (filter _ (rank_counts cards))) as [|p0 [|p1 ps]] eqn:E;
    try discriminate.
  assert (Hp : forall p, p ∈ [p0; p1] -> (2 <= rank_count p cards)%nat).
  { intros p Hp.
    assert (Hin : p ∈ fst <$> filter (fun rc : Rank * nat => (2 <= rc.2)%nat)
                           (rank_counts cards)).
    { change (p ∈ map fst (filter (fun rc : Rank * nat => (2 <= rc.2)%nat)
                             (rank_counts cards))).
      rewrite E. apply elem_of_cons in Hp as [->|Hp]; [left|].
      apply elem_of_cons in Hp as [->|Hp]; [right; left|inversion Hp]. }
    apply list_elem_of_fmap in Hin as ([r n] & -> & Hin).
    apply list_elem_of_filter in Hin as [Hn Hin]. simpl in *.
    apply rank_counts_elem in Hin as [<- _]. exact Hn. }
  destruct (py_next _) as [kicker|]; simpl; [|discriminate].
  intros H. injection H as <-. rewrite !length_app, !length_take.
  cbn [length].
  pose proof (Hp p0 ltac:(left)) as H0.
  pose proof (Hp p1 ltac:(right; left)) as H1.
  unfold rank_count in *. lia.
Qed.

Lemma _check_two_pair_hit cards :
  (exists r1 r2, r1 <> r2 /\ (2 <= rank_count r1 cards)%nat
                 /\ (2 <= rank_count r2 cards)%nat) ->
  three_ranks cards ->
  exists l, _check_two_pair cards = Ok (Some l).
Proof.
  intros (r1 & r2 & Hne & H1 & H2) (c1 & c2 & c3 & Hc1 & Hc2 & Hc3 & N12 & N13 & N23).
  unfold _check_two_pair.
  set (F := filter (fun rc : Rank * nat => (2 <= rc.2)%nat) (rank_counts cards)).
  assert (Hin : forall r, (2 <= rank_count r cards)%nat ->
                          (r, rank_count r cards) ∈ F).
  { intros r Hr. apply list_elem_of_filter. split; [exact Hr|].
    apply rank_counts_has. lia. }
  pose proof (Hin r1 H1) as Hf1. pose proof (Hin r2 H2) as Hf2.
  destruct F as [|[p0 n0] [|[p1 n1] F']].
  - inversion Hf1.
  - apply list_elem_of_singleton in Hf1. apply list_elem_of_singleton in Hf2.
    congruence.
  - cbn [map fst].
    destruct (filter (fun c => rank c <> p0 /\ rank c <> p1) cards) as [|k ks] eqn:E.
    + exfalso.
      assert (Hall : forall c, c ∈ cards -> rank c = p0 \/ rank c = p1).
      { intros c Hc. destruct (decide (rank c = p0)) as [|N0]; [left; assumption|].
        destruct (decide (rank c = p1)) as [|N1]; [right; assumption|].
        exfalso. eapply filter_nil_not_elem_of; [exact E| |exact Hc].
        split; assumption. }
      destruct (Hall c1 Hc1), (Hall c2 Hc2), (Hall c3 Hc3); congruence.
    + simpl. eexists. reflexivity.
Qed.

(** A hand of at most four cards holds no straight. *)
Lemma _check_straight_short cards :
  (length cards <= 4)%nat -> _check_straight cards = None.
Proof.
  intros Hlen. unfold _check_straight.
  pose proof (sorted_ranks_length cards) as Hr.
  set (ranks := py_sorted _ (remove_dups (map rank cards))) in *.
  destruct (_ && _) eqn:Hw.
  - exfalso. rewrite !andb_true_iff in Hw.
    destruct Hw as ((((H1 & H2) & H3) & H4) & H5).
    apply bool_decide_eq_true in H1, H2, H3, H4, H5.
    assert (Hsub : [ACE; TWO; THREE; FOUR; FIVE] ⊆+ ranks).
    { apply NoDup_submseteq.
      - apply (bool_decide_unpack _). vm_compute. exact I.
      - intros x Hx. repeat (apply elem_of_cons in Hx as [->|Hx]; [assumption|]).
        inversion Hx. }
    apply submseteq_length in Hsub. simpl in Hsub. lia.
  - replace (length ranks - 4)%nat with 0%nat by lia. reflexivity.
Qed.

Lemma filter_eq_NoDup (x : Card) (l : list Card) :
  NoDup l -> (length (filter (fun c => c = x) l) <= 1)%nat.
Proof.
  induction 1 as [|c l Hc Hnd IH]; [simpl; lia|].
  rewrite filter_cons. destruct (decide (c = x)) as [->|_]; [|exact IH].
  rewrite (filter_none (fun c => c = x) l); [simpl; lia|].
  intros z Hz ->. contradiction.
Qed.

Lemma suited_length_bound (r : Rank) (σ : Suit) (l : list Card) :
  (length (filter (fun c => suit c = σ) l)
   <= length (filter (fun c => c = mkCard r σ) l) + length (not_of_rank r l))%nat.
Proof.
  unfold not_of_rank. induction l as [|c l IH]; [simpl; lia|].
  rewrite !filter_cons.
  destruct (decide (suit c = σ)) as [Es|Ns].
  - destruct (decide (rank c = r)) as [Er|Nr].
    + rewrite decide_True by (destruct c; simpl in *; congruence).
      rewrite decide_False by tauto. simpl. lia.
    + rewrite decide_False by (intros ->; simpl in Nr; congruence).
      rewrite decide_True by exact Nr. simpl. lia.
  - destruct (decide (c = mkCard r σ)) as [->|_]; [simpl in Ns; congruence|].
    destruct (decide (rank c <> r)); simpl; lia.
Qed.

(** With four cards of one rank among at most seven different cards, no
    suit has five cards, so the straight-flush test finds nothing. *)
Lemma no_straight_flush_with_quads (r : Rank) (cards : list Card) :
  NoDup cards -> (length cards <= 7)%nat -> rank_count r cards = 4%nat ->
  _check_straight_flush cards = None.
Proof.
  intros Hnd Hlen Hq.
  assert (Hsuit : forall σ,
            _check_straight
              (py_sorted (fun a b => rank_index (rank a) <? rank_index (rank b))
                         (filter (fun c => suit c = σ) cards)) = None).
  { intros σ. apply _check_straight_short.
    rewrite (Permutation_length (py_sorted_perm _ _)).
    pose proof (suited_length_bound r σ cards) as H1.
    pose proof (filter_eq_NoDup (mkCard r σ) cards Hnd) as H2.
    pose proof (rank_split r cards) as H3. unfold rank_count in Hq. lia. }
  unfold _check_straight_flush, all_suits. simpl.
  rewrite !Hsuit. reflexivity.
Qed.

Lemma rank_counts_exact cards r n :
  (r, n) ∈ rank_counts cards -> n = rank_count r cards.
Proof. intros H. apply rank_counts_elem in H as [H _]. exact H. Qed.

Lemma sorted_cards_perm cards : Permutation (py_sorted_rev card_lt cards) cards.
Proof. apply py_sorted_rev_perm. Qed.

Lemma four_of_a_kind_degrades cards :
  _check_straight_flush (py_sorted_rev card_lt cards) = None ->
  (exists r, rank_count r cards = 4%nat) -> two_ranks cards ->
  _evaluate_cards cards = Ok (high_card_of (py_sorted_rev card_lt cards)).
Proof.
  intros Hsf (r & Hr) H2. unfold _evaluate_cards.
  set (s := py_sorted_rev card_lt cards) in *.
  pose proof (sorted_cards_perm cards) as Hp. fold s in Hp.
  rewrite Hsf.
  destruct (four_of_a_kind_scan_hit s (rank_counts s)) as [l Hl].
  { eapply two_ranks_perm; [symmetry; exact Hp|exact H2]. }
  { exists r. rewrite <- Hr, (rank_count_perm r cards s) by (symmetry; exact Hp).
    apply rank_counts_has. rewrite (rank_count_perm r s cards Hp). lia. }
  pose proof (four_of_a_kind_scan_length s _ l (rank_counts_exact s) Hl) as Hlen.
  unfold _check_four_of_a_kind. rewrite Hl. cbn [rbind].
  destruct l as [|c l]; [discriminate|].
  destruct (decide (length (c :: l) = 4%nat)); [lia|reflexivity].
Qed.

Lemma three_of_a_kind_degrades cards :
  _check_straight_flush (py_sorted_rev card_lt cards) = None ->
  _check_four_of_a_kind (py_sorted_rev card_lt cards) = Ok None ->
  _check_full_house (py_sorted_rev card_lt cards) = None ->
  _check_flush (py_sorted_rev card_lt cards) = None ->
  _check_straight (py_sorted_rev card_lt cards) = None ->
  (exists r, (3 <= rank_count r cards)%nat) -> two_ranks cards ->
  _evaluate_cards cards = Ok (high_card_of (py_sorted_rev card_lt cards)).
Proof.
  intros Hsf H4 Hfh Hfl Hst (r & Hr) H2. unfold _evaluate_cards.
  set (s := py_sorted_rev card_lt cards) in *.
  pose proof (sorted_cards_perm cards) as Hp. fold s in Hp.
  rewrite Hsf, H4. cbn [rbind]. rewrite Hfh, Hfl, Hst.
  rewrite (rank_count_perm r cards s) in Hr by (symmetry; exact Hp).
  destruct (three_of_a_kind_scan_hit s (rank_counts s)) as [l Hl].
  { exists r, (rank_count r s). split; [apply rank_counts_has; lia|exact Hr]. }
  destruct (three_of_a_kind_scan_Some s _ l (rank_counts_exact s) Hl)
    as (r' & Hr' & El).
  pose proof (kind_list_length 3 2 r' s Hr') as Hlen. rewrite <- El in Hlen.
  assert (Hne : not_of_rank r' s <> []).
  { apply not_of_rank_nonempty. eapply two_ranks_perm; [symmetry; exact Hp|exact H2]. }
  unfold _check_three_of_a_kind. rewrite Hl.
  destruct l as [|c l]; [simpl in Hlen; lia|].
  destruct (decide (length (c :: l) = 3%nat)) as [E3|]; [|reflexivity].
  destruct (not_of_rank r' s); [congruence|]. cbn [length] in *. lia.
Qed.

Lemma two_pair_degrades cards :
  _check_straight_flush (py_sorted_rev card_lt cards) = None ->
  _check_four_of_a_kind (py_sorted_rev card_lt cards) = Ok None ->
  _check_full_house (py_sorted_rev card_lt cards) = None ->
  _check_flush (py_sorted_rev card_lt cards) = None ->
  _check_straight (py_sorted_rev card_lt cards) = None ->
  _check_three_of_a_kind (py_sorted_rev card_lt cards) = None ->
  (exists r1 r2, r1 <> r2 /\ (2 <= rank_count r1 cards)%nat
                 /\ (2 <= rank_count r2 cards)%nat) ->
  three_ranks cards ->
  _evaluate_cards cards = Ok (high_card_of (py_sorted_rev card_lt cards)).
Proof.
  intros Hsf H4 Hfh Hfl Hst H3 (r1 & r2 & Hne & Hr1 & Hr2) Hthree.
  unfold _evaluate_cards.
  set (s := py_sorted_rev card_lt cards) in *.
  pose proof (sorted_cards_perm cards) as Hp. fold s in Hp.
  rewrite Hsf, H4. cbn [rbind]. rewrite Hfh, Hfl, Hst, H3.
  rewrite (rank_count_perm r1 cards s) in Hr1 by (symmetry; exact Hp).
  rewrite (rank_count_perm r2 cards s) in Hr2 by (symmetry; exact Hp).
  destruct (_check_two_pair_hit s) as [l Hl].
  { exists r1, r2. auto. }
  { eapply three_ranks_perm; [symmetry; exact Hp|exact Hthree]. }
  pose proof (_check_two_pair_length s l Hl) as Hlen.
  rewrite Hl. cbn [rbind].
  destruct l as [|c l]; [discriminate|].
  destruct (decide (length (c :: l) = 4%nat)); [lia|reflexivity].
Qed.

Lemma pair_degrades cards :
  _check_straight_flush (py_sorted_rev card_lt cards) = None ->
  _check_four_of_a_kind (py_sorted_rev card_lt cards) = Ok None ->
  _check_full_house (py_sorted_rev card_lt cards) = None ->
  _check_flush (py_sorted_rev card_lt cards) = None ->
  _check_straight (py_sorted_rev card_lt cards) = None ->
  _check_three_of_a_kind (py_sorted_rev card_lt cards) = None ->
  _check_two_pair (py_sorted_rev card_lt cards) = Ok None ->
  (exists r, (2 <= rank_count r cards)%nat) -> two_ranks cards ->
  _evaluate_cards cards = Ok (high_card_of (py_sorted_rev card_lt cards)).
Proof.
  intros Hsf H4 Hfh Hfl Hst H3 Htp (r & Hr) H2. unfold _evaluate_cards.
  set (s := py_sorted_rev card_lt cards) in *.
  pose proof (sorted_cards_perm cards) as Hp. fold s in Hp.
  rewrite Hsf, H4. cbn [rbind]. rewrite Hfh, Hfl, Hst, H3, Htp. cbn [rbind].
  rewrite (rank_count_perm r cards s) in Hr by (symmetry; exact Hp).
  destruct (pair_scan_hit s (rank_counts s)) as [l Hl].
  { exists r, (rank_count r s). split; [apply rank_counts_has; lia|exact Hr]. }
  destruct (pair_scan_Some s _ l (rank_counts_exact s) Hl) as (r' & Hr' & El).
  pose proof (kind_list_length 2 3 r' s Hr') as Hlen. rewrite <- El in Hlen.
  assert (Hne : not_of_rank r' s <> []).
  { apply not_of_rank_nonempty. eapply two_ranks_perm; [symmetry; exact Hp|exact H2]. }
  unfold _check_pair. rewrite Hl.
  destruct l as [|c l]; [simpl in Hlen; lia|].
  destruct (decide (length (c :: l) = 2%nat)) as [E2|]; [|reflexivity].
  destruct (not_of_rank r' s); [congruence|]. cbn [length] in *. lia.
Qed.

Lemma quads_in_a_card_set_degrade cards :
  NoDup cards -> (5 <= length cards <= 7)%nat ->
  (exists r, rank_count r cards = 4%nat) ->
  _evaluate_cards cards = Ok (high_card_of (py_sorted_rev card_lt cards)).
Proof.
  intros Hnd Hlen (r & Hr).
  pose proof (sorted_cards_perm cards) as Hp.
  apply four_of_a_kind_degrades.
  - apply (no_straight_flush_with_quads r).
    + rewrite Hp. exact Hnd.
    + rewrite (Permutation_length Hp). lia.
    + rewrite (rank_count_perm r _ _ Hp). exact Hr.
  - exists r. exact Hr.
  - pose proof (rank_split r cards) as Hs. unfold rank_count in Hr.
    destruct (of_rank r cards) as [|c1 l1] eqn:E1; [simpl in Hr; lia|].
    destruct (not_of_rank r cards) as [|c2 l2] eqn:E2; [simpl in *; lia|].
    assert (H1 : c1 ∈ of_rank r cards) by (rewrite E1; left).
    assert (H2 : c2 ∈ not_of_rank r cards) by (rewrite E2; left).
    apply list_elem_of_filter in H1 as [R1 H1].
    apply list_elem_of_filter in H2 as [R2 H2].
    exists c1, c2. split; [exact H1|]. split; [exact H2|]. congruence.
Qed.

Lemma intended_rank_not_returned cards h :
  _evaluate_cards cards = Ok h ->
  HandStrength.rank h <> FOUR_OF_A_KIND
  /\ HandStrength.rank h <> TWO_PAIR
  /\ (HandStrength.rank h = THREE_OF_A_KIND \/ HandStrength.rank h = PAIR ->
      ~ two_ranks cards).
Proof.
  intros H.
  set (s := py_sorted_rev card_lt cards).
  pose proof (sorted_cards_perm cards) as Hp. fold s in Hp.
  destruct (_evaluate_cards_category cards h H)
    as [E|[E|[E|[(l & Hd & Hl & E)|[E|[E|[E|[(l & Hd & Hl & E)|[(l & Hd & Hl & E)
       |(l & Hd & Hl & E)]]]]]]]]];
    rewrite E; try fold s in Hd.
  1-3, 5-7: (split; [discriminate|split; [discriminate|intros [?|?]; discriminate]]).
  - exfalso.
    pose proof (four_of_a_kind_scan_length s _ l (rank_counts_exact s) Hd). lia.
  - split; [discriminate|]. split; [discriminate|]. intros _ H2.
    destruct (three_of_a_kind_scan_Some s _ l (rank_counts_exact s) Hd)
      as (r' & Hr' & El).
    pose proof (kind_list_length 3 2 r' s Hr') as Hlen. rewrite <- El in Hlen.
    assert (Hne : not_of_rank r' s <> []).
    { apply not_of_rank_nonempty. eapply two_ranks_perm; [symmetry; exact Hp|exact H2]. }
    destruct (not_of_rank r' s); [congruence|]. cbn [length] in *. lia.
  - exfalso. pose proof (_check_two_pair_length s l Hd). lia.
  - split; [discriminate|]. split; [discriminate|]. intros _ H2.
    destruct (pair_scan_Some s _ l (rank_counts_exact s) Hd) as (r' & Hr' & El).
    pose proof (kind_list_length 2 3 r' s Hr') as Hlen. rewrite <- El in Hlen.
    assert (Hne : not_of_rank r' s <> []).
    { apply not_of_rank_nonempty. eapply two_ranks_perm; [symmetry; exact Hp|exact H2]. }
    destruct (not_of_rank r' s); [congruence|]. cbn [length] in *. lia.
Qed.

(** C1. Whenever the evaluation reaches the four-of-a-kind, three-of-a-kind,
    two-pair or pair detector, the hand holds that combination, and there
    are cards beyond it (a card of another rank; for two pair, a third
    rank), the detector returns more cards than the caller accepts and the
    result is the [HIGH_CARD] value of the five highest cards.  So
    [FOUR_OF_A_KIND] and [TWO_PAIR] are never returned, [THREE_OF_A_KIND]
    and [PAIR] only when all cards have one rank; in particular every set of
    five to seven different cards with four cards of one rank is
    classified [HIGH_CARD]. *)
Theorem kind_categories_degrade_to_high_card (cards : list Card) :
  let sorted_cards := py_sorted_rev card_lt cards in
  (_check_straight_flush sorted_cards = None ->
   (exists r, rank_count r cards = 4%nat) -> two_ranks cards ->
   _evaluate_cards cards = Ok (high_card_of sorted_cards))
  /\ (_check_straight_flush sorted_cards = None ->
      _check_four_of_a_kind sorted_cards = Ok None ->
      _check_full_house sorted_cards = None ->
      _check_flush sorted_cards = None ->
      _check_straight sorted_cards = None ->
      (exists r, (3 <= rank_count r cards)%nat) -> two_ranks cards ->
      _evaluate_cards cards = Ok (high_card_of sorted_cards))
  /\ (_check_straight_flush sorted_cards = None ->
      _check_four_of_a_kind sorted_cards = Ok None ->
      _check_full_house sorted_cards = None ->
      _check_flush sorted_cards = None ->
      _check_straight sorted_cards = None ->
      _check_three_of_a_kind sorted_cards = None ->
      (exists r1 r2, r1 <> r2 /\ (2 <= rank_count r1 cards)%nat
                     /\ (2 <= rank_count r2 cards)%nat) ->
      three_ranks cards ->
      _evaluate_cards cards = Ok (high_card_of sorted_cards))
  /\ (_check_straight_flush sorted_cards = None ->
      _check_four_of_a_kind sorted_cards = Ok None ->
      _check_full_house sorted_cards = None ->
      _check_flush sorted_cards = None ->
      _check_straight sorted_cards = None ->
      _check_three_of_a_kind sorted_cards = None ->
      _check_two_pair sorted_cards = Ok None ->
      (exists r, (2 <= rank_count r cards)%nat) -> two_ranks cards ->
      _evaluate_cards cards = Ok (high_card_of sorted_cards))
  /\ (forall h, _evaluate_cards cards = Ok h ->
        HandStrength.rank h <> FOUR_OF_A_KIND
        /\ HandStrength.rank h <> TWO_PAIR
        /\ (HandStrength.rank h = THREE_OF_A_KIND \/ HandStrength.rank h = PAIR ->
            ~ two_ranks cards))
  /\ (NoDup cards -> (5 <= length cards <= 7)%nat ->
      (exists r, rank_count r cards = 4%nat) ->
      _evaluate_cards cards = Ok (high_card_of sorted_cards)
      /\ HandStrength.rank (high_card_of sorted_cards) = HIGH_CARD).
Proof.
  intros sorted_cards. unfold sorted_cards.
  split; [apply four_of_a_kind_degrades|].
  split; [apply three_of_a_kind_degrades|].
  split; [apply two_pair_degrades|].
  split; [apply pair_degrades|].
  split; [apply intended_rank_not_returned|].
  intros Hnd Hlen Hq. split; [|reflexivity].
  apply quads_in_a_card_set_degrade; assumption.
Qed.

Lemma kind_categories_degrade_to_high_card_witness :
  let quads := [mkCard TEN HEARTS; mkCard ACE HEARTS; mkCard TEN SPADES;
                mkCard TWO CLUBS; mkCard TEN CLUBS; mkCard NINE HEARTS;
                mkCard TEN DIAMONDS] in
  let one_pair := [mkCard KING HEARTS; mkCard FOUR CLUBS; mkCard KING SPADES;
                   mkCard NINE DIAMONDS; mkCard TWO HEARTS] in
  (NoDup quads /\ (5 <= length quads <= 7)%nat
   /\ rank_count TEN quads = 4%nat
   /\ _evaluate_cards quads
      = Ok (HandStrength.mk HIGH_CARD [12; 8; 8; 8; 8]))
  /\ (rank_count KING one_pair = 2%nat /\ two_ranks one_pair
      /\ _evaluate_cards one_pair
         = Ok (HandStrength.mk HIGH_CARD [11; 11; 7; 2; 0])).
Proof.
  intros quads one_pair.
  assert (Hnd : NoDup quads) by (apply (bool_decide_unpack _); vm_compute; exact I).
  assert (Hlen : (5 <= length quads <= 7)%nat) by (simpl; lia).
  assert (H2 : two_ranks one_pair).
  { exists (mkCard KING HEARTS), (mkCard FOUR CLUBS).
    split; [left|]. split; [right; left|]. discriminate. }
  split.
  - split; [exact Hnd|]. split; [exact Hlen|]. split; [reflexivity|].
    pose proof (kind_categories_degrade_to_high_card quads)
      as (_ & _ & _ & _ & _ & HF).
    exact (proj1 (HF Hnd Hlen (ex_intro _ TEN eq_refl))).
  - split; [reflexivity|]. split; [exact H2|].
    pose proof (kind_categories_degrade_to_high_card one_pair)
      as (_ & _ & _ & HP & _).
    exact (HP eq_refl eq_refl eq_refl eq_refl eq_refl eq_refl eq_refl
              (ex_intro _ KING (le_n 2)) H2).
Defined.

(** ** The evaluator raises no exception on five cards or more *)

Lemma four_of_a_kind_scan_total cards items :
  (5 <= length cards)%nat ->
  (forall r n, (r, n) ∈ items -> n = rank_count r cards) ->
  exists o, four_of_a_kind_scan cards items = Ok o.
Proof.
  intros Hlen. induction items as [|[r n] items IH]; intros Hit; simpl.
  - eexists. reflexivity.
  - destruct (decide (n = 4%nat)) as [->|_].
    + pose proof (Hit r 4%nat ltac:(left)) as E. unfold rank_count in E.
      pose proof (rank_split r cards) as Hs.
      destruct (not_of_rank r cards) as [|k ks]; [simpl in Hs; lia|].
      simpl. eexists. reflexivity.
    + apply IH. intros r' n' H. apply Hit. right. exact H.
Qed.

Lemma three_of_a_kind_scan_None cards items r n :
  three_of_a_kind_scan cards items = None -> (r, n) ∈ items -> (n <= 2)%nat.
Proof.
  induction items as [|[r0 n0] items IH]; simpl; intros H Hin.
  - inversion Hin.
  - destruct (bool_decide (3 <= n0)%nat) eqn:E; [discriminate|].
    apply bool_decide_eq_false in E.
    apply elem_of_cons in Hin as [Heq|Hin]; [injection Heq as -> ->; lia|].
    apply IH; assumption.
Qed.

Lemma three_of_a_kind_scan_nonempty cards items :
  (forall r n, (r, n) ∈ items -> n = rank_count r cards) ->
  three_of_a_kind_scan cards items <> Some [].
Proof.
  intros Hit H.
  destruct (three_of_a_kind_scan_Some cards items [] Hit H) as (r & Hr & E).
  pose proof (kind_list_length 3 2 r cards Hr) as Hl. rewrite <- E in Hl.
  simpl in Hl. lia.
Qed.

(** The cards split into those of rank [p0], those of rank [p1] and the
    others. *)
Lemma two_rank_split (p0 p1 : Rank) (cards : list Card) :
  p0 <> p1 ->
  (length (of_rank p0 cards) + length (of_rank p1 cards)
   + length (filter (fun c => rank c <> p0 /\ rank c <> p1) cards)
   = length cards)%nat.
Proof.
  intros Hne. unfold of_rank. induction cards as [|c cards IH]; [reflexivity|].
  rewrite !filter_cons.
  destruct (decide (rank c = p0)) as [E0|N0], (decide (rank c = p1)) as [E1|N1].
  - congruence.
  - rewrite decide_False by tauto. simpl. lia.
  - rewrite decide_False by tauto. simpl. lia.
  - rewrite decide_True by tauto. simpl. lia.
Qed.

Lemma _check_two_pair_total cards :
  (5 <= length cards)%nat ->
  (forall r n, (r, n) ∈ rank_counts cards -> (n <= 2)%nat) ->
  exists o, _check_two_pair cards = Ok o.
Proof.
  intros Hlen Hsmall. unfold _check_two_pair.
  destruct (rank_counts_spec cards) as [Hnd _].
  set (F := filter (fun rc : Rank * nat => (2 <= rc.2)%nat) (rank_counts cards)).
  assert (HF : forall rc, rc ∈ F -> rc ∈ rank_counts cards).
  { intros rc H. apply list_elem_of_filter in H as [_ H]. exact H. }
  assert (HndF : NoDup (map fst F)).
  { eapply sublist_NoDup; [exact Hnd|].
    change (map fst ?l) with (fst <$> l). apply fmap_sublist, sublist_filter. }
  destruct F as [|[p0 n0] [|[p1 n1] F']]; try (eexists; reflexivity).
  cbn [map fst] in *.
  assert (Hne : p0 <> p1).
  { apply NoDup_cons in HndF as [H _]. intros ->. apply H. left. }
  pose proof (HF (p0, n0) ltac:(left)) as H0.
  pose proof (HF (p1, n1) ltac:(right; left)) as H1.
  pose proof (Hsmall _ _ H0) as S0. pose proof (Hsmall _ _ H1) as S1.
  apply rank_counts_exact in H0, H1. unfold rank_count in H0, H1.
  pose proof (two_rank_split p0 p1 cards Hne) as Hs.
  destruct (filter (fun c => rank c <> p0 /\ rank c <> p1) cards) as [|k ks];
    [simpl in Hs; lia|].
  simpl. eexists. reflexivity.
Qed.

Ltac total_test t :=
  destruct t as [[|? ?]|];
  [ | destruct (decide _); eexists; reflexivity | ].

Lemma _evaluate_cards_total (cards : list Card) :
  (5 <= length cards)%nat -> exists h, _evaluate_cards cards = Ok h.
Proof.
  intros Hlen. unfold _evaluate_cards.
  set (s := py_sorted_rev card_lt cards).
  assert (Hs : (5 <= length s)%nat).
  { unfold s. rewrite (Permutation_length (sorted_cards_perm cards)). exact Hlen. }
  destruct (four_of_a_kind_scan_total s (rank_counts s) Hs (rank_counts_exact s))
    as [o4 H4].
  destruct (_check_straight_flush s) as [[|c l]|].
  2:{ destruct (decide _); [destruct (decide _)|]; eexists; reflexivity. }
  all: unfold _check_four_of_a_kind; rewrite H4; cbn [rbind].
  all: destruct o4 as [[|c4 l4]|];
    [ | destruct (decide _); eexists; reflexivity | ].
  all: total_test (_check_full_house s).
  all: total_test (_check_flush s).
  all: total_test (_check_straight s).
  all: destruct (_check_three_of_a_kind s) as [[|c3 l3]|] eqn:H3;
    [ exfalso; exact (three_of_a_kind_scan_nonempty s _ (rank_counts_exact s) H3)
    | destruct (decide _); eexists; reflexivity | ].
  all: destruct (_check_two_pair_total s Hs) as [o2 H2];
    [ intros r n Hin; exact (three_of_a_kind_scan_None s _ r n H3 Hin) | ].
  all: rewrite H2; cbn [rbind].
  all: destruct o2 as [[|c2 l2]|];
    [ | destruct (decide _); eexists; reflexivity | ].
  all: total_test (_check_pair s).
  all: eexists; reflexivity.
Qed.

(** ** The evaluator never reports a royal flush *)

Ltac evaluator_leaf :=
  let H := fresh "H" in
  intros H; inversion H; discriminate.

(** Case analysis on one category test of [_evaluate_cards] that cannot
    produce the rank in question: only its fall-through cases remain. *)
Ltac evaluator_skip t :=
  destruct t as [[|? ?]|];
  [ | destruct (decide _); evaluator_leaf | ].

Ltac evaluator_skip_res t :=
  destruct t as [[[|? ?]|]|?]; cbn [rbind];
  [ | destruct (decide _); evaluator_leaf | | evaluator_leaf ].

Lemma _evaluate_cards_not_royal (cards : list Card) (h : HandStrength.t) :
  _evaluate_cards cards = Ok h -> HandStrength.rank h <> ROYAL_FLUSH.
Proof.
  unfold _evaluate_cards.
  set (s := py_sorted_rev card_lt cards).
  destruct (_check_straight_flush s) as [[|c l]|] eqn:Hsf.
  2:{ apply straight_flush_scan_head in Hsf.
      destruct (decide (length (c :: l) = 5%nat)); [|evaluator_leaf].
      destruct (decide (rank c = ACE)); [contradiction|evaluator_leaf]. }
  all: evaluator_skip_res (_check_four_of_a_kind s).
  all: evaluator_skip (_check_full_house s).
  all: evaluator_skip (_check_flush s).
  all: evaluator_skip (_check_straight s).
  all: evaluator_skip (_check_three_of_a_kind s).
  all: evaluator_skip_res (_check_two_pair s).
  all: evaluator_skip (_check_pair s).
  all: evaluator_leaf.
Qed.

Lemma royal_check : royal_on_ten_check = true.
Proof. vm_compute. reflexivity. Qed.

(** C5 (a defect of the code).  A suited Ten-to-Ace is not classified
    [ROYAL_FLUSH].  [_evaluate_cards] tests the first card of the list
    returned by the straight-flush detector against the Ace, but that list
    is sorted upwards and its first card is the lowest of the straight.  So
    the five cards Ten to Ace of one suit, in any order, are classified
    [STRAIGHT_FLUSH] with the index of the Ten, and no input of five or more
    cards, of which every one is evaluated, is classified [ROYAL_FLUSH]. *)
Theorem royal_flush_never_returned :
  (forall (s : Suit) (royal : list Card),
     Permutation royal
       [mkCard TEN s; mkCard JACK s; mkCard QUEEN s; mkCard KING s; mkCard ACE s] ->
     _evaluate_cards royal
     = Ok (HandStrength.mk STRAIGHT_FLUSH [rank_index TEN]))
  /\ (forall cards h,
        _evaluate_cards cards = Ok h -> HandStrength.rank h <> ROYAL_FLUSH)
  /\ (forall cards, (5 <= length cards)%nat ->
        exists h, _evaluate_cards cards = Ok h
                  /\ HandStrength.rank h <> ROYAL_FLUSH).
Proof.
  split; [|split].
  - intros s royal Hp. pose proof royal_check as Hc.
    unfold royal_on_ten_check in Hc. apply (for_all_suits_elim _ s) in Hc.
    rewrite forallb_forall in Hc. eapply bool_decide_eq_true_1. apply Hc.
    apply list_elem_of_In, permutations_Permutation. symmetry. exact Hp.
  - exact _evaluate_cards_not_royal.
  - intros cards Hlen. destruct (_evaluate_cards_total cards Hlen) as [h Hh].
    exists h. split; [exact Hh|]. exact (_evaluate_cards_not_royal cards h Hh).
Qed.

Lemma royal_flush_never_returned_witness :
  let royal := [mkCard ACE SPADES; mkCard TEN SPADES; mkCard JACK SPADES;
                mkCard QUEEN SPADES; mkCard KING SPADES] in
  let with_board := royal ++ [mkCard NINE SPADES; mkCard TWO HEARTS] in
  _evaluate_cards royal = Ok (HandStrength.mk STRAIGHT_FLUSH [rank_index TEN])
  /\ (5 <= length with_board)%nat
  /\ exists h, _evaluate_cards with_board = Ok h
               /\ HandStrength.rank h <> ROYAL_FLUSH.
Proof.
  intros royal with_board.
  assert (Hp : Permutation royal
            [mkCard TEN SPADES; mkCard JACK SPADES; mkCard QUEEN SPADES;
             mkCard KING SPADES; mkCard ACE SPADES]).
  { apply (Permutation_cons_app [_; _; _; _] []). reflexivity. }
  assert (Hlen : (5 <= length with_board)%nat) by (simpl; lia).
  split; [exact (proj1 royal_flush_never_returned SPADES royal Hp)|].
  split; [exact Hlen|].
  exact (proj2 (proj2 royal_flush_never_returned) with_board Hlen).
Defined.

(** ** The decision policy *)

Lemma Qltb_true a b : Qltb a b = true <-> (a < b)%Q.
Proof.
  unfold Qltb. rewrite negb_true_iff. split.
  - intros H. apply Qnot_le_lt. intros Hle.
    apply Qle_bool_iff in Hle. congruence.
  - intros H. destruct (Qle_bool b a) eqn:E; [|reflexivity].
    apply Qle_bool_iff in E. exfalso. exact (Qlt_not_le _ _ H E).
Qed.

Lemma Qltb_false a b : Qltb a b = false <-> (b <= a)%Q.
Proof.
  unfold Qltb. rewrite negb_false_iff. apply Qle_bool_iff.
Qed.

Lemma py_min_le_r a b : (py_min a b <= b)%Q.
Proof.
  unfold py_min. destruct (Qltb b a) eqn:E.
  - apply Qle_refl.
  - apply Qltb_false in E. exact E.
Qed.

Ltac decision_case :=
  match goal with
  | |- context [if Qeq_bool ?a ?b then _ else _] =>
      let E := fresh "E" in destruct (Qeq_bool a b) eqn:E
  | |- context [if Qleb ?a ?b then _ else _] =>
      let E := fresh "E" in destruct (Qleb a b) eqn:E
  | |- context [if ?b then _ else _] =>
      let E := fresh "E" in destruct b eqn:E
  end.

Ltac decision_leaf Hcall :=
  first
    [ left; split; [reflexivity|simpl; reflexivity]
    | right; right; split; [reflexivity|simpl; apply py_min_le_r]
    | right; left; split; [reflexivity|]; simpl; split;
      [ first [reflexivity | symmetry; apply Qeq_bool_iff; assumption]
      | first [ exact Hcall
              | match goal with
                | E : Qeq_bool _ _ = true |- _ =>
                    apply Qeq_bool_iff in E; rewrite <- E; exact Hcall
                end ] ] ].

Lemma _preflop_strategy_shape p to_call pot late :
  (to_call <= Player.stack p)%Q ->
  decision_shape (Player.stack p) to_call (Player._preflop_strategy p to_call pot late).
Proof.
  intros Hcall. unfold Player._preflop_strategy, decision_shape.
  repeat decision_case; decision_leaf Hcall.
Qed.

Lemma _postflop_strategy_shape p h to_call pot late :
  (to_call <= Player.stack p)%Q ->
  decision_shape (Player.stack p) to_call
    (Player._postflop_strategy p h to_call pot late).
Proof.
  intros Hcall. unfold Player._postflop_strategy, decision_shape.
  repeat decision_case; decision_leaf Hcall.
Qed.

(** With two hole cards, and no community cards or at least three of them
    (as [play_hand] deals them), the policy returns a decision. *)
Lemma make_decision_total (p : Player.t) (to_call pot : Q) (community_cards : list Card) :
  length (Player.hole_cards p) = 2%nat ->
  (community_cards = [] \/ (3 <= length community_cards)%nat) ->
  exists d, Player.make_decision p to_call pot community_cards = Ok d.
Proof.
  intros Hh Hc. unfold Player.make_decision.
  destruct (Qltb _ _); [eexists; reflexivity|].
  assert (He : exists h, Player.evaluate_hand p community_cards = Ok h).
  { unfold Player.evaluate_hand.
    destruct community_cards as [|c cc].
    - destruct (Player.hole_cards p) as [|c0 [|c1 [|c2 l]]]; try discriminate.
      cbn [map].
      change (py_index [rank c0; rank c1] 0) with (Ok (rank c0)).
      change (py_index [rank c0; rank c1] 1) with (Ok (rank c1)).
      cbn [rbind].
      repeat match goal with
             | |- context [if ?b then _ else _] => destruct b
             end; eexists; reflexivity.
    - apply _evaluate_cards_total. rewrite length_app.
      destruct Hc as [Hc|Hc]; [discriminate|]. lia. }
  destruct He as [h ->]. cbn [rbind].
  destruct community_cards; eexists; reflexivity.
Qed.

(** C7, as the code has it.  A call that exceeds the stack is answered by
    [("fold", 0.0)].  Otherwise a returned decision is a fold with amount 0,
    a call of exactly [to_call], or a raise; the amount of a call or raise
    never exceeds the stack, and the amount 0 of a fold does not exceed it
    as soon as the stack is not negative.  A decision is returned whenever
    the player holds two cards and the board is empty or has at least three
    cards. *)
Theorem make_decision_bounded
    (p : Player.t) (to_call pot : Q) (community_cards : list Card) :
  ((Player.stack p < to_call)%Q ->
     Player.make_decision p to_call pot community_cards = Ok ("fold", 0%Q))
  /\ (forall action amount,
        ~ (Player.stack p < to_call)%Q ->
        Player.make_decision p to_call pot community_cards = Ok (action, amount) ->
        ((action = "fold" /\ amount == 0)
         \/ (action = "call" /\ amount == to_call)
         \/ action = "raise")%Q)
  /\ (forall action amount,
        Player.make_decision p to_call pot community_cards = Ok (action, amount) ->
        (action <> "fold" \/ 0 <= Player.stack p)%Q ->
        (amount <= Player.stack p)%Q)
  /\ (length (Player.hole_cards p) = 2%nat ->
      community_cards = [] \/ (3 <= length community_cards)%nat ->
      exists d, Player.make_decision p to_call pot community_cards = Ok d).
Proof.
  assert (Hshape : forall d,
    ~ (Player.stack p < to_call)%Q ->
    Player.make_decision p to_call pot community_cards = Ok d ->
    decision_shape (Player.stack p) to_call d).
  { intros d Hnlt H. apply Qnot_lt_le in Hnlt.
    unfold Player.make_decision in H.
    destruct (Qltb (Player.stack p) to_call) eqn:E.
    { apply Qltb_true in E. exfalso. exact (Qlt_not_le _ _ E Hnlt). }
    destruct (Player.evaluate_hand p community_cards) as [h|e]; simpl in H;
      [|discriminate].
    destruct community_cards; injection H as <-.
    - apply _preflop_strategy_shape. exact Hnlt.
    - apply _postflop_strategy_shape. exact Hnlt. }
  split; [|split; [|split]]; [| | |apply make_decision_total].
  - intros Hlt. unfold Player.make_decision.
    apply Qltb_true in Hlt. rewrite Hlt. reflexivity.
  - intros action amount Hnlt H.
    destruct (Hshape _ Hnlt H) as [[? ?]|[(? & ? & ?)|[? ?]]]; simpl in *; auto.
  - intros action amount H Hside.
    destruct (Qlt_le_dec (Player.stack p) to_call) as [Hlt|Hle].
    + unfold Player.make_decision in H. apply Qltb_true in Hlt.
      rewrite Hlt in H. injection H as <- <-.
      destruct Hside as [Hne|Hpos]; [congruence|exact Hpos].
    + apply Qle_not_lt in Hle.
      destruct (Hshape _ Hle H) as [[Ha Hz]|[(? & ? & ?)|[? ?]]]; simpl in *; auto.
      destruct Hside as [Hne|Hpos]; [congruence|].
      rewrite Hz. exact Hpos.
Qed.

(** The big blind of 10 posted from a stack of 3 leaves a stack of -7; the
    player's next decision, with nothing to call, is a fold whose amount 0
    exceeds that stack. *)
Lemma make_decision_amount_exceeds_negative_stack :
  let p := Player.mk "Player 3" (-7) [mkCard TWO HEARTS; mkCard SEVEN CLUBS]
             10 true "BB" (-1) false 6 in
  ~ (forall action amount,
       Player.make_decision p 0 15 [] = Ok (action, amount) ->
       (amount <= Player.stack p)%Q).
Proof.
  intros p H.
  assert (E : Player.make_decision p 0 15 [] = Ok ("fold", 0%Q)) by reflexivity.
  specialize (H _ _ E). simpl in H.
  apply Qle_bool_iff in H. discriminate H.
Qed.

Lemma make_decision_bounded_witness :
  let p := Player.mk "Player 1" 1000 [mkCard ACE HEARTS; mkCard ACE CLUBS]
             0 true "CO" (-1) false 6 in
  ((Player.stack p < 2000)%Q /\
     Player.make_decision p 2000 15 [] = Ok ("fold", 0%Q))
  /\ (~ (Player.stack p < 0)%Q /\
      Player.make_decision p 0 15 [] = Ok ("raise", (15 * (3 # 4))%Q) /\
      ((15 * (3 # 4))%Q <= Player.stack p)%Q).
Proof.
  intros p.
  assert (H1 : (Player.stack p < 2000)%Q) by reflexivity.
  assert (H2 : ~ (Player.stack p < 0)%Q) by (intros H; discriminate H).
  assert (E : Player.make_decision p 0 15 [] = Ok ("raise", (15 * (3 # 4))%Q))
    by reflexivity.
  split; [split; [exact H1|]|split; [exact H2|split; [exact E|]]].
  - exact (proj1 (make_decision_bounded p 2000 15 []) H1).
  - refine (proj1 (proj2 (proj2 (make_decision_bounded p 0 15 []))) _ _ E _).
    left. discriminate.
Defined.

(** ** Seat labels *)

Lemma py_index_lookup {A} (l : list A) (i : Z) :
  0 <= i < Z.of_nat (length l) ->
  exists a, l !! Z.to_nat i = Some a /\ py_index l i = Ok a.
Proof.
  intros Hi. unfold py_index.
  destruct (i <? 0) eqn:E1; [apply Z.ltb_lt in E1; lia|].
  destruct (0 <=? i) eqn:E2; [|apply Z.leb_gt in E2; lia].
  destruct (i <? Z.of_nat (length l)) eqn:E3; [|apply Z.ltb_ge in E3; lia].
  simpl. destruct (l !! Z.to_nat i) as [a|] eqn:E.
  - exists a. split; reflexivity.
  - apply lookup_ge_None in E. lia.
Qed.


Lemma py_index_beyond {A} (l : list A) (i : Z) :
  Z.of_nat (length l) <= i -> py_index l i = Raise IndexError.
Proof.
  intros Hi. unfold py_index.
  destruct (i <? 0) eqn:E1; [apply Z.ltb_lt in E1; lia|].
  destruct (i <? Z.of_nat (length l)) eqn:E3; [apply Z.ltb_lt in E3; lia|].
  rewrite andb_false_r. reflexivity.
Qed.

Lemma py_store_nonneg {A} (l : list A) (i : Z) (x : A) :
  0 <= i -> py_store l i x = <[Z.to_nat i := x]> l.
Proof.
  intros Hi. unfold py_store.
  destruct (i <? 0) eqn:E1; [apply Z.ltb_lt in E1; lia|reflexivity].
Qed.

Lemma py_mod_pos a n : 0 < n -> py_mod a n = Ok (a mod n).
Proof.
  intros Hn. unfold py_mod.
  destruct (n =? 0) eqn:E; [apply Z.eqb_eq in E; lia|reflexivity].
Qed.

(** Storing into a valid seat succeeds and leaves the table geometry alone. *)
Lemma update_player_valid i f g :
  0 <= i < Z.of_nat (length (PokerGame.players g)) ->
  exists p, PokerGame.players g !! Z.to_nat i = Some p
    /\ PokerGame.update_player i f g
       = Ok (PokerGame.set_players (<[Z.to_nat i := f p]> (PokerGame.players g)) g).
Proof.
  intros Hi. unfold PokerGame.update_player.
  destruct (py_index_lookup _ i Hi) as (p & Hp & ->). simpl.
  exists p. split; [exact Hp|].
  rewrite py_store_nonneg by lia. reflexivity.
Qed.

Lemma run_simulation_positions_overflow seats g :
  0 < PokerGame.num_players g ->
  (forall i, i ∈ seats -> 0 <= i < Z.of_nat (length (PokerGame.players g))) ->
  (exists i, i ∈ seats
     /\ 6 <= (i - PokerGame.button_pos g) mod PokerGame.num_players g) ->
  PokerGame.run_simulation_positions seats g = Raise IndexError.
Proof.
  intros Hn. revert g Hn.
  induction seats as [|i seats IH]; intros g Hn Hvalid (k & Hk & Hpos).
  - inversion Hk.
  - simpl. rewrite (py_mod_pos _ _ Hn). simpl.
    destruct (Z_lt_le_dec ((i - PokerGame.button_pos g) mod PokerGame.num_players g) 6)
      as [Hlt|Hge].
    + assert (Hr : 0 <= (i - PokerGame.button_pos g) mod PokerGame.num_players g < 6).
      { split; [apply Z.mod_pos_bound; lia|exact Hlt]. }
      destruct (py_index_lookup PokerGame.position_names _ Hr) as (lab & _ & ->).
      simpl.
      destruct (update_player_valid i (Player.set_position lab) g) as (p & _ & ->).
      { apply Hvalid. left. }
      simpl. apply IH.
      * exact Hn.
      * intros j Hj. simpl. rewrite length_insert. apply Hvalid. right. exact Hj.
      * exists k. simpl. split; [|exact Hpos].
        apply elem_of_cons in Hk as [->|Hk]; [lia|exact Hk].
    + rewrite (py_index_beyond PokerGame.position_names) by exact Hge.
      reflexivity.
Qed.

Lemma py_range_elem i n : i ∈ py_range n <-> 0 <= i < n.
Proof.
  unfold py_range. rewrite list_elem_of_fmap. split.
  - intros (k & -> & Hk). apply elem_of_seq in Hk. lia.
  - intros Hi. exists (Z.to_nat i). split; [lia|]. apply elem_of_seq. lia.
Qed.

Lemma py_range_length n : length (py_range n) = Z.to_nat n.
Proof. unfold py_range. rewrite length_map, length_seq. reflexivity. Qed.

Lemma position_names_index pos :
  0 <= pos < 6 ->
  py_index PokerGame.position_names pos = Ok (seat_label pos).
Proof.
  intros H. unfold seat_label.
  destruct (pos <? 6) eqn:E; [|apply Z.ltb_ge in E; lia].
  assert (Hc : pos = 0 \/ pos = 1 \/ pos = 2 \/ pos = 3 \/ pos = 4 \/ pos = 5) by lia.
  destruct Hc as [->|[->|[->|[->|[->| ->]]]]]; reflexivity.
Qed.

(** The position loop of [reset_hand] never indexes out of range: it
    labels every seat it visits and leaves the other seats alone. *)
Lemma reset_hand_positions_labels seats g :
  0 < PokerGame.num_players g ->
  (forall i, i ∈ seats -> 0 <= i < Z.of_nat (length (PokerGame.players g))) ->
  exists g',
    PokerGame.reset_hand_positions seats g = Ok g'
    /\ PokerGame.num_players g' = PokerGame.num_players g
    /\ PokerGame.button_pos g' = PokerGame.button_pos g
    /\ PokerGame.initial_stack g' = PokerGame.initial_stack g
    /\ length (PokerGame.players g') = length (PokerGame.players g)
    /\ (forall i, i ∈ seats ->
          exists p', PokerGame.players g' !! Z.to_nat i = Some p'
            /\ Player.position p'
               = seat_label ((i - PokerGame.button_pos g)
                             mod PokerGame.num_players g))
    /\ (forall k, (forall i, i ∈ seats -> Z.to_nat i <> k) ->
          PokerGame.players g' !! k = PokerGame.players g !! k).
Proof.
  intros Hn. revert g Hn.
  induction seats as [|i seats IH]; intros g Hn Hvalid.
  - exists g. simpl. repeat split; try reflexivity.
    intros i Hi. inversion Hi.
  - cbn [PokerGame.reset_hand_positions]. rewrite (py_mod_pos _ _ Hn). cbn [rbind].
    set (pos := (i - PokerGame.button_pos g) mod PokerGame.num_players g).
    assert (Hpos : 0 <= pos) by (apply Z.mod_pos_bound; lia).
    assert (Hlab : (if pos <? Z.of_nat (length PokerGame.position_names)
                    then py_index PokerGame.position_names pos
                    else Ok ("MP" +:+ pretty (pos - 4)))
                   = Ok (seat_label pos)).
    { change (Z.of_nat (length PokerGame.position_names)) with 6.
      destruct (pos <? 6) eqn:E.
      - apply position_names_index. apply Z.ltb_lt in E. lia.
      - unfold seat_label. rewrite E. reflexivity. }
    rewrite Hlab. cbn [rbind].
    destruct (update_player_valid i (Player.set_position (seat_label pos)) g)
      as (p & Hp & ->). { apply Hvalid. left. }
    cbn [rbind].
    set (g1 := PokerGame.set_players _ g).
    destruct (IH g1) as (g' & -> & H1 & H2 & H3 & H4 & H5 & H6).
    { exact Hn. }
    { intros j Hj. unfold g1. simpl. rewrite length_insert. apply Hvalid.
      right. exact Hj. }
    exists g'. split; [reflexivity|].
    split; [exact H1|]. split; [exact H2|]. split; [exact H3|].
    split; [rewrite H4; unfold g1; simpl; apply length_insert|].
    split.
    + intros j Hj. destruct (decide (j ∈ seats)) as [Hin|Hout].
      * exact (H5 j Hin).
      * apply elem_of_cons in Hj as [->|Hj]; [|contradiction].
        rewrite H6.
        -- unfold g1. simpl. rewrite list_lookup_insert_eq
             by (eapply lookup_lt_Some; exact Hp).
           eexists. split; reflexivity.
        -- intros j Hj E. apply Hout.
           assert (j = i); [|subst; exact Hj].
           pose proof (Hvalid j ltac:(right; exact Hj)).
           pose proof (Hvalid i ltac:(left)). lia.
    + intros k Hk. rewrite H6 by (intros j Hj; apply Hk; right; exact Hj).
      unfold g1. simpl. apply list_lookup_insert_ne. apply Hk. left.
Qed.

Lemma reset_player_position s p :
  Player.position (PokerGame.reset_player s p) = Player.position p.
Proof.
  unfold PokerGame.reset_player. destruct (Qleb _ _); reflexivity.
Qed.

(** On a table of any size whose seats are all filled, in particular with
    two to nine players, [reset_hand] succeeds and labels every seat; the
    seats at distance six and more from the button get [MP2], [MP3], ... *)
Lemma reset_hand_labels g :
  0 < PokerGame.num_players g ->
  Z.of_nat (length (PokerGame.players g)) = PokerGame.num_players g ->
  exists g',
    PokerGame.reset_hand g = Ok g'
    /\ PokerGame.button_pos g'
       = (PokerGame.button_pos g + 1) mod PokerGame.num_players g
    /\ forall i, 0 <= i < PokerGame.num_players g ->
         exists p', PokerGame.players g' !! Z.to_nat i = Some p'
           /\ Player.position p'
              = seat_label ((i - PokerGame.button_pos g')
                            mod PokerGame.num_players g).
Proof.
  intros Hn Hlen. unfold PokerGame.reset_hand.
  cbn [PokerGame.num_players PokerGame.button_pos PokerGame.set_deck
       PokerGame.set_community_cards PokerGame.set_pot PokerGame.set_current_bet].
  rewrite (py_mod_pos _ _ Hn). cbn [rbind].
  set (g0 := PokerGame.set_button_pos _ _).
  destruct (reset_hand_positions_labels (py_range (PokerGame.num_players g0)) g0)
    as (g1 & -> & H1 & H2 & H3 & H4 & H5 & _).
  { exact Hn. }
  { intros i Hi. apply py_range_elem in Hi. unfold g0 in *. simpl in *. lia. }
  cbn [rbind]. eexists. split; [reflexivity|]. simpl.
  split; [rewrite H2; reflexivity|].
  intros i Hi. destruct (H5 i) as (p' & Hp' & Hlab).
  { apply py_range_elem. exact Hi. }
  exists (PokerGame.reset_player (PokerGame.initial_stack g1) p').
  split.
  - change (map ?f ?l) with (f <$> l). rewrite list_lookup_fmap, Hp'. reflexivity.
  - rewrite reset_player_position, Hlab, H2. reflexivity.
Qed.

Example seat_label_overflow :
  map seat_label [0; 1; 2; 3; 4; 5; 6; 7; 8]
  = ["BTN"; "SB"; "BB"; "UTG"; "MP"; "CO"; "MP2"; "MP3"; "MP4"].
Proof. reflexivity. Qed.

(** C8 (a defect of the code).  On a table of seven or more seats, the
    position loop of [run_simulation] indexes [position_names] out of range:
    a simulation of at least one hand on a freshly built table ends with
    [IndexError] before any hand is played. *)
Theorem run_simulation_index_error
    (shuffle_list : list Card -> list Card) (fuel : nat) (num_hands n : Z)
    (initial_stack small_blind big_blind : Q) (four_card_flop : bool) :
  7 <= n -> 1 <= num_hands ->
  Session.run_simulation shuffle_list fuel num_hands
    (PokerGame.new n initial_stack small_blind big_blind four_card_flop)
  = Some (Raise IndexError).
Proof.
  intros Hn Hh. unfold Session.run_simulation.
  destruct (Z.to_nat num_hands) as [|k] eqn:E; [lia|].
  simpl. unfold Session.run_one_hand.
  rewrite py_mod_pos by (simpl; lia). simpl.
  rewrite run_simulation_positions_overflow; [reflexivity|simpl; lia| |].
  - intros i Hi. simpl in *. rewrite length_map, py_range_length.
    apply py_range_elem in Hi. lia.
  - simpl. exists ((1 mod n + 6) mod n). split.
    + apply py_range_elem. apply Z.mod_pos_bound. lia.
    + change (0 + 1) with 1. rewrite Zminus_mod_idemp_l.
      replace (1 mod n + 6 - 1 mod n) with 6 by lia.
      rewrite Z.mod_small; lia.
Qed.

Lemma run_simulation_index_error_witness :
  7 <= 7 /\ 1 <= 1 /\
  Session.run_simulation (fun l => l) 100 1 (PokerGame.new 7 1000 5 10 false)
  = Some (Raise IndexError).
Proof.
  split; [lia|]. split; [lia|].
  apply run_simulation_index_error; lia.
Defined.

(** ** The chips moved inside a hand *)

(** Values of the rounding: the floats written [0.1], [0.75] and [1.03],
    the quotient [25.0 / 6], the difference [1000.0 - 1.03], and two ties
    above [2 ^ 53], which go to the even significand. *)
Example binary64_values :
  float_lit (1 # 10) = (3602879701896397 # 36028797018963968)%Q
  /\ float_lit (3 # 4) = (3 # 4)%Q
  /\ float_lit (103 # 100) = (4638707616191611 # 4503599627370496)%Q
  /\ fdiv 25 (float_of_int 6) = (4691249611844267 # 1125899906842624)%Q
  /\ fsub 1000 (float_lit (103 # 100)) = (4393516523197563 # 4398046511104)%Q
  /\ float_of_int 9007199254740993 = 9007199254740992%Q
  /\ float_of_int 9007199254740995 = 9007199254740996%Q.
Proof. repeat split; vm_compute; reflexivity. Qed.






(** What [update_player] does when it does not raise. *)
Lemma update_player_Ok i f g g' :
  PokerGame.update_player i f g = Ok g' ->
  exists k p, py_index (PokerGame.players g) i = Ok p
    /\ PokerGame.players g !! k = Some p
    /\ g' = PokerGame.set_players (<[k := f p]> (PokerGame.players g)) g.
Proof.
  unfold PokerGame.update_player, py_index, py_store.
  set (j := if i <? 0 then _ else _).
  destruct ((0 <=? j) && (j <? Z.of_nat (length (PokerGame.players g)))); simpl;
    [|discriminate].
  destruct (PokerGame.players g !! Z.to_nat j) as [p|] eqn:E; simpl; [|discriminate].
  intros H. injection H as <-. exists (Z.to_nat j), p. auto.
Qed.






Lemma moves_chips_insert g g' k p p' x :
  PokerGame.players g !! k = Some p ->
  PokerGame.players g' = <[k := p']> (PokerGame.players g) ->
  Player.stack p' = fsub (Player.stack p) x ->
  PokerGame.pot g' = fadd (PokerGame.pot g) x ->
  moves_chips g g' k x.
Proof.
  intros Hp Hps Hst Hpot. unfold moves_chips. rewrite Hps.
  split; [exact Hpot|]. split; [apply length_insert|]. split.
  - intros q q' Hq Hq'. rewrite Hp in Hq. injection Hq as <-.
    rewrite list_lookup_insert_eq in Hq' by (eapply lookup_lt_Some; exact Hp).
    injection Hq' as <-. exact Hst.
  - intros j Hj. rewrite list_lookup_insert_ne by congruence. reflexivity.
Qed.


(** Two successive stores into the same seat, as in the posting of a blind. *)
Lemma update_player_twice i f1 f2 g g1 g2 :
  PokerGame.update_player i f1 g = Ok g1 ->
  PokerGame.update_player i f2 g1 = Ok g2 ->
  exists k p, PokerGame.players g !! k = Some p
    /\ g2 = PokerGame.set_players (<[k := f2 (f1 p)]> (PokerGame.players g)) g.
Proof.
  unfold PokerGame.update_player, py_index, py_store.
  set (j := if i <? 0 then _ else _).
  destruct ((0 <=? j) && (j <? Z.of_nat (length (PokerGame.players g)))); simpl;
    [|discriminate].
  destruct (PokerGame.players g !! Z.to_nat j) as [p|] eqn:E; simpl; [|discriminate].
  intros H. injection H as <-. simpl. rewrite length_insert. fold j.
  destruct ((0 <=? j) && (j <? Z.of_nat (length (PokerGame.players g)))); simpl;
    [|discriminate].
  rewrite list_lookup_insert_eq by (eapply lookup_lt_Some; exact E). simpl.
  intros H. injection H as <-. exists (Z.to_nat j), p. split; [exact E|].
  unfold PokerGame.set_players. simpl. rewrite list_insert_insert_eq. reflexivity.
Qed.

Lemma post_small_blind_moves g g' :
  Game.post_small_blind g = Ok g' ->
  exists k, is_Some (PokerGame.players g !! k)
    /\ moves_chips g g' k (PokerGame.small_blind g).
Proof.
  unfold Game.post_small_blind.
  destruct (py_mod _ _) as [sb_pos|]; simpl; [|discriminate].
  destruct (PokerGame.update_player sb_pos _ g) as [g1|] eqn:H1; simpl; [|discriminate].
  assert (Hsb : PokerGame.small_blind g1 = PokerGame.small_blind g).
  { destruct (update_player_Ok _ _ _ _ H1) as (? & ? & _ & _ & ->). reflexivity. }
  rewrite Hsb.
  destruct (PokerGame.update_player sb_pos _ g1) as [g2|] eqn:H2; simpl; [|discriminate].
  intros H. injection H as <-.
  destruct (update_player_twice _ _ _ _ _ _ H1 H2) as (k & p & Hk & ->).
  exists k. split; [eexists; exact Hk|].
  eapply moves_chips_insert; [exact Hk|reflexivity|reflexivity|reflexivity].
Qed.








(** ** The [folded] flag *)

Lemma folded_flags_insert ps k p p' :
  ps !! k = Some p -> Player.folded p' = Player.folded p ->
  map Player.folded (<[k := p']> ps) = map Player.folded ps.
Proof.
  revert k. induction ps as [|a ps IH]; intros [|k] H E; simpl in *;
    try discriminate; try reflexivity.
  - injection H as ->. rewrite E. reflexivity.
  - rewrite (IH k H E). reflexivity.
Qed.

Lemma folded_flags_alter (f : Player.t -> Player.t) ps k :
  (forall p, Player.folded (f p) = Player.folded p) ->
  map Player.folded (alter f k ps) = map Player.folded ps.
Proof.
  intros Hf. revert k. induction ps as [|a ps IH]; intros [|k]; simpl;
    try reflexivity.
  - rewrite Hf. reflexivity.
  - f_equal. apply IH.
Qed.

Lemma update_player_folded i f g g' :
  (forall p, Player.folded (f p) = Player.folded p) ->
  PokerGame.update_player i f g = Ok g' ->
  folded_flags g' = folded_flags g.
Proof.
  intros Hf H. destruct (update_player_Ok _ _ _ _ H) as (k & p & _ & Hk & ->).
  unfold folded_flags. simpl. apply (folded_flags_insert _ _ p); [exact Hk|apply Hf].
Qed.

Lemma process_action_folded pos action amount g g' :
  Game.process_action pos action amount g = Ok g' ->
  folded_flags g' = folded_flags g.
Proof.
  unfold Game.process_action.
  destruct (py_index _ _) as [player|]; simpl; [|discriminate].
  destruct (decide (action = "fold")) as [_|_].
  { apply update_player_folded. reflexivity. }
  destruct (decide (action = "call")) as [_|_];
    [|destruct (decide (action = "raise")) as [_|_]].
  - destruct (PokerGame.update_player _ _ _) as [g1|] eqn:E; simpl; [|discriminate].
    intros H. injection H as <-.
    apply update_player_folded in E; [exact E|reflexivity].
  - destruct (PokerGame.update_player _ _ _) as [g1|] eqn:E; simpl; [|discriminate].
    intros H. injection H as <-.
    apply update_player_folded in E; [exact E|reflexivity].
  - intros H. injection H as <-. reflexivity.
Qed.

Lemma betting_loop_folded fuel start_pos pos g b g' :
  Game.betting_loop fuel start_pos pos g = Some (Ok (b, g')) ->
  folded_flags g' = folded_flags g.
Proof.
  revert pos g. induction fuel as [|fuel IH]; intros pos g H; simpl in H.
  - discriminate.
  - destruct (Game.next_active _ g pos) as [[cur|]|]; simpl in H; try discriminate.
    destruct (py_index (PokerGame.players g) cur) as [player|]; simpl in H;
      [|discriminate].
    destruct (Player.make_decision _ _ _ _) as [decision|]; simpl in H;
      [|discriminate].
    destruct (Game.process_action cur _ _ g) as [g1|] eqn:Hact; simpl in H;
      [|discriminate].
    apply process_action_folded in Hact.
    destruct (bool_decide _); [injection H as <- <-; exact Hact|].
    destruct (_ && _); [injection H as <- <-; exact Hact|].
    destruct (py_mod _ _) as [pos'|]; simpl in H; [|discriminate].
    rewrite (IH _ _ H). exact Hact.
Qed.

Lemma _betting_round_folded fuel g b g' :
  Game._betting_round fuel g = Some (Ok (b, g')) ->
  folded_flags g' = folded_flags g.
Proof.
  unfold Game._betting_round.
  destruct (bool_decide _); [intros H; injection H as <- <-; reflexivity|].
  destruct (py_mod _ _) as [start_pos|]; simpl; [|discriminate].
  apply betting_loop_folded.
Qed.

Lemma post_small_blind_folded g g' :
  Game.post_small_blind g = Ok g' -> folded_flags g' = folded_flags g.
Proof.
  unfold Game.post_small_blind.
  destruct (py_mod _ _) as [sb_pos|]; simpl; [|discriminate].
  destruct (PokerGame.update_player sb_pos _ g) as [g1|] eqn:H1; simpl; [|discriminate].
  destruct (PokerGame.update_player sb_pos _ g1) as [g2|] eqn:H2; simpl; [|discriminate].
  intros H. injection H as <-.
  apply update_player_folded in H1; [|reflexivity].
  apply update_player_folded in H2; [|reflexivity].
  unfold folded_flags in *. simpl. congruence.
Qed.

Lemma post_big_blind_folded g g' :
  Game.post_big_blind g = Ok g' -> folded_flags g' = folded_flags g.
Proof.
  unfold Game.post_big_blind.
  destruct (py_mod _ _) as [bb_pos|]; simpl; [|discriminate].
  destruct (PokerGame.update_player bb_pos _ g) as [g1|] eqn:H1; simpl; [|discriminate].
  destruct (PokerGame.update_player bb_pos _ g1) as [g2|] eqn:H2; simpl; [|discriminate].
  intros H. injection H as <-.
  apply update_player_folded in H1; [|reflexivity].
  apply update_player_folded in H2; [|reflexivity].
  unfold folded_flags in *. simpl. congruence.
Qed.

Lemma deal_round_folded done todo d :
  map Player.folded (PokerGame.deal_round done todo d).1
  = map Player.folded (done ++ todo).
Proof.
  revert done d. induction todo as [|p todo IH]; intros done d; simpl.
  - rewrite app_nil_r. reflexivity.
  - destruct (Player.is_active p).
    + destruct (Deck.draw d) as [[card|] d']; rewrite IH, <- app_assoc;
        rewrite !map_app; reflexivity.
    + rewrite IH, <- app_assoc. reflexivity.
Qed.

Lemma deal_hole_cards_folded shuffle_list g :
  folded_flags (PokerGame.deal_hole_cards shuffle_list g) = folded_flags g.
Proof.
  unfold PokerGame.deal_hole_cards, folded_flags.
  pose proof (deal_round_folded [] (PokerGame.players g)
                (Deck.shuffle shuffle_list (PokerGame.deck g))) as H1.
  destruct (PokerGame.deal_round [] (PokerGame.players g) _) as [ps d].
  pose proof (deal_round_folded [] ps d) as H2.
  destruct (PokerGame.deal_round [] ps d) as [ps' d'].
  simpl in *. congruence.
Qed.

Lemma deal_community_folded g :
  folded_flags (PokerGame.deal_community g) = folded_flags g.
Proof.
  unfold PokerGame.deal_community.
  destruct (Deck.draw _) as [[card|] d']; reflexivity.
Qed.

Lemma deal_flop_folded g :
  folded_flags (PokerGame.deal_flop g) = folded_flags g.
Proof.
  unfold PokerGame.deal_flop.
  destruct (PokerGame.four_card_flop g); simpl;
    rewrite !deal_community_folded; reflexivity.
Qed.

Lemma reset_hand_positions_players seats g g' :
  PokerGame.reset_hand_positions seats g = Ok g' ->
  PokerGame.initial_stack g' = PokerGame.initial_stack g
  /\ length (PokerGame.players g') = length (PokerGame.players g).
Proof.
  revert g. induction seats as [|i seats IH]; intros g H; simpl in H.
  - injection H as <-. split; reflexivity.
  - destruct (py_mod _ _) as [pos|]; simpl in H; [|discriminate].
    destruct (if pos <? _ then _ else _) as [label|]; simpl in H; [|discriminate].
    destruct (PokerGame.update_player i _ g) as [g1|] eqn:E; simpl in H;
      [|discriminate].
    destruct (IH _ H) as [H1 H2].
    destruct (update_player_Ok _ _ _ _ E) as (k & p & _ & _ & ->).
    simpl in *. rewrite length_insert in H2. split; assumption.
Qed.

Lemma reset_player_folded s p : Player.folded (PokerGame.reset_player s p) = false.
Proof.
  unfold PokerGame.reset_player. destruct (Qleb _ _); reflexivity.
Qed.

(** [reset_hand] clears the flag of every player, whatever it was. *)
Lemma reset_hand_nobody_folded g g' :
  PokerGame.reset_hand g = Ok g' -> nobody_folded g'.
Proof.
  unfold PokerGame.reset_hand.
  destruct (py_mod _ _) as [b|]; simpl; [|discriminate].
  destruct (PokerGame.reset_hand_positions _ _) as [g1|]; simpl; [|discriminate].
  intros H. injection H as <-. unfold nobody_folded. simpl.
  apply Forall_forall. intros p Hp. apply list_elem_of_fmap in Hp as (q & -> & _).
  apply reset_player_folded.
Qed.

Lemma credit_folded w g seat :
  folded_flags (Game.credit w g seat) = folded_flags g.
Proof.
  unfold Game.credit, folded_flags. simpl.
  apply folded_flags_alter. reflexivity.
Qed.

Lemma foldl_credit_folded w seats g :
  folded_flags (foldl (Game.credit w) g seats) = folded_flags g.
Proof.
  revert g. induction seats as [|s seats IH]; intros g; simpl; [reflexivity|].
  rewrite IH. apply credit_folded.
Qed.

Lemma _resolve_winners_folded g g' ws :
  Game._resolve_winners g = Ok (g', ws) -> folded_flags g' = folded_flags g.
Proof.
  unfold Game._resolve_winners.
  destruct (Game.active_players g) as [|[seat winner] [|second rest]].
  - intros H. injection H as <- <-. reflexivity.
  - intros H. injection H as <- <-. apply credit_folded.
  - destruct (res_map _ _) as [player_hands|]; simpl; [|discriminate].
    destruct (py_index _ 0) as [best|]; simpl; [|discriminate].
    destruct (bool_decide _); simpl; [discriminate|].
    intros H. injection H as <- <-. apply foldl_credit_folded.
Qed.

Lemma nobody_folded_iff g :
  nobody_folded g <-> Forall (fun b => b = false) (folded_flags g).
Proof.
  unfold nobody_folded, folded_flags.
  induction (PokerGame.players g) as [|p ps IH]; simpl.
  - split; constructor.
  - rewrite !Forall_cons, IH. reflexivity.
Qed.

Lemma nobody_folded_flags g g' :
  folded_flags g' = folded_flags g -> nobody_folded g -> nobody_folded g'.
Proof.
  intros E H. apply nobody_folded_iff. rewrite E. apply nobody_folded_iff, H.
Qed.

Lemma _betting_round_nobody_folded fuel g r :
  nobody_folded g -> Game._betting_round fuel g = Some (Ok r) ->
  nobody_folded r.2.
Proof.
  intros Hg H. destruct r as [b g']. simpl.
  eapply nobody_folded_flags; [|exact Hg].
  eapply _betting_round_folded. exact H.
Qed.

Lemma _resolve_winners_nobody_folded g g' ws :
  nobody_folded g -> lift (Game._resolve_winners g) = Some (Ok (g', ws)) ->
  nobody_folded g'.
Proof.
  intros Hg H. injection H as H.
  eapply nobody_folded_flags; [|exact Hg].
  eapply _resolve_winners_folded. exact H.
Qed.

Ltac betting_step H Hg :=
  match type of H with
  | context [Game._betting_round ?f ?g] =>
      let r := fresh "r" in
      let E := fresh "E" in
      destruct (Game._betting_round f g) as [[r|]|] eqn:E; simpl in H;
      try discriminate H;
      apply (_betting_round_nobody_folded _ _ _ Hg) in E
  end.

Lemma play_hand_nobody_folded shuffle_list fuel g g' ws :
  Session.play_hand shuffle_list fuel g = Some (Ok (g', ws)) ->
  nobody_folded g'.
Proof.
  unfold Session.play_hand. intros H.
  destruct (PokerGame.reset_hand g) as [g1|] eqn:H1; simpl in H; [|discriminate].
  apply reset_hand_nobody_folded in H1.
  destruct (Game.post_small_blind g1) as [g2|] eqn:H2; simpl in H; [|discriminate].
  apply post_small_blind_folded in H2.
  destruct (Game.post_big_blind g2) as [g3|] eqn:H3; simpl in H; [|discriminate].
  apply post_big_blind_folded in H3.
  assert (Hd : nobody_folded (PokerGame.deal_hole_cards shuffle_list g3)).
  { eapply nobody_folded_flags; [apply deal_hole_cards_folded|].
    eapply nobody_folded_flags; [exact H3|].
    eapply nobody_folded_flags; [exact H2|exact H1]. }
  betting_step H Hd.
  destruct (negb r.1); [exact (_resolve_winners_nobody_folded _ _ _ E H)|].
  assert (Hf : nobody_folded (PokerGame.deal_flop r.2)).
  { eapply nobody_folded_flags; [apply deal_flop_folded|exact E]. }
  betting_step H Hf.
  destruct (negb r0.1); [exact (_resolve_winners_nobody_folded _ _ _ E0 H)|].
  assert (Ht : nobody_folded (PokerGame.deal_turn r0.2)).
  { eapply nobody_folded_flags; [apply deal_community_folded|exact E0]. }
  destruct (py_index _ 3) as [c3|]; simpl in H; [|discriminate].
  betting_step H Ht.
  destruct (negb r1.1); [exact (_resolve_winners_nobody_folded _ _ _ E1 H)|].
  assert (Hv : nobody_folded (PokerGame.deal_river r1.2)).
  { eapply nobody_folded_flags; [apply deal_community_folded|exact E1]. }
  destruct (py_index _ 4) as [c4|]; simpl in H; [|discriminate].
  betting_step H Hv.
  exact (_resolve_winners_nobody_folded _ _ _ E2 H).
Qed.

Lemma _log_hand_results_folded g ws entry :
  Session._log_hand_results g ws = Ok entry ->
  map HandLog.folded (HandLog.players entry) = folded_flags g.
Proof.
  unfold Session._log_hand_results.
  destruct (res_map _ ws) as [l|]; simpl; [|discriminate].
  intros H. injection H as <-. simpl. unfold folded_flags.
  rewrite map_map. reflexivity.
Qed.

(** C10. Nothing sets [folded] to [True]: a new player and a player after
    [reset_hand] have it [False]; a fold in the betting round clears
    [is_active] and leaves every [folded] flag as it was, as does any other
    processed decision; so after every hand played, and in the player
    snapshot logged for it, the flag of every player is [False]. *)
Theorem folded_is_never_set :
  (forall name stack, Player.folded (Player.new name stack) = false)
  /\ (forall p, Player.folded (Player.reset_hand p) = false)
  /\ (forall pos action amount g g',
        Game.process_action pos action amount g = Ok g' ->
        folded_flags g' = folded_flags g
        /\ (action = "fold" ->
            forall player, py_index (PokerGame.players g) pos = Ok player ->
            exists player', py_index (PokerGame.players g') pos = Ok player'
              /\ Player.is_active player' = false
              /\ Player.folded player' = Player.folded player))
  /\ (forall shuffle_list fuel g g' ws,
        Session.play_hand shuffle_list fuel g = Some (Ok (g', ws)) ->
        nobody_folded g')
  /\ (forall shuffle_list fuel g g' entry,
        Session.run_one_hand shuffle_list fuel g = Some (Ok (g', entry)) ->
        nobody_folded g'
        /\ Forall (fun e => HandLog.folded e = false) (HandLog.players entry)).
Proof.
  split; [reflexivity|]. split; [reflexivity|]. split; [|split].
  - intros pos action amount g g' H. split.
    + eapply process_action_folded. exact H.
    + intros -> player Hidx. unfold Game.process_action in H.
      rewrite Hidx in H. simpl in H.
      unfold PokerGame.update_player in H. rewrite Hidx in H. simpl in H.
      injection H as <-. simpl.
      exists (Player.set_is_active false player).
      split; [|split; reflexivity].
      revert Hidx. unfold py_index, py_store. rewrite length_insert.
      set (j := if pos <? 0 then _ else _).
      destruct ((0 <=? j) && (j <? Z.of_nat (length (PokerGame.players g))));
        [|discriminate].
      destruct (PokerGame.players g !! Z.to_nat j) as [q|] eqn:E; [|discriminate].
      intros _. rewrite list_lookup_insert_eq by (eapply lookup_lt_Some; exact E).
      reflexivity.
  - intros shuffle_list fuel g g' ws H.
    eapply play_hand_nobody_folded. exact H.
  - intros shuffle_list fuel g g' entry H. unfold Session.run_one_hand in H.
    destruct (py_mod _ _) as [b|]; simpl in H; [|discriminate].
    destruct (PokerGame.run_simulation_positions _ _) as [g1|]; simpl in H;
      [|discriminate].
    destruct (Session.play_hand _ _ _) as [[[g2 ws]|]|] eqn:Hp; simpl in H;
      try discriminate.
    destruct (Session._log_hand_results g2 ws) as [en|] eqn:Hl; simpl in H;
      [|discriminate].
    injection H as <- <-.
    apply play_hand_nobody_folded in Hp. split; [exact Hp|].
    apply _log_hand_results_folded in Hl.
    apply nobody_folded_iff in Hp. rewrite <- Hl in Hp.
    clear -Hp. induction (HandLog.players en) as [|e es IH]; simpl in *.
    + constructor.
    + apply Forall_cons in Hp as [H1 H2]. constructor; [exact H1|apply IH, H2].
Qed.

Lemma folded_is_never_set_witness :
  match Session.run_one_hand (fun l => l) 100 (PokerGame.new 3 1000 5 10 false) with
  | Some (Ok (g', entry)) =>
      nobody_folded g'
      /\ Forall (fun e => HandLog.folded e = false) (HandLog.players entry)
      /\ exists e, e ∈ HandLog.players entry /\ HandLog.is_active e = false
  | _ => False
  end.
Proof.
  destruct (Session.run_one_hand (fun l => l) 100 (PokerGame.new 3 1000 5 10 false))
    as [[[g' entry]|e]|] eqn:E.
  - pose proof (proj2 (proj2 (proj2 (proj2 folded_is_never_set)))
                  (fun l => l) 100%nat _ g' entry E) as [H1 H2].
    split; [exact H1|]. split; [exact H2|].
    vm_compute in E. injection E as <- <-.
    eexists. split; [left|reflexivity].
  - vm_compute in E. discriminate E.
  - vm_compute in E. discriminate E.
Defined.

(** ** The order on hand keys *)

Lemma list_lt_irrefl a : list_lt a a = false.
Proof.
  induction a as [|x a IH]; simpl; [reflexivity|].
  rewrite Z.eqb_refl. exact IH.
Qed.

Lemma list_lt_asym a b : list_lt a b = true -> list_lt b a = false.
Proof.
  revert b. induction a as [|x a IH]; intros [|y b]; simpl; try congruence.
  rewrite (Z.eqb_sym y x). destruct (x =? y) eqn:E.
  - apply IH.
  - rewrite Z.ltb_lt, Z.ltb_ge. lia.
Qed.

Lemma list_lt_ge_trans a b c :
  list_lt a b = false -> list_lt b c = false -> list_lt a c = false.
Proof.
  revert b c. induction a as [|x a IH]; intros [|y b] [|z c]; simpl;
    try congruence.
  destruct (x =? y) eqn:Exy, (y =? z) eqn:Eyz, (x =? z) eqn:Exz;
    rewrite ?Z.eqb_eq, ?Z.eqb_neq, ?Z.ltb_ge in *; try lia.
  apply IH.
Qed.

Lemma list_lt_total a b : list_lt a b = false -> list_lt b a = false -> a = b.
Proof.
  revert b. induction a as [|x a IH]; intros [|y b]; simpl; try congruence.
  rewrite (Z.eqb_sym y x). destruct (x =? y) eqn:E.
  - apply Z.eqb_eq in E as ->. intros H1 H2. f_equal. apply IH; assumption.
  - rewrite !Z.ltb_ge. apply Z.eqb_neq in E. lia.
Qed.

Lemma key_lt_irrefl a : key_lt a a = false.
Proof. unfold key_lt. rewrite Z.eqb_refl. apply list_lt_irrefl. Qed.

Lemma key_lt_asym a b : key_lt a b = true -> key_lt b a = false.
Proof.
  unfold key_lt. rewrite (Z.eqb_sym b.1 a.1). destruct (a.1 =? b.1).
  - apply list_lt_asym.
  - rewrite Z.ltb_lt, Z.ltb_ge. lia.
Qed.

Lemma key_lt_ge_trans a b c :
  key_lt a b = false -> key_lt b c = false -> key_lt a c = false.
Proof.
  unfold key_lt.
  destruct (a.1 =? b.1) eqn:Exy, (b.1 =? c.1) eqn:Eyz, (a.1 =? c.1) eqn:Exz;
    rewrite ?Z.eqb_eq, ?Z.eqb_neq, ?Z.ltb_ge in *; try lia.
  apply list_lt_ge_trans.
Qed.

Lemma key_lt_total a b : key_lt a b = false -> key_lt b a = false -> a = b.
Proof.
  unfold key_lt. rewrite (Z.eqb_sym b.1 a.1). destruct (a.1 =? b.1) eqn:E.
  - apply Z.eqb_eq in E. intros H1 H2. destruct a, b; simpl in *.
    f_equal; [exact E|]. apply list_lt_total; assumption.
  - rewrite !Z.ltb_ge. apply Z.eqb_neq in E. lia.
Qed.

(** ** Showdown *)

Lemma res_map_Ok {A B} (f : A -> res B) (l : list A) :
  (forall a, a ∈ l -> exists b, f a = Ok b) ->
  exists bs, res_map f l = Ok bs /\ Forall2 (fun a b => f a = Ok b) l bs.
Proof.
  induction l as [|a l IH]; intros H; simpl.
  - exists []. split; [reflexivity|constructor].
  - destruct (H a) as [b Hb]; [left|]. rewrite Hb. simpl.
    destruct IH as (bs & -> & HF). { intros x Hx. apply H. right. exact Hx. }
    simpl. exists (b :: bs). split; [reflexivity|]. constructor; assumption.
Qed.

Lemma foldl_credit_lookup w seats g seat :
  NoDup seats ->
  PokerGame.players (foldl (Game.credit w) g seats) !! seat
  = (if decide (seat ∈ seats)
     then (fun p => Player.set_stack (fadd (Player.stack p) w) p)
            <$> (PokerGame.players g !! seat)
     else PokerGame.players g !! seat).
Proof.
  intros Hnd. revert g. induction Hnd as [|s seats Hs Hnd IH]; intros g; simpl.
  - reflexivity.
  - rewrite IH. unfold Game.credit. simpl.
    destruct (decide (seat = s)) as [->|Hne].
    + rewrite (decide_False _ _ Hs), decide_True by left.
      apply list_lookup_alter_eq.
    + rewrite list_lookup_alter_ne by congruence.
      destruct (decide (seat ∈ seats)) as [Hin|Hout].
      * rewrite decide_True by (right; exact Hin). reflexivity.
      * rewrite decide_False; [reflexivity|].
        rewrite elem_of_cons. tauto.
Qed.

Lemma winnings_total_const (w : Q) (seats : list nat) :
  (winnings_total (map (fun s => (s, w)) seats)
   == inject_Z (Z.of_nat (length seats)) * w)%Q.
Proof.
  induction seats as [|s seats IH].
  - simpl. ring.
  - change (winnings_total (map (fun s => (s, w)) (s :: seats)))
      with (w + winnings_total (map (fun s => (s, w)) seats))%Q.
    rewrite IH. change (length (s :: seats)) with (S (length seats)).
    rewrite Nat2Z.inj_succ. unfold Z.succ. rewrite inject_Z_plus. ring.
Qed.

Lemma active_players_seats g : NoDup (map fst (Game.active_players g)).
Proof.
  unfold Game.active_players.
  generalize (PokerGame.players g). intros ps.
  assert (H : forall (k : nat) (l : list Player.t),
            NoDup (map fst (filter (fun ip : nat * Player.t => Player.is_active ip.2 = true)
                              (imap (fun i => pair (k + i)%nat) l)))
            /\ forall x, x ∈ map fst (filter (fun ip : nat * Player.t => Player.is_active ip.2 = true)
                              (imap (fun i => pair (k + i)%nat) l)) -> (k <= x)%nat).
  { intros k l. revert k. induction l as [|p l IH]; intros k; simpl.
    - split; [constructor|]. intros x Hx. inversion Hx.
    - rewrite filter_cons. simpl.
      assert (E : imap ((fun i : nat => pair (k + i)%nat) ∘ S) l
                  = imap (fun i => pair (S k + i)%nat) l).
      { apply imap_ext. intros i q _. simpl. f_equal. lia. }
      rewrite E. destruct (IH (S k)) as [IH1 IH2].
      destruct (decide (Player.is_active p = true)); simpl.
      + split.
        * constructor; [|exact IH1]. intros Hin. apply IH2 in Hin. lia.
        * intros x Hx. apply elem_of_cons in Hx as [->|Hx]; [lia|].
          apply IH2 in Hx. lia.
      + split; [exact IH1|]. intros x Hx. apply IH2 in Hx. lia. }
  exact (proj1 (H 0%nat ps)).
Qed.

Lemma take_until_break_ext {A} (t1 t2 : A -> bool) (l : list A) :
  (forall x, x ∈ l -> t1 x = t2 x) ->
  take_until_break t1 l = take_until_break t2 l.
Proof.
  induction l as [|a l IH]; intros H; simpl; [reflexivity|].
  rewrite <- (H a) by left. destruct (t1 a); [|reflexivity].
  f_equal. apply IH. intros x Hx. apply H. right. exact Hx.
Qed.

Lemma Forall2_elem_r {A B} (R : A -> B -> Prop) l k y :
  Forall2 R l k -> y ∈ k -> exists x, x ∈ l /\ R x y.
Proof.
  induction 1 as [|a b l k Hab HF IH]; intros Hy.
  - inversion Hy.
  - apply elem_of_cons in Hy as [->|Hy].
    + exists a. split; [left|exact Hab].
    + destruct (IH Hy) as (x & Hx & HR). exists x. split; [right; exact Hx|exact HR].
Qed.

Lemma Forall2_elem_l {A B} (R : A -> B -> Prop) l k x :
  Forall2 R l k -> x ∈ l -> exists y, y ∈ k /\ R x y.
Proof.
  induction 1 as [|a b l k Hab HF IH]; intros Hx.
  - inversion Hx.
  - apply elem_of_cons in Hx as [->|Hx].
    + exists b. split; [left|exact Hab].
    + destruct (IH Hx) as (y & Hy & HR). exists y. split; [right; exact Hy|exact HR].
Qed.

Lemma inject_Z_of_nat_nonzero (n : nat) :
  n <> 0%nat -> ~ (inject_Z (Z.of_nat n) == 0)%Q.
Proof.
  intros Hn H. unfold Qeq in H. simpl in H. lia.
Qed.

(** Six players tie on the board's royal flush for a pot of 25: each share
    is the float nearest to 25/6, and six of them do not make 25, whether
    they are added exactly or as floats one after the other. *)
Lemma showdown_shares_miss_the_pot :
  let board := [mkCard ACE SPADES; mkCard KING SPADES; mkCard QUEEN SPADES;
                mkCard JACK SPADES; mkCard TEN SPADES] in
  let seat name c1 c2 :=
    Player.mk name 1000 [c1; c2] 0 true "" (-1) false 6 in
  let g := PokerGame.mk 6 1000 5 10 false Deck.new
             [seat "Player 1" (mkCard TWO HEARTS) (mkCard THREE HEARTS);
              seat "Player 2" (mkCard FOUR HEARTS) (mkCard FIVE HEARTS);
              seat "Player 3" (mkCard SIX HEARTS) (mkCard SEVEN HEARTS);
              seat "Player 4" (mkCard TWO CLUBS) (mkCard THREE CLUBS);
              seat "Player 5" (mkCard FOUR CLUBS) (mkCard FIVE CLUBS);
              seat "Player 6" (mkCard SIX CLUBS) (mkCard SEVEN CLUBS)]
             board 25 0 0 in
  exists g' ws,
    Game._resolve_winners g = Ok (g', ws)
    /\ map fst ws = [0; 1; 2; 3; 4; 5]%nat
    /\ ~ (winnings_total ws == PokerGame.pot g)%Q
    /\ ~ (foldl (fun acc sw => fadd acc sw.2) 0%Q ws == PokerGame.pot g)%Q.
Proof.
  intros board seat g. eexists. eexists.
  split; [vm_compute; reflexivity|].
  split; [reflexivity|].
  split; vm_compute; intros H; discriminate H.
Qed.

(** C2, as the code has it.  At a showdown of two or more active players
    whose hands evaluate, [_resolve_winners] returns as winners exactly the
    active players whose key [(rank.value, high_cards)] is greatest among
    the hands shown; each winner is listed with the float quotient of the
    pot by the number of winners and has it added to the stack by a float
    addition, every other stack is unchanged, and the winnings add up to the
    pot when that quotient is exact. *)
Theorem showdown_splits_pot (g : PokerGame.t) :
  (2 <= length (Game.active_players g))%nat ->
  (forall seat p, (seat, p) ∈ Game.active_players g ->
     exists h, Player.evaluate_hand p (PokerGame.community_cards g) = Ok h) ->
  exists g' winners w,
    Game._resolve_winners g = Ok (g', map (fun s => (s, w)) winners)
    /\ winners <> [] /\ NoDup winners
    /\ (forall seat,
          seat ∈ winners <->
          exists h, shown_hand g seat h
            /\ forall seat' h', shown_hand g seat' h' ->
                 key_lt (hand_key h) (hand_key h') = false)
    /\ w = fdiv (PokerGame.pot g) (float_of_int (Z.of_nat (length winners)))
    /\ (forall seat p, PokerGame.players g !! seat = Some p ->
          exists p', PokerGame.players g' !! seat = Some p'
            /\ Player.stack p'
               = if decide (seat ∈ winners) then fadd (Player.stack p) w
                 else Player.stack p)
    /\ ((w == PokerGame.pot g / inject_Z (Z.of_nat (length winners)))%Q ->
        (winnings_total (map (fun s => (s, w)) winners) == PokerGame.pot g)%Q).
Proof.
  intros Hn Hev.
  set (cc := PokerGame.community_cards g) in *.
  set (f := fun ip : nat * Player.t =>
              do h <- Player.evaluate_hand ip.2 cc; Ok (ip.1, h)).
  destruct (res_map_Ok f (Game.active_players g)) as (hands & Hmap & HF2).
  { intros [seat p] Hin. destruct (Hev seat p Hin) as [h Hh].
    exists (seat, h). unfold f. simpl. rewrite Hh. reflexivity. }
  (* the hands list is the list of shown hands *)
  assert (Hshown : forall seat h, (seat, h) ∈ hands <-> shown_hand g seat h).
  { intros seat h. split.
    - intros Hin. destruct (Forall2_elem_r _ _ _ _ HF2 Hin) as ([s p] & Hp & Hf).
      unfold f in Hf. simpl in Hf.
      destruct (Player.evaluate_hand p cc) as [h0|] eqn:E; simpl in Hf; [|discriminate].
      injection Hf as -> ->. exists p. split; assumption.
    - intros (p & Hp & Hh).
      destruct (Forall2_elem_l _ _ _ _ HF2 Hp) as (y & Hy & Hf).
      unfold f in Hf. simpl in Hf. fold cc in Hh. rewrite Hh in Hf. simpl in Hf.
      injection Hf as <-. exact Hy. }
  assert (Hfst : map fst hands = map fst (Game.active_players g)).
  { clear -HF2. induction HF2 as [|[s p] b l k Hab HF IH]; simpl; [reflexivity|].
    unfold f in Hab. simpl in Hab.
    destruct (Player.evaluate_hand p cc); simpl in Hab; [|discriminate].
    injection Hab as <-. simpl. f_equal. exact IH. }
  set (lt' := fun x y : nat * HandStrength.t => key_lt (hand_key x.2) (hand_key y.2)).
  assert (Hirr : forall a, lt' a a = false) by (intros; apply key_lt_irrefl).
  assert (Hasym : forall a b, lt' a b = true -> lt' b a = false)
    by (intros a b; apply key_lt_asym).
  assert (Htr : forall a b c, lt' a b = false -> lt' b c = false -> lt' a c = false)
    by (intros a b c; apply key_lt_ge_trans).
  pose proof (py_sorted_rev_perm lt' hands) as Hperm.
  pose proof (py_sorted_rev_sorted lt' Hasym Htr hands) as Hsorted.
  assert (Hlen : length hands = length (Game.active_players g)).
  { symmetry. eapply Forall2_length. exact HF2. }
  destruct (py_sorted_rev lt' hands) as [|best t] eqn:Es.
  { apply Permutation_length in Hperm. simpl in Hperm. lia. }
  assert (Hbest : forall x, x ∈ hands -> lt' best x = false).
  { intros x Hx. eapply py_sorted_rev_head_greatest; eauto. }
  set (test := fun ph : nat * HandStrength.t =>
         (value (HandStrength.rank ph.2) =? value (HandStrength.rank best.2))
         && bool_decide (HandStrength.high_cards ph.2 = HandStrength.high_cards best.2)).
  set (test' := fun ph : nat * HandStrength.t => negb (lt' ph best)).
  assert (Htest : forall x, x ∈ best :: t -> test x = test' x).
  { intros x Hx. rewrite Hperm in Hx. specialize (Hbest x Hx).
    unfold test, test'. destruct (lt' x best) eqn:E; simpl.
    - apply andb_false_iff.
      destruct (value (HandStrength.rank x.2) =? value (HandStrength.rank best.2)) eqn:E1;
        [right|left; reflexivity].
      apply bool_decide_eq_false. intros E2.
      unfold lt', key_lt, hand_key in E. simpl in E. rewrite E1, E2 in E.
      rewrite list_lt_irrefl in E. discriminate.
    - pose proof (key_lt_total _ _ E Hbest) as Hk. unfold hand_key in Hk.
      injection Hk as -> ->. rewrite Z.eqb_refl. simpl.
      apply bool_decide_eq_true. reflexivity. }
  assert (Hrun : take_until_break test (best :: t)
                 = filter (fun a => test' a = true) (best :: t)).
  { rewrite (take_until_break_ext _ _ _ Htest).
    apply (take_until_break_filter lt'); [exact Hsorted|].
    intros a b Hab Hb. unfold test' in *. rewrite negb_true_iff in *.
    exact (Htr _ _ _ Hab Hb). }
  set (winners := map fst (take_until_break test (best :: t))).
  assert (Hwin : forall seat,
            seat ∈ winners <-> exists h, (seat, h) ∈ hands /\ lt' (seat, h) best = false).
  { intros seat. unfold winners. rewrite Hrun.
    change (map fst ?l) with (fst <$> l). rewrite list_elem_of_fmap. split.
    - intros ([s h] & -> & Hin). apply list_elem_of_filter in Hin as [Ht Hin].
      rewrite Hperm in Hin. exists h. split; [exact Hin|].
      unfold test' in Ht. apply negb_true_iff in Ht. exact Ht.
    - intros (h & Hin & Hge). exists (seat, h). split; [reflexivity|].
      apply list_elem_of_filter. split.
      + unfold test'. rewrite Hge. reflexivity.
      + rewrite Hperm. exact Hin. }
  assert (Hbest_in : best ∈ hands) by (rewrite <- Hperm; left).
  assert (Hne : winners <> []).
  { intros E. assert (Hb : best.1 ∈ winners).
    { apply Hwin. exists best.2. destruct best as [sb hb]. simpl.
      split; [exact Hbest_in|apply Hirr]. }
    rewrite E in Hb. inversion Hb. }
  assert (Hnd : NoDup winners).
  { unfold winners. rewrite Hrun.
    assert (Hp : Permutation (map fst (filter (fun a => test' a = true) (best :: t)))
                   (map fst (filter (fun a => test' a = true) hands))).
    { change (map fst ?l) with (fst <$> l). rewrite Hperm. reflexivity. }
    rewrite Hp. eapply sublist_NoDup.
    - pose proof (active_players_seats g) as Hs. rewrite <- Hfst in Hs. exact Hs.
    - change (map fst ?l) with (fst <$> l). apply fmap_sublist, sublist_filter. }
  set (w := fdiv (PokerGame.pot g) (float_of_int (Z.of_nat (length winners)))).
  exists (foldl (Game.credit w) g winners), winners, w.
  assert (Hlen0 : length winners <> 0%nat).
  { destruct winners; [congruence|simpl; lia]. }
  split; [|split; [exact Hne|split; [exact Hnd|split; [|split; [reflexivity|split]]]]].
  - unfold Game._resolve_winners.
    destruct (Game.active_players g) as [|[s1 p1] [|a2 rest]] eqn:Hact;
      simpl in Hn; try lia.
    fold cc. fold f. rewrite Hmap. cbn [rbind]. fold lt'. rewrite Es.
    change (py_index (best :: t) 0) with (Ok (A:=nat * HandStrength.t) best).
    cbn [rbind]. fold test. fold winners.
    rewrite bool_decide_eq_false_2 by exact Hlen0.
    cbn [rbind]. reflexivity.
  - intros seat. rewrite Hwin. split.
    + intros (h & Hin & Hge). exists h. split; [apply Hshown, Hin|].
      intros seat' h' Hs'. apply Hshown in Hs'.
      exact (Htr (seat, h) best (seat', h') Hge (Hbest _ Hs')).
    + intros (h & Hs & Hmax). exists h. split; [apply Hshown, Hs|].
      destruct best as [sb hb]. apply (Hmax sb hb). apply Hshown. exact Hbest_in.
  - intros seat p Hp. rewrite (foldl_credit_lookup w winners g seat Hnd), Hp.
    destruct (decide (seat ∈ winners)); simpl; eexists; split; reflexivity.
  - intros Hw. rewrite winnings_total_const, Hw. field.
    apply inject_Z_of_nat_nonzero. exact Hlen0.
Qed.

Lemma showdown_splits_pot_witness :
  let board := [mkCard TWO HEARTS; mkCard SEVEN CLUBS; mkCard NINE DIAMONDS;
                mkCard JACK SPADES; mkCard KING HEARTS] in
  let p0 := Player.mk "Player 1" 985 [mkCard THREE CLUBS; mkCard FOUR DIAMONDS]
              15 true "BTN" (-1) false 6 in
  let p1 := Player.mk "Player 2" 985 [mkCard THREE DIAMONDS; mkCard FOUR CLUBS]
              15 true "SB" (-1) false 6 in
  let p2 := Player.mk "Player 3" 990 [mkCard ACE CLUBS; mkCard FIVE DIAMONDS]
              10 false "BB" (-1) false 6 in
  let g := PokerGame.mk 3 1000 5 10 false Deck.new [p0; p1; p2] board 40 15 0 in
  Game._resolve_winners g
  = Ok (foldl (Game.credit 20) g [0%nat; 1%nat],
        [(0%nat, 20%Q); (1%nat, 20%Q)])
  /\ exists g' winners w,
    Game._resolve_winners g = Ok (g', map (fun s => (s, w)) winners)
    /\ winners <> [] /\ NoDup winners
    /\ (forall seat,
          seat ∈ winners <->
          exists h, shown_hand g seat h
            /\ forall seat' h', shown_hand g seat' h' ->
                 key_lt (hand_key h) (hand_key h') = false)
    /\ w = fdiv (PokerGame.pot g) (float_of_int (Z.of_nat (length winners)))
    /\ (forall seat p, PokerGame.players g !! seat = Some p ->
          exists p', PokerGame.players g' !! seat = Some p'
            /\ Player.stack p'
               = if decide (seat ∈ winners) then fadd (Player.stack p) w
                 else Player.stack p)
    /\ ((w == PokerGame.pot g / inject_Z (Z.of_nat (length winners)))%Q ->
        (winnings_total (map (fun s => (s, w)) winners) == PokerGame.pot g)%Q).
Proof.
  intros board p0 p1 p2 g.
  split; [vm_compute; reflexivity|].
  apply (showdown_splits_pot g).
  - simpl. lia.
  - intros seat p H.
    assert (Hact : Game.active_players g = [(0%nat, p0); (1%nat, p1)]) by reflexivity.
    rewrite Hact in H.
    apply elem_of_cons in H as [E|H]; [injection E as -> ->; eexists; reflexivity|].
    apply elem_of_cons in H as [E|H]; [injection E as -> ->; eexists; reflexivity|].
    inversion H.
Defined.

(** At a showdown dealt by [play_hand], where every active player holds two
    cards and at least three community cards are out, every hand evaluates:
    the side condition of the theorem above holds. *)
Lemma showdown_hands_evaluate (g : PokerGame.t) :
  (3 <= length (PokerGame.community_cards g))%nat ->
  (forall seat p, (seat, p) ∈ Game.active_players g ->
     length (Player.hole_cards p) = 2%nat) ->
  forall seat p, (seat, p) ∈ Game.active_players g ->
    exists h, Player.evaluate_hand p (PokerGame.community_cards g) = Ok h.
Proof.
  intros Hcc Hhole seat p Hin. unfold Player.evaluate_hand.
  destruct (PokerGame.community_cards g) as [|c cc] eqn:E; [simpl in Hcc; lia|].
  apply _evaluate_cards_total. rewrite length_app, (Hhole seat p Hin).
  simpl in *. lia.
Qed.

(** * Further properties *)

(** ** Deck: drawing and dealing *)

Lemma reachable_invariant d : Deck.reachable d -> Deck.invariant d.
Proof.
  induction 1 as [|d d' _ IH Hstep].
  - apply invariant_new.
  - exact (invariant_step d d' IH Hstep).
Qed.

Lemma draw_invariant d : Deck.invariant d -> Deck.invariant (Deck.draw d).2.
Proof. intros H. apply (invariant_step d); [exact H|constructor]. Qed.

(** X1. On a deck reached from a fresh one, [draw] on an empty deck returns
    [None] and changes nothing; otherwise it returns the last remaining
    card, which leaves the remaining sequence, enters the discards, and can
    afterwards not be dealt by [deal_specific_card]. *)
Theorem draw_takes_last_card (d : Deck.t) :
  Deck.reachable d ->
  match Deck.draw d with
  | (None, d') => Deck.cards d = [] /\ d' = d
  | (Some c, d') =>
      Deck.cards d = Deck.cards d' ++ [c]
      /\ Deck.discarded d' = {[c]} ∪ Deck.discarded d
      /\ (c ∉ Deck.cards d') /\ (c ∉ Deck.discarded d)
      /\ (Deck.remaining d' + 1 = Deck.remaining d)%nat
      /\ Deck.deal_specific_card d' (rank c) (suit c) = (None, d')
  end.
Proof.
  intros Hr. apply reachable_invariant in Hr. destruct Hr as (Hn & Hd & Hu).
  unfold Deck.draw. destruct (Deck.list_pop (Deck.cards d)) as [[c rest]|] eqn:E.
  - apply list_pop_snoc in E. simpl. rewrite E in Hu, Hd.
    apply NoDup_app in Hu as (_ & Hu & _).
    assert (Hc : c ∉ rest).
    { intros Hin. apply (Hu _ Hin). left. }
    split; [exact E|]. split; [reflexivity|]. split; [exact Hc|].
    split; [apply Hd, elem_of_app; right; left|].
    split; [unfold Deck.remaining; simpl; rewrite E, length_app; simpl; lia|].
    unfold Deck.deal_specific_card. simpl.
    destruct c as [r s]. simpl. rewrite (list_remove_absent _ _ Hc). reflexivity.
  - apply list_pop_None in E. split; [exact E|reflexivity].
Qed.

Lemma draw_takes_last_card_witness :
  let d := (Deck.draw (Deck.shuffle (@rev Card) Deck.new)).2 in
  Deck.reachable d
  /\ match Deck.draw d with
     | (None, d') => Deck.cards d = [] /\ d' = d
     | (Some c, d') =>
         Deck.cards d = Deck.cards d' ++ [c]
         /\ Deck.discarded d' = {[c]} ∪ Deck.discarded d
         /\ (c ∉ Deck.cards d') /\ (c ∉ Deck.discarded d)
         /\ (Deck.remaining d' + 1 = Deck.remaining d)%nat
         /\ Deck.deal_specific_card d' (rank c) (suit c) = (None, d')
     end.
Proof.
  intros d.
  assert (H : Deck.reachable d).
  { unfold d.
    eapply Deck.reach_step; [|apply Deck.step_draw].
    eapply Deck.reach_step; [|apply Deck.step_shuffle, Permutation_rev].
    apply Deck.reach_new. }
  split; [exact H|]. exact (draw_takes_last_card d H).
Defined.

Lemma list_remove_present x l :
  x ∈ l -> exists rest, Deck.list_remove x l = Ok rest.
Proof.
  induction l as [|a l IH]; intros Hin; [inversion Hin|].
  simpl. destruct (decide (a = x)) as [_|Hne]; [eexists; reflexivity|].
  apply elem_of_cons in Hin as [Heq|Hin]; [congruence|].
  destruct (IH Hin) as [rest ->]. simpl. eexists. reflexivity.
Qed.

(** X2. Dealing a named card that is among the remaining cards returns it,
    removes it from the sequence without disturbing the order of the
    others, and records it as discarded; asking for it again finds
    nothing. *)
Theorem deal_specific_card_found (d : Deck.t) (r : Rank) (s : Suit) :
  Deck.reachable d -> mkCard r s ∈ Deck.cards d ->
  exists l1 l2,
    Deck.cards d = l1 ++ mkCard r s :: l2
    /\ Deck.deal_specific_card d r s
       = (Some (mkCard r s),
          Deck.mk (l1 ++ l2) ({[mkCard r s]} ∪ Deck.discarded d))
    /\ (mkCard r s ∉ l1 ++ l2)
    /\ Deck.deal_specific_card (Deck.deal_specific_card d r s).2 r s
       = (None, (Deck.deal_specific_card d r s).2).
Proof.
  intros Hr Hin. apply reachable_invariant in Hr. destruct Hr as (_ & _ & Hu).
  destruct (list_remove_present _ _ Hin) as [rest E].
  assert (Hdeal : Deck.deal_specific_card d r s
                  = (Some (mkCard r s),
                     Deck.mk rest ({[mkCard r s]} ∪ Deck.discarded d))).
  { unfold Deck.deal_specific_card. rewrite E. reflexivity. }
  apply list_remove_Ok in E as (l1 & l2 & E & ->).
  exists l1, l2. rewrite E in Hu.
  apply NoDup_app in Hu as (_ & Hu1 & Hu2).
  apply NoDup_cons in Hu2 as (Hc2 & _).
  assert (Hc : mkCard r s ∉ l1 ++ l2).
  { intros H. apply elem_of_app in H as [H|H]; [|contradiction].
    apply (Hu1 _ H). left. }
  split; [exact E|]. split; [exact Hdeal|]. split; [exact Hc|].
  rewrite Hdeal. simpl. unfold Deck.deal_specific_card. simpl.
  rewrite (list_remove_absent _ _ Hc). reflexivity.
Qed.

Lemma deal_specific_card_found_witness :
  let d := (Deck.draw (Deck.shuffle (@rev Card) Deck.new)).2 in
  Deck.reachable d /\ (mkCard QUEEN CLUBS ∈ Deck.cards d)
  /\ exists l1 l2,
    Deck.cards d = l1 ++ mkCard QUEEN CLUBS :: l2
    /\ Deck.deal_specific_card d QUEEN CLUBS
       = (Some (mkCard QUEEN CLUBS),
          Deck.mk (l1 ++ l2) ({[mkCard QUEEN CLUBS]} ∪ Deck.discarded d))
    /\ (mkCard QUEEN CLUBS ∉ l1 ++ l2)
    /\ Deck.deal_specific_card (Deck.deal_specific_card d QUEEN CLUBS).2 QUEEN CLUBS
       = (None, (Deck.deal_specific_card d QUEEN CLUBS).2).
Proof.
  intros d.
  assert (H : Deck.reachable d).
  { unfold d.
    eapply Deck.reach_step; [|apply Deck.step_draw].
    eapply Deck.reach_step; [|apply Deck.step_shuffle, Permutation_rev].
    apply Deck.reach_new. }
  assert (Hin : mkCard QUEEN CLUBS ∈ Deck.cards d).
  { apply (bool_decide_unpack _). vm_compute. exact I. }
  split; [exact H|]. split; [exact Hin|].
  exact (deal_specific_card_found d QUEEN CLUBS H Hin).
Defined.

Lemma full_deck_complete (c : Card) : c ∈ Deck.full_deck.
Proof.
  destruct c as [r s]. apply (bool_decide_unpack _).
  destruct r, s; vm_compute; exact I.
Qed.

(** X3. Whatever the deck has been through, [reset] leaves the 52 cards,
    each of them present, and no discards. *)
Theorem reset_restores_full_deck
    (f : list Card -> list Card) (d : Deck.t) :
  (forall l, Permutation l (f l)) ->
  Deck.remaining (Deck.reset f d) = 52%nat
  /\ Deck.discarded (Deck.reset f d) = ∅
  /\ NoDup (Deck.cards (Deck.reset f d))
  /\ forall c, c ∈ Deck.cards (Deck.reset f d).
Proof.
  intros Hf. unfold Deck.reset, Deck.shuffle, Deck.remaining. simpl.
  pose proof (Hf Deck.full_deck) as Hp.
  split; [rewrite <- (Permutation_length Hp); reflexivity|].
  split; [reflexivity|].
  split; [rewrite <- Hp; apply full_deck_NoDup|].
  intros c. rewrite <- Hp. apply full_deck_complete.
Qed.

Lemma reset_restores_full_deck_witness :
  let d := (draw_many 52 Deck.new).2 in
  (forall l : list Card, Permutation l (rev l))
  /\ Deck.remaining d = 0%nat
  /\ Deck.remaining (Deck.reset (@rev Card) d) = 52%nat
  /\ Deck.discarded (Deck.reset (@rev Card) d) = ∅
  /\ NoDup (Deck.cards (Deck.reset (@rev Card) d))
  /\ forall c, c ∈ Deck.cards (Deck.reset (@rev Card) d).
Proof.
  intros d. split; [exact (@Permutation_rev Card)|].
  split; [reflexivity|].
  exact (reset_restores_full_deck (@rev Card) d (@Permutation_rev Card)).
Defined.

Lemma draw_many_spec k : forall d,
  Deck.invariant d ->
  (draw_many k d).1 = rev (drop (length (Deck.cards d) - k) (Deck.cards d))
  /\ Deck.cards (draw_many k d).2 = take (length (Deck.cards d) - k) (Deck.cards d)
  /\ Deck.invariant (draw_many k d).2.
Proof.
  induction k as [|k IH]; intros d Hinv.
  - simpl. rewrite Nat.sub_0_r, drop_all, take_ge by lia. auto.
  - simpl. pose proof (draw_invariant d Hinv) as Hinv'.
    unfold Deck.draw in *.
    destruct (Deck.list_pop (Deck.cards d)) as [[c rest]|] eqn:E.
    + apply list_pop_snoc in E. simpl in Hinv'.
      destruct (IH _ Hinv') as (H1 & H2 & H3). simpl in H1, H2.
      destruct (draw_many k _) as [cs d''] eqn:Ed. simpl in *.
      rewrite E, length_app. simpl.
      replace (length rest + 1 - S k)%nat with (length rest - k)%nat by lia.
      rewrite drop_app_le, take_app_le by lia.
      rewrite rev_app_distr. simpl. rewrite H1, H2. auto.
    + apply list_pop_None in E. simpl. rewrite E. simpl. auto.
Qed.

(** X4. Successive draws from a deck reached from a fresh one hand out the
    remaining cards from the end of the sequence backwards, each at most
    once, and stop when the deck is empty. *)
Theorem successive_draws_distinct (k : nat) (d : Deck.t) :
  Deck.reachable d ->
  (draw_many k d).1 = rev (drop (Deck.remaining d - k) (Deck.cards d))
  /\ length (draw_many k d).1 = Nat.min k (Deck.remaining d)
  /\ NoDup (draw_many k d).1
  /\ Deck.remaining (draw_many k d).2 = (Deck.remaining d - k)%nat
  /\ (forall c, c ∈ (draw_many k d).1 -> c ∉ Deck.cards (draw_many k d).2).
Proof.
  intros Hr. apply reachable_invariant in Hr.
  destruct (draw_many_spec k d Hr) as (H1 & H2 & H3).
  destruct Hr as (_ & _ & Hu). unfold Deck.remaining.
  set (n := length (Deck.cards d)) in *.
  assert (Hsplit : Deck.cards d
                   = take (n - k) (Deck.cards d) ++ drop (n - k) (Deck.cards d))
    by (symmetry; apply take_drop).
  rewrite Hsplit in Hu. apply NoDup_app in Hu as (_ & Hdisj & Hu2).
  split; [exact H1|].
  split; [rewrite H1, length_rev, length_drop; lia|].
  split; [rewrite H1, <- Permutation_rev; exact Hu2|].
  split; [rewrite H2, length_take; lia|].
  intros c Hc Hin. rewrite H1 in Hc. rewrite H2 in Hin.
  rewrite <- Permutation_rev in Hc. exact (Hdisj _ Hin Hc).
Qed.

Lemma successive_draws_distinct_witness :
  Deck.reachable Deck.new
  /\ (draw_many 60 Deck.new).1 = rev (drop (Deck.remaining Deck.new - 60) (Deck.cards Deck.new))
  /\ length (draw_many 60 Deck.new).1 = Nat.min 60 (Deck.remaining Deck.new)
  /\ NoDup (draw_many 60 Deck.new).1
  /\ Deck.remaining (draw_many 60 Deck.new).2 = (Deck.remaining Deck.new - 60)%nat
  /\ (forall c, c ∈ (draw_many 60 Deck.new).1 ->
                c ∉ Deck.cards (draw_many 60 Deck.new).2).
Proof.
  split; [apply Deck.reach_new|].
  exact (successive_draws_distinct 60 Deck.new Deck.reach_new).
Defined.

(** ** Evaluator: tie-breaks *)

Lemma insert_desc_map {A} (key : A -> Z) (x : A) (l : list A) :
  map key (insert_desc (fun a b => key a <? key b) x l)
  = insert_desc Z.ltb (key x) (map key l).
Proof.
  induction l as [|y l IH]; simpl; [reflexivity|].
  destruct (key x <? key y); simpl; [rewrite IH|]; reflexivity.
Qed.

Lemma py_sorted_rev_map {A} (key : A -> Z) (l : list A) :
  map key (py_sorted_rev (fun a b => key a <? key b) l)
  = py_sorted_rev Z.ltb (map key l).
Proof.
  induction l as [|x l IH]; simpl; [reflexivity|].
  rewrite insert_desc_map, IH. reflexivity.
Qed.

Lemma rank_indices_sorted (cards : list Card) :
  rank_indices (py_sorted_rev card_lt cards)
  = py_sorted_rev Z.ltb (rank_indices cards).
Proof.
  unfold rank_indices.
  exact (py_sorted_rev_map (fun c => rank_index (rank c)) cards).
Qed.

Lemma Zltb_asym a b : (a <? b) = true -> (b <? a) = false.
Proof. rewrite Z.ltb_lt, Z.ltb_ge. lia. Qed.

Lemma Zltb_ge_trans a b c : (a <? b) = false -> (b <? c) = false -> (a <? c) = false.
Proof. rewrite !Z.ltb_ge. lia. Qed.

(** Filtering commutes with the stable descending sort. *)
Lemma filter_insert_desc {A} (lt : A -> A -> bool) (P : A -> Prop)
    `{forall x, Decision (P x)} (x : A) (l : list A) :
  (forall a b c, lt a b = false -> lt b c = false -> lt a c = false) ->
  StronglySorted (desc_ok lt) l ->
  filter P (insert_desc lt x l)
  = if decide (P x) then insert_desc lt x (filter P l) else filter P l.
Proof.
  intros Htr Hs. induction Hs as [|y l Hs IH Hy]; simpl.
  - rewrite filter_cons, filter_nil. destruct (decide (P x)); reflexivity.
  - destruct (lt x y) eqn:E.
    + rewrite !filter_cons, IH.
      destruct (decide (P y)), (decide (P x)); simpl; try reflexivity.
      rewrite E. reflexivity.
    + rewrite !filter_cons. destruct (decide (P x)) as [Px|Px]; [|reflexivity].
      destruct (decide (P y)) as [Py|Py]; simpl; [rewrite E; reflexivity|].
      destruct (filter P l) as [|z zs] eqn:Ef; [reflexivity|]. simpl.
      assert (Hz : z ∈ l).
      { assert (Hin : z ∈ filter P l) by (rewrite Ef; left).
        apply list_elem_of_filter in Hin as [_ Hin]. exact Hin. }
      rewrite Forall_forall in Hy.
      rewrite (Htr _ _ _ E (Hy z Hz)). reflexivity.
Qed.

Lemma filter_py_sorted_rev {A} (lt : A -> A -> bool) (P : A -> Prop)
    `{forall x, Decision (P x)} (l : list A) :
  (forall a b, lt a b = true -> lt b a = false) ->
  (forall a b c, lt a b = false -> lt b c = false -> lt a c = false) ->
  filter P (py_sorted_rev lt l) = py_sorted_rev lt (filter P l).
Proof.
  intros Has Htr. induction l as [|x l IH]; [reflexivity|].
  simpl. rewrite filter_insert_desc by
    (try exact Htr; apply py_sorted_rev_sorted; assumption).
  rewrite filter_cons, IH. destruct (decide (P x)); reflexivity.
Qed.

Lemma card_lt_asym a b : card_lt a b = true -> card_lt b a = false.
Proof. apply Zltb_asym. Qed.

Lemma card_lt_ge_trans a b c :
  card_lt a b = false -> card_lt b c = false -> card_lt a c = false.
Proof. apply Zltb_ge_trans. Qed.

Ltac tie_break_leaf :=
  let H := fresh "H" in
  let Hr := fresh "Hr" in
  intros H; injection H as <-; intros Hr;
  first [reflexivity | discriminate Hr].

Ltac tie_break_skip t :=
  destruct t as [[|? ?]|];
  [ | destruct (decide _); tie_break_leaf | ].

Ltac tie_break_skip_res t :=
  destruct t as [[[|? ?]|]|?]; cbn [rbind];
  [ | destruct (decide _); tie_break_leaf | | intros; discriminate ].

Lemma high_card_value (cards : list Card) (h : HandStrength.t) :
  _evaluate_cards cards = Ok h -> HandStrength.rank h = HIGH_CARD ->
  h = high_card_of (py_sorted_rev card_lt cards).
Proof.
  unfold _evaluate_cards.
  set (s := py_sorted_rev card_lt cards).
  destruct (_check_straight_flush s) as [[|c l]|].
  2:{ destruct (decide _); [destruct (decide _)|]; tie_break_leaf. }
  all: tie_break_skip_res (_check_four_of_a_kind s).
  all: tie_break_skip (_check_full_house s).
  all: tie_break_skip (_check_flush s).
  all: tie_break_skip (_check_straight s).
  all: tie_break_skip (_check_three_of_a_kind s).
  all: tie_break_skip_res (_check_two_pair s).
  all: tie_break_skip (_check_pair s).
  all: tie_break_leaf.
Qed.

(** X5. Whenever [_evaluate_cards] answers [HIGH_CARD], the tie-break is the
    list of the (at most) five greatest rank indices of the input, greatest
    first. *)
Theorem high_card_tie_break (cards : list Card) (h : HandStrength.t) :
  _evaluate_cards cards = Ok h -> HandStrength.rank h = HIGH_CARD ->
  HandStrength.high_cards h = take 5 (py_sorted_rev Z.ltb (rank_indices cards))
  /\ Permutation (py_sorted_rev Z.ltb (rank_indices cards)) (rank_indices cards)
  /\ StronglySorted (fun a b => b <= a) (py_sorted_rev Z.ltb (rank_indices cards))
  /\ length (HandStrength.high_cards h) = Nat.min 5 (length cards).
Proof.
  intros H Hr. rewrite (high_card_value cards h H Hr). unfold high_card_of. simpl.
  split.
  - unfold rank_indices at 1. change (map ?f ?l) with (f <$> l).
    rewrite fmap_take. change (?f <$> ?l) with (map f l).
    fold (rank_indices (py_sorted_rev card_lt cards)).
    rewrite rank_indices_sorted. reflexivity.
  - split; [apply py_sorted_rev_perm|]. split.
    + pose proof (py_sorted_rev_sorted Z.ltb Zltb_asym Zltb_ge_trans
                    (rank_indices cards)) as Hs.
      induction Hs as [|a l Hs IH Ha]; constructor; [exact IH|].
      eapply Forall_impl; [exact Ha|]. intros b Hb. unfold desc_ok in Hb.
      apply Z.ltb_ge in Hb. exact Hb.
    + unfold rank_indices. rewrite length_map, length_take.
      rewrite (Permutation_length (py_sorted_rev_perm card_lt cards)). reflexivity.
Qed.

Lemma high_card_tie_break_witness :
  let cards := [mkCard SEVEN HEARTS; mkCard KING CLUBS; mkCard TWO SPADES;
                mkCard NINE DIAMONDS; mkCard FOUR HEARTS; mkCard JACK CLUBS] in
  let h := HandStrength.mk HIGH_CARD [11; 9; 7; 5; 2] in
  _evaluate_cards cards = Ok h
  /\ HandStrength.high_cards h = take 5 (py_sorted_rev Z.ltb (rank_indices cards))
  /\ length (HandStrength.high_cards h) = Nat.min 5 (length cards).
Proof.
  intros cards h.
  assert (E : _evaluate_cards cards = Ok h) by reflexivity.
  destruct (high_card_tie_break cards h E eq_refl) as (H1 & _ & _ & H4).
  split; [exact E|]. split; [exact H1|exact H4].
Defined.

Ltac made_hand_leaf :=
  let H := fresh "H" in
  let Hr := fresh "Hr" in
  intros H; injection H as <-; cbn [HandStrength.rank HandStrength.high_cards];
  repeat split; intros Hr; simpl in Hr;
  first [ discriminate Hr
        | do 2 eexists; split; [reflexivity|split; [eassumption|reflexivity]] ].

Ltac made_hand_test t :=
  let E := fresh "E" in
  destruct t as [[|? ?]|] eqn:E;
  [ | destruct (decide _); made_hand_leaf | ].

Ltac made_hand_test_res t :=
  let E := fresh "E" in
  destruct t as [[[|? ?]|]|?] eqn:E; cbn [rbind];
  [ | destruct (decide _); made_hand_leaf | | intros; discriminate ].

(** The made hands of five cards come from their own detector, which
    returned exactly five cards, and take the tie-break from that list. *)
Lemma _evaluate_cards_made_hand (cards : list Card) (h : HandStrength.t) :
  _evaluate_cards cards = Ok h ->
  (HandStrength.rank h = STRAIGHT_FLUSH ->
   exists c l, _check_straight_flush (py_sorted_rev card_lt cards) = Some (c :: l)
     /\ length (c :: l) = 5%nat
     /\ HandStrength.high_cards h = [rank_index (rank c)])
  /\ (HandStrength.rank h = FULL_HOUSE ->
      exists c l, _check_full_house (py_sorted_rev card_lt cards) = Some (c :: l)
        /\ length (c :: l) = 5%nat
        /\ HandStrength.high_cards h = [rank_index (rank c)])
  /\ (HandStrength.rank h = FLUSH ->
      exists c l, _check_flush (py_sorted_rev card_lt cards) = Some (c :: l)
        /\ length (c :: l) = 5%nat
        /\ HandStrength.high_cards h = rank_indices (take 5 (c :: l)))
  /\ (HandStrength.rank h = STRAIGHT ->
      exists c l, _check_straight (py_sorted_rev card_lt cards) = Some (c :: l)
        /\ length (c :: l) = 5%nat
        /\ HandStrength.high_cards h = [rank_index (rank c)]).
Proof.
  unfold _evaluate_cards.
  set (s := py_sorted_rev card_lt cards).
  destruct (_check_straight_flush s) as [[|c l]|] eqn:Hsf.
  2:{ destruct (decide _); [destruct (decide _)|]; made_hand_leaf. }
  all: made_hand_test_res (_check_four_of_a_kind s).
  all: made_hand_test (_check_full_house s).
  all: made_hand_test (_check_flush s).
  all: made_hand_test (_check_straight s).
  all: made_hand_test (_check_three_of_a_kind s).
  all: made_hand_test_res (_check_two_pair s).
  all: made_hand_test (_check_pair s).
  all: made_hand_leaf.
Qed.

(** ** Evaluator: the flush *)

Lemma flush_scan_Some cards suits l :
  flush_scan cards suits = Some l ->
  exists s, s ∈ suits
    /\ (5 <= length (filter (fun c => suit c = s) cards))%nat
    /\ l = take 5 (filter (fun c => suit c = s) cards).
Proof.
  induction suits as [|s suits IH]; simpl; [discriminate|].
  destruct (bool_decide _) eqn:E.
  - apply bool_decide_eq_true in E. intros H. injection H as <-.
    exists s. split; [left|]. split; [exact E|reflexivity].
  - intros H. destruct (IH H) as (s' & Hs & H5 & ->).
    exists s'. split; [right; exact Hs|]. split; [exact H5|reflexivity].
Qed.

Lemma flush_scan_None cards suits :
  flush_scan cards suits = None <->
  forall s, s ∈ suits -> (length (filter (fun c => suit c = s) cards) < 5)%nat.
Proof.
  induction suits as [|s suits IH]; simpl.
  - split; [intros _ s Hs; inversion Hs|reflexivity].
  - destruct (bool_decide _) eqn:E.
    + apply bool_decide_eq_true in E. split; [discriminate|].
      intros H. specialize (H s ltac:(left)). lia.
    + apply bool_decide_eq_false in E. rewrite IH. split.
      * intros H s' Hs'. apply elem_of_cons in Hs' as [->|Hs']; [lia|auto].
      * intros H s' Hs'. apply H. right. exact Hs'.
Qed.

Lemma all_suits_complete (s : Suit) : s ∈ all_suits.
Proof. destruct s; unfold all_suits; set_solver. Qed.

(** X6. [_check_flush] finds a flush exactly when some suit has five cards
    or more; it returns five cards of one suit, the first five of that suit
    in the order given.  When [_evaluate_cards] answers [FLUSH], the
    tie-break lists the rank indices of the five highest cards of such a
    suit, greatest first. *)
Theorem flush_detection (cards : list Card) :
  (_check_flush cards = None <->
   forall s, (length (filter (fun c => suit c = s) cards) < 5)%nat)
  /\ (forall l, _check_flush cards = Some l ->
        length l = 5%nat
        /\ exists s, (forall c, c ∈ l -> suit c = s)
             /\ l = take 5 (filter (fun c => suit c = s) cards))
  /\ (forall h, _evaluate_cards cards = Ok h ->
        HandStrength.rank h = FLUSH ->
        exists s, (5 <= length (filter (fun c => suit c = s) cards))%nat
          /\ HandStrength.high_cards h
             = take 5 (py_sorted_rev Z.ltb
                         (rank_indices (filter (fun c => suit c = s) cards)))).
Proof.
  split; [|split].
  - unfold _check_flush. rewrite flush_scan_None. split.
    + intros H s. apply H, all_suits_complete.
    + intros H s _. apply H.
  - intros l H. destruct (flush_scan_Some _ _ _ H) as (s & _ & H5 & ->).
    split; [rewrite length_take; lia|].
    exists s. split; [|reflexivity].
    intros c Hc. apply elem_of_take in Hc as (i & Hi & _).
    apply list_elem_of_lookup_2 in Hi.
    apply list_elem_of_filter in Hi as [Hs _]. exact Hs.
  - intros h H Hr.
    destruct (_evaluate_cards_made_hand cards h H) as (_ & _ & Hfl & _).
    destruct (Hfl Hr) as (c & l & Hd & Hlen & ->).
    destruct (flush_scan_Some _ _ _ Hd) as (s & _ & H5 & El).
    exists s.
    rewrite (filter_py_sorted_rev card_lt _ cards card_lt_asym card_lt_ge_trans)
      in H5, El.
    split.
    + rewrite (Permutation_length (py_sorted_rev_perm _ _)) in H5. exact H5.
    + rewrite El, take_take. change (5 `min` 5)%nat with 5%nat.
      unfold rank_indices at 1. change (map ?f ?l) with (f <$> l).
      rewrite fmap_take. change (?f <$> ?l) with (map f l).
      fold (rank_indices (py_sorted_rev card_lt
                            (filter (fun c => suit c = s) cards))).
      rewrite rank_indices_sorted. reflexivity.
Qed.

Lemma flush_detection_witness :
  let cards := [mkCard FOUR HEARTS; mkCard KING HEARTS; mkCard KING SPADES;
                mkCard TWO HEARTS; mkCard NINE HEARTS; mkCard JACK HEARTS;
                mkCard SEVEN HEARTS] in
  let h := HandStrength.mk FLUSH [11; 9; 7; 5; 2] in
  _evaluate_cards cards = Ok h
  /\ exists s, (5 <= length (filter (fun c => suit c = s) cards))%nat
       /\ HandStrength.high_cards h
          = take 5 (py_sorted_rev Z.ltb
                      (rank_indices (filter (fun c => suit c = s) cards))).
Proof.
  intros cards h.
  assert (E : _evaluate_cards cards = Ok h) by reflexivity.
  split; [exact E|].
  exact (proj2 (proj2 (flush_detection cards)) h E eq_refl).
Defined.

(** ** Evaluator: the full house *)

Lemma key_in_items (items : list (Rank * nat)) r n :
  (r, n) ∈ items -> r ∈ map fst items.
Proof.
  intros H. change (r ∈ fst <$> items). apply list_elem_of_fmap.
  exists (r, n). auto.
Qed.

Lemma full_house_scan_sound items : forall t0 p0 t p,
  NoDup (map fst items) ->
  (forall r, t0 = Some r -> r ∉ map fst items) ->
  (forall r, p0 = Some r -> r ∉ map fst items) ->
  (forall a b, t0 = Some a -> p0 = Some b -> a <> b) ->
  full_house_scan items t0 p0 = (Some t, Some p) ->
  t <> p
  /\ (t0 = Some t \/ exists n, (t, n) ∈ items /\ (3 <= n)%nat)
  /\ (p0 = Some p \/ exists n, (p, n) ∈ items /\ (2 <= n)%nat).
Proof.
  induction items as [|[r n] items IH]; intros t0 p0 t p Hnd Ht Hp Hne; simpl.
  - intros H. injection H as -> ->. split; [eapply Hne; reflexivity|]. auto.
  - simpl in Hnd. apply NoDup_cons in Hnd as [Hr Hnd].
    assert (Hrest : forall q o, o = Some q -> q ∉ map fst ((r, n) :: items) ->
                                q ∉ map fst items).
    { intros q o _ Hq Hin. apply Hq. right. exact Hin. }
    assert (Hlift : forall q (k : nat),
              (exists m, (q, m) ∈ items /\ (k <= m)%nat) ->
              exists m, (q, m) ∈ (r, n) :: items /\ (k <= m)%nat).
    { intros q k (m & Hm & Hk). exists m. split; [right; exact Hm|exact Hk]. }
    destruct (bool_decide (3 <= n)%nat && bool_decide (t0 = None)) eqn:EA.
    + apply andb_true_iff in EA as [E3 Et].
      apply bool_decide_eq_true in E3, Et. subst t0. intros H.
      destruct (IH (Some r) p0 t p Hnd) as (H1 & H2 & H3); try assumption.
      * intros q Hq. injection Hq as <-. exact Hr.
      * intros q Hq. eapply Hrest; [exact Hq|]. apply Hp, Hq.
      * intros a b Ha Hb. injection Ha as <-. intros ->.
        apply (Hp _ Hb). left.
      * split; [exact H1|]. split.
        -- right. destruct H2 as [H2|H2]; [|apply Hlift, H2].
           injection H2 as <-. exists n. split; [left|exact E3].
        -- destruct H3 as [H3|H3]; [left; exact H3|right; apply Hlift, H3].
    + destruct (bool_decide (2 <= n)%nat && bool_decide (p0 = None)) eqn:EB.
      * apply andb_true_iff in EB as [E2 Ep].
        apply bool_decide_eq_true in E2, Ep. subst p0. intros H.
        destruct (IH t0 (Some r) t p Hnd) as (H1 & H2 & H3); try assumption.
        -- intros q Hq. eapply Hrest; [exact Hq|]. apply Ht, Hq.
        -- intros q Hq. injection Hq as <-. exact Hr.
        -- intros a b Ha Hb. injection Hb as <-. intros ->.
           apply (Ht _ Ha). left.
        -- split; [exact H1|]. split.
           ++ destruct H2 as [H2|H2]; [left; exact H2|right; apply Hlift, H2].
           ++ right. destruct H3 as [H3|H3]; [|apply Hlift, H3].
              injection H3 as <-. exists n. split; [left|exact E2].
      * intros H.
        destruct (IH t0 p0 t p Hnd) as (H1 & H2 & H3); try assumption.
        -- intros q Hq. eapply Hrest; [exact Hq|]. apply Ht, Hq.
        -- intros q Hq. eapply Hrest; [exact Hq|]. apply Hp, Hq.
        -- split; [exact H1|]. split.
           ++ destruct H2 as [H2|H2]; [left; exact H2|right; apply Hlift, H2].
           ++ destruct H3 as [H3|H3]; [left; exact H3|right; apply Hlift, H3].
Qed.

Lemma full_house_scan_complete items : forall t0 p0,
  (is_Some t0 \/ (exists r n, (r, n) ∈ items /\ (3 <= n)%nat) ->
   is_Some (full_house_scan items t0 p0).1)
  /\ (is_Some p0 -> is_Some (full_house_scan items t0 p0).2)
  /\ (is_Some t0 -> (exists r n, (r, n) ∈ items /\ (2 <= n)%nat) ->
      is_Some (full_house_scan items t0 p0).2)
  /\ (t0 = None ->
      (exists r1 n1 r2 n2, r1 <> r2 /\ (r1, n1) ∈ items /\ (3 <= n1)%nat
                           /\ (r2, n2) ∈ items /\ (2 <= n2)%nat) ->
      is_Some (full_house_scan items t0 p0).2).
Proof.
  induction items as [|[r n] items IH]; intros t0 p0; simpl.
  - split; [intros [H|(r & n & H & _)]; [exact H|inversion H]|].
    split; [auto|]. split.
    + intros _ (r & n & H & _). inversion H.
    + intros _ (r1 & n1 & r2 & n2 & _ & H & _). inversion H.
  - destruct (bool_decide (3 <= n)%nat && bool_decide (t0 = None)) eqn:EA.
    + apply andb_true_iff in EA as [E3 Et].
      apply bool_decide_eq_true in E3, Et. subst t0.
      destruct (IH (Some r) p0) as (I1 & I2 & I3 & _).
      split; [intros _; apply I1; left; eexists; reflexivity|].
      split; [exact I2|]. split; [intros [? H]; discriminate H|].
      intros _ (r1 & n1 & r2 & n2 & Hne & H1 & Hn1 & H2 & Hn2).
      apply I3; [eexists; reflexivity|].
      apply elem_of_cons in H1 as [E1|H1], H2 as [E2|H2].
      * congruence.
      * exists r2, n2. auto.
      * exists r1, n1. split; [exact H1|lia].
      * exists r2, n2. auto.
    + assert (HA : (3 <= n)%nat -> is_Some t0).
      { intros H3. apply andb_false_iff in EA as [E|E];
          apply bool_decide_eq_false in E; [lia|].
        destruct t0; [eexists; reflexivity|congruence]. }
      destruct (bool_decide (2 <= n)%nat && bool_decide (p0 = None)) eqn:EB.
      * apply andb_true_iff in EB as [E2 Ep].
        apply bool_decide_eq_true in E2, Ep. subst p0.
        destruct (IH t0 (Some r)) as (I1 & I2 & _ & _).
        assert (Hp : is_Some (full_house_scan items t0 (Some r)).2)
          by (apply I2; eexists; reflexivity).
        split; [|auto].
        intros [H|(q & m & H & Hm)]; [apply I1; left; exact H|].
        apply elem_of_cons in H as [E|H].
        -- injection E as -> ->. apply I1. left. apply HA, Hm.
        -- apply I1. right. exists q, m. auto.
      * assert (HB : (2 <= n)%nat -> is_Some p0).
        { intros H2. apply andb_false_iff in EB as [E|E];
            apply bool_decide_eq_false in E; [lia|].
          destruct p0; [eexists; reflexivity|congruence]. }
        destruct (IH t0 p0) as (I1 & I2 & I3 & I4).
        split; [|split; [exact I2|split]].
        -- intros [H|(q & m & H & Hm)]; [apply I1; left; exact H|].
           apply elem_of_cons in H as [E|H].
           ++ injection E as -> ->. apply I1. left. apply HA, Hm.
           ++ apply I1. right. exists q, m. auto.
        -- intros Ht (q & m & H & Hm).
           apply elem_of_cons in H as [E|H].
           ++ injection E as -> ->. apply I2, HB, Hm.
           ++ apply I3; [exact Ht|]. exists q, m. auto.
        -- intros Ht (r1 & n1 & r2 & n2 & Hne & H1 & Hn1 & H2 & Hn2).
           apply elem_of_cons in H1 as [E1|H1].
           { injection E1 as -> ->. subst t0.
             destruct (HA Hn1) as [? Hx]. discriminate Hx. }
           apply elem_of_cons in H2 as [E2|H2].
           { injection E2 as -> ->. apply I2, HB, Hn2. }
           apply I4; [exact Ht|]. exists r1, n1, r2, n2. auto.
Qed.

Lemma _check_full_house_sound cs l :
  _check_full_house cs = Some l ->
  exists t p, t <> p /\ (3 <= rank_count t cs)%nat
    /\ (2 <= rank_count p cs)%nat
    /\ l = take 3 (of_rank t cs) ++ take 2 (of_rank p cs).
Proof.
  unfold _check_full_house.
  destruct (full_house_scan (rank_counts cs) None None) as [[t|] [p|]] eqn:E;
    try discriminate.
  intros H. injection H as <-.
  destruct (full_house_scan_sound (rank_counts cs) None None t p) as (H1 & H2 & H3).
  - apply rank_counts_spec.
  - discriminate.
  - discriminate.
  - discriminate.
  - exact E.
  - destruct H2 as [H2|(n2 & H2 & Hn2)]; [discriminate|].
    destruct H3 as [H3|(n3 & H3 & Hn3)]; [discriminate|].
    apply rank_counts_exact in H2, H3. subst n2 n3.
    exists t, p. auto.
Qed.

Lemma _check_full_house_length cs l :
  _check_full_house cs = Some l -> length l = 5%nat.
Proof.
  intros H. destruct (_check_full_house_sound _ _ H) as (t & p & _ & H2 & H3 & ->).
  unfold rank_count in *. rewrite length_app, !length_take. lia.
Qed.

Lemma _check_full_house_complete cards t p :
  t <> p -> (3 <= rank_count t cards)%nat -> (2 <= rank_count p cards)%nat ->
  exists c l, _check_full_house cards = Some (c :: l).
Proof.
  intros Hne Ht Hp.
  assert (Hs : is_Some (_check_full_house cards)).
  { unfold _check_full_house.
    destruct (full_house_scan_complete (rank_counts cards) None None)
      as (I1 & _ & _ & I4).
    destruct (full_house_scan (rank_counts cards) None None) as [t' p'].
    simpl in I1, I4.
    destruct I1 as [t1 ->].
    { right. exists t, (rank_count t cards).
      split; [apply rank_counts_has; lia|exact Ht]. }
    destruct I4 as [p1 ->]; [reflexivity| |eexists; reflexivity].
    exists t, (rank_count t cards), p, (rank_count p cards).
    split; [exact Hne|].
    split; [apply rank_counts_has; lia|]. split; [exact Ht|].
    split; [apply rank_counts_has; lia|exact Hp]. }
  destruct Hs as [l Hl]. pose proof (_check_full_house_length _ _ Hl) as Hlen.
  destruct l as [|c l]; [discriminate Hlen|]. eauto.
Qed.

(** X7. [_check_full_house] finds a full house exactly when one rank is held
    three times (or more) and another rank twice (or more); what it returns
    are five cards, three of the first rank followed by two of the second.
    When [_evaluate_cards] answers [FULL_HOUSE], the tie-break is the index
    of a rank held three times; the rank of the pair is not part of it. *)
Theorem full_house_detection (cards : list Card) :
  (is_Some (_check_full_house cards) <->
   exists t p, t <> p /\ (3 <= rank_count t cards)%nat
               /\ (2 <= rank_count p cards)%nat)
  /\ (forall l, _check_full_house cards = Some l ->
        length l = 5%nat
        /\ exists t p, t <> p /\ (3 <= rank_count t cards)%nat
             /\ (2 <= rank_count p cards)%nat
             /\ l = take 3 (of_rank t cards) ++ take 2 (of_rank p cards))
  /\ (forall h, _evaluate_cards cards = Ok h ->
        HandStrength.rank h = FULL_HOUSE ->
        exists t p, t <> p /\ (3 <= rank_count t cards)%nat
          /\ (2 <= rank_count p cards)%nat
          /\ HandStrength.high_cards h = [rank_index t]).
Proof.
  split; [|split].
  - split.
    + intros [l Hl].
      destruct (_check_full_house_sound _ _ Hl) as (t & p & H1 & H2 & H3 & _).
      exists t, p. auto.
    + intros (t & p & Hne & Ht & Hp).
      destruct (_check_full_house_complete cards t p Hne Ht Hp) as (c & l & ->).
      eexists. reflexivity.
  - intros l Hl. split; [eapply _check_full_house_length; exact Hl|].
    apply _check_full_house_sound. exact Hl.
  - intros h H Hr.
    destruct (_evaluate_cards_made_hand cards h H) as (_ & Hfh & _ & _).
    destruct (Hfh Hr) as (c & l & Hd & _ & ->).
    destruct (_check_full_house_sound _ _ Hd) as (t & p & H1 & H2 & H3 & El).
    pose proof (sorted_cards_perm cards) as Hp.
    exists t, p. split; [exact H1|].
    rewrite <- (rank_count_perm t _ _ Hp), <- (rank_count_perm p _ _ Hp).
    split; [exact H2|]. split; [exact H3|].
    assert (Hc : c ∈ of_rank t (py_sorted_rev card_lt cards)).
    { unfold rank_count in H2.
      destruct (of_rank t (py_sorted_rev card_lt cards)) as [|x xs];
        [simpl in H2; lia|].
      simpl in El. injection El as -> _. left. }
    apply list_elem_of_filter in Hc as [-> _]. reflexivity.
Qed.

Lemma full_house_detection_witness :
  let cards := [mkCard FOUR HEARTS; mkCard KING HEARTS; mkCard KING SPADES;
                mkCard FOUR CLUBS; mkCard NINE HEARTS; mkCard FOUR SPADES;
                mkCard KING DIAMONDS] in
  let h := HandStrength.mk FULL_HOUSE [11] in
  _evaluate_cards cards = Ok h
  /\ exists t p, t <> p /\ (3 <= rank_count t cards)%nat
       /\ (2 <= rank_count p cards)%nat
       /\ HandStrength.high_cards h = [rank_index t].
Proof.
  intros cards h.
  assert (E : _evaluate_cards cards = Ok h) by reflexivity.
  split; [exact E|].
  exact (proj2 (proj2 (full_house_detection cards)) h E eq_refl).
Defined.

(** ** Evaluator: the straight *)

Lemma rank_index_inj a b : rank_index a = rank_index b -> a = b.
Proof. destruct a, b; simpl; intros H; first [reflexivity|discriminate H]. Qed.

Lemma find_seq_first (f : nat -> bool) n : forall a i,
  List.find f (seq a n) = Some i ->
  forall j, (a <= j < i)%nat -> f j = false.
Proof.
  induction n as [|n IH]; intros a i; simpl; [discriminate|].
  destruct (f a) eqn:E.
  - intros H. injection H as <-. intros j Hj. lia.
  - intros H j Hj. destruct (decide (j = a)) as [->|Hne]; [exact E|].
    apply (IH _ _ H). lia.
Qed.

Lemma sorted_lookup_lt (ks : list Z) :
  StronglySorted Z.lt ks ->
  forall i j a b, ks !! i = Some a -> ks !! j = Some b -> (i < j)%nat -> a < b.
Proof.
  induction 1 as [|x l Hs IH Hx]; intros i j a b Hi Hj Hlt.
  - discriminate.
  - destruct j as [|j]; [lia|]. simpl in Hj. destruct i as [|i].
    + simpl in Hi. injection Hi as <-. rewrite Forall_forall in Hx.
      apply Hx. eapply list_elem_of_lookup_2. exact Hj.
    + simpl in Hi. apply (IH i j); [assumption|assumption|lia].
Qed.

(** In a strictly ascending list of integers, a value and its successor
    stand next to each other. *)
Lemma sorted_succ (ks : list Z) :
  StronglySorted Z.lt ks ->
  forall p v, ks !! p = Some v -> (v + 1) ∈ ks -> ks !! S p = Some (v + 1).
Proof.
  induction 1 as [|x l Hs IH Hx]; intros p v Hp Hv.
  - discriminate.
  - rewrite Forall_forall in Hx. destruct p as [|p]; simpl in *.
    + injection Hp as ->. apply elem_of_cons in Hv as [Hv|Hv]; [lia|].
      destruct l as [|y l']; [inversion Hv|]. simpl. f_equal.
      pose proof (Hx y ltac:(left)) as Hy.
      apply elem_of_cons in Hv as [Hv|Hv]; [lia|].
      apply StronglySorted_inv in Hs as [_ Hy'].
      rewrite Forall_forall in Hy'. specialize (Hy' _ Hv). lia.
    + apply IH; [exact Hp|].
      apply elem_of_cons in Hv as [Hv|Hv]; [|exact Hv].
      pose proof (Hx v ltac:(eapply list_elem_of_lookup_2; exact Hp)). lia.
Qed.

Lemma sorted_run (ks : list Z) p v :
  StronglySorted Z.lt ks -> ks !! p = Some v ->
  (forall j, 0 <= j < 5 -> (v + j) ∈ ks) ->
  forall j, (j < 5)%nat -> ks !! (p + j)%nat = Some (v + Z.of_nat j).
Proof.
  intros Hs Hp Hall j. induction j as [|j IH]; intros Hj.
  - rewrite Nat.add_0_r, Z.add_0_r. exact Hp.
  - replace (p + S j)%nat with (S (p + j)) by lia.
    replace (v + Z.of_nat (S j)) with (v + Z.of_nat j + 1) by lia.
    apply sorted_succ; [exact Hs|apply IH; lia|].
    replace (v + Z.of_nat j + 1) with (v + (Z.of_nat j + 1)) by lia.
    apply Hall. lia.
Qed.

(** The rank list of [_check_straight], as indices: strictly ascending. *)
Lemma sorted_ranks_strict (rs : list Rank) :
  StronglySorted Z.lt
    (map rank_index
       (py_sorted (fun a b => rank_index a <? rank_index b) (remove_dups rs))).
Proof.
  pose proof (py_sorted_sorted (fun a b => rank_index a <? rank_index b)
                (klt_asym rank_index) (klt_ge_trans rank_index)
                (remove_dups rs)) as Hs.
  assert (Hnd : NoDup (py_sorted (fun a b => rank_index a <? rank_index b)
                         (remove_dups rs))).
  { rewrite py_sorted_perm. apply NoDup_remove_dups. }
  induction Hs as [|x l Hs IH Hx]; simpl; [constructor|].
  apply NoDup_cons in Hnd as [Hx' Hnd].
  constructor; [apply IH, Hnd|].
  apply Forall_forall. intros z Hz.
  change (map rank_index l) with (rank_index <$> l) in Hz.
  apply list_elem_of_fmap in Hz as (y & -> & Hy).
  rewrite Forall_forall in Hx. specialize (Hx y Hy).
  unfold asc_ok in Hx. apply Z.ltb_ge in Hx.
  destruct (decide (rank_index x = rank_index y)) as [E|E]; [|lia].
  apply rank_index_inj in E. subst y. contradiction.
Qed.

Lemma rank_at_index ranks k :
  (k < length ranks)%nat ->
  ranks !! k = Some (rank_at ranks k)
  /\ map rank_index ranks !! k = Some (rank_index (rank_at ranks k)).
Proof.
  intros Hk. unfold rank_at.
  destruct (nth_lookup_or_length ranks k TWO) as [E|E]; [|lia].
  split; [exact E|].
  change (map rank_index ranks) with (rank_index <$> ranks).
  rewrite list_lookup_fmap, E. reflexivity.
Qed.

Lemma run_at_steps ranks i :
  run_at ranks i = true ->
  forall j, (j < 5)%nat ->
    rank_index (rank_at ranks (i + j)) = rank_index (rank_at ranks i) + Z.of_nat j.
Proof.
  unfold run_at. simpl. rewrite !andb_true_iff, !Z.eqb_eq, !Nat.add_0_r.
  intros (H0 & H1 & H2 & H3 & _) j Hj.
  replace (i + 1 + 1)%nat with (i + 2)%nat in * by lia.
  replace (i + 2 + 1)%nat with (i + 3)%nat in * by lia.
  replace (i + 3 + 1)%nat with (i + 4)%nat in * by lia.
  destruct j as [|[|[|[|[|j]]]]]; try lia;
    rewrite ?Nat.add_0_r; simpl Z.of_nat; lia.
Qed.

Lemma run_at_true ranks i :
  (forall j, (j < 5)%nat ->
     rank_index (rank_at ranks (i + j)) = rank_index (rank_at ranks i) + Z.of_nat j) ->
  run_at ranks i = true.
Proof.
  intros H. unfold run_at. simpl. rewrite !andb_true_iff, !Z.eqb_eq, !Nat.add_0_r.
  pose proof (H 0%nat ltac:(lia)) as H0. pose proof (H 1%nat ltac:(lia)) as H1.
  pose proof (H 2%nat ltac:(lia)) as H2. pose proof (H 3%nat ltac:(lia)) as H3.
  pose proof (H 4%nat ltac:(lia)) as H4.
  replace (i + 1 + 1)%nat with (i + 2)%nat by lia.
  replace (i + 2 + 1)%nat with (i + 3)%nat by lia.
  replace (i + 3 + 1)%nat with (i + 4)%nat by lia.
  rewrite Nat.add_0_r in H0. simpl Z.of_nat in *. repeat split; lia.
Qed.

(** What [_check_straight] finds: the Ace-low straight whenever its five
    ranks are held, and otherwise the lowest run of five consecutive ranks;
    the first card of the list is the lowest card of that straight. *)
Lemma _check_straight_lowest cards c l :
  _check_straight cards = Some (c :: l) ->
  (rank c = TWO
   /\ forall r, r ∈ wheel_ranks -> exists x, x ∈ cards /\ rank x = r)
  \/ (holds_run cards (rank_index (rank c))
      /\ forall k', k' < rank_index (rank c) -> ~ holds_run cards k').
Proof.
  unfold _check_straight.
  set (ranks := py_sorted _ (remove_dups (map rank cards))).
  pose proof (sorted_ranks_strict (map rank cards)) as Hsorted.
  fold ranks in Hsorted.
  destruct (_ && _) eqn:Hw.
  - rewrite !andb_true_iff, !bool_decide_eq_true in Hw.
    destruct Hw as ((((HA & H2) & H3) & H4) & H5).
    intros Hres. injection Hres as Hres. left. split.
    + apply sorted_ranks_elem in H2 as (x & Hx & Hr).
      assert (Hin : x ∈ filter (fun c => rank c ∈ wheel_ranks) cards).
      { apply list_elem_of_filter. split; [|exact Hx]. rewrite Hr.
        unfold wheel_ranks. set_solver. }
      pose proof (py_sorted_key_head (fun c => rank_index (rank c)) _ _ _ _ Hres Hin)
        as Hle.
      simpl in Hle. rewrite Hr in Hle. simpl in Hle.
      apply rank_index_inj. pose proof (rank_index_range (rank c)). simpl. lia.
    + intros r Hr. apply sorted_ranks_elem. unfold wheel_ranks in Hr.
      repeat (apply elem_of_cons in Hr as [->|Hr]; [assumption|]).
      inversion Hr.
  - destruct (List.find _ _) as [i|] eqn:Hf; [|discriminate].
    pose proof (find_seq_first _ _ _ _ Hf) as Hfirst.
    apply find_some in Hf as [Hi Hrun].
    apply in_seq in Hi. pose proof (run_at_steps _ _ Hrun) as Hsteps.
    intros Hres. injection Hres as Hres.
    destruct (py_sorted card_lt _) as [|c' l'] eqn:Hs; [discriminate|].
    simpl in Hres. injection Hres as -> _. right.
    assert (Hheld : forall j, (j < 5)%nat ->
              exists x, x ∈ cards /\ rank x = rank_at ranks (i + j)).
    { intros j Hj. apply sorted_ranks_elem. fold ranks.
      eapply list_elem_of_lookup_2. apply rank_at_index. lia. }
    assert (Hc : rank_index (rank c) = rank_index (rank_at ranks i)).
    { assert (Hcin : c ∈ c :: l') by left.
      rewrite <- Hs, py_sorted_perm in Hcin.
      apply list_elem_of_filter in Hcin as [Hcr _].
      apply list_elem_of_lookup_1 in Hcr as (j & Hj).
      pose proof (lookup_lt_Some _ _ _ Hj) as Hjlt.
      rewrite length_take in Hjlt.
      rewrite lookup_take_lt, lookup_drop in Hj by lia.
      destruct (rank_at_index ranks (i + j)) as [Hl _]; [lia|].
      rewrite Hl in Hj. injection Hj as Hj.
      destruct (Hheld 0%nat ltac:(lia)) as (x & Hx & Hr).
      rewrite Nat.add_0_r in Hr.
      assert (Hin : x ∈ filter (fun c => rank c ∈ take 5 (drop i ranks)) cards).
      { apply list_elem_of_filter. split; [|exact Hx]. rewrite Hr.
        apply (list_elem_of_lookup_2 _ 0%nat).
        rewrite lookup_take_lt by lia. rewrite lookup_drop, Nat.add_0_r.
        apply rank_at_index. lia. }
      pose proof (py_sorted_key_head (fun c => rank_index (rank c)) _ _ _ _ Hs Hin)
        as Hle.
      simpl in Hle. rewrite Hr, <- Hj, (Hsteps j) in Hle by lia.
      rewrite <- Hj, (Hsteps j) by lia. lia. }
    rewrite Hc. split.
    + intros j Hj. destruct (Hheld (Z.to_nat j) ltac:(lia)) as (x & Hx & Hr).
      exists x. split; [exact Hx|]. rewrite Hr, Hsteps by lia. lia.
    + intros k' Hk' Hrun'.
      assert (Hall : forall j, 0 <= j < 5 -> (k' + j) ∈ map rank_index ranks).
      { intros j Hj. destruct (Hrun' j Hj) as (x & Hx & Hr). rewrite <- Hr.
        change (map rank_index ranks) with (rank_index <$> ranks).
        apply list_elem_of_fmap. eexists. split; [reflexivity|].
        apply sorted_ranks_elem. eauto. }
      pose proof (Hall 0 ltac:(lia)) as H0. rewrite Z.add_0_r in H0.
      apply list_elem_of_lookup_1 in H0 as (p & Hp).
      pose proof (sorted_run _ _ _ Hsorted Hp Hall) as Hpj.
      pose proof (lookup_lt_Some _ _ _ (Hpj 4%nat ltac:(lia))) as Hlen.
      rewrite length_map in Hlen.
      destruct (rank_at_index ranks i) as [_ Hi']; [lia|].
      assert (Hpi : (p < i)%nat).
      { destruct (decide (p < i)%nat) as [|Hge]; [assumption|exfalso].
        destruct (decide (p = i)) as [->|Hne].
        - rewrite Hp in Hi'. injection Hi' as Hi'. lia.
        - pose proof (sorted_lookup_lt _ Hsorted i p _ _ Hi' Hp ltac:(lia)). lia. }
      assert (Hrp : run_at ranks p = true).
      { apply run_at_true. intros j Hj.
        destruct (rank_at_index ranks (p + j)) as [_ E1]; [lia|].
        rewrite (Hpj j Hj) in E1. injection E1 as E1.
        destruct (rank_at_index ranks p) as [_ E0]; [lia|].
        rewrite Hp in E0. injection E0 as E0. lia. }
      rewrite (Hfirst p) in Hrp by lia. discriminate.
Qed.

(** X8. A [STRAIGHT] answer carries one tie-break value, the index of the
    lowest card of the straight that was found.  The straight found is the
    Ace-low one (tie-break 0, the index of the Two) whenever Ace, Two,
    Three, Four and Five are held; otherwise it is the lowest run of five
    consecutive ranks among the cards, also when a higher run is held. *)
Theorem straight_reports_lowest_run (cards : list Card) (h : HandStrength.t) :
  _evaluate_cards cards = Ok h ->
  HandStrength.rank h = STRAIGHT ->
  exists k, HandStrength.high_cards h = [k]
    /\ ((k = 0 /\ forall r, r ∈ wheel_ranks -> exists x, x ∈ cards /\ rank x = r)
        \/ (holds_run cards k /\ forall k', k' < k -> ~ holds_run cards k')).
Proof.
  intros H Hr.
  destruct (_evaluate_cards_made_hand cards h H) as (_ & _ & _ & Hst).
  destruct (Hst Hr) as (c & l & Hd & _ & ->).
  exists (rank_index (rank c)). split; [reflexivity|].
  pose proof (sorted_cards_perm cards) as Hp.
  assert (Hrun : forall k, holds_run (py_sorted_rev card_lt cards) k
                           <-> holds_run cards k).
  { intros k. unfold holds_run.
    split; intros Hk j Hj; destruct (Hk j Hj) as (x & Hx & E); exists x;
      (split; [|exact E]); [rewrite <- Hp|rewrite Hp]; exact Hx. }
  destruct (_check_straight_lowest _ _ _ Hd) as [[Hc Hw]|[Hh Hmin]].
  - left. split; [rewrite Hc; reflexivity|].
    intros r Hin. destruct (Hw r Hin) as (x & Hx & E). exists x.
    split; [rewrite <- Hp; exact Hx|exact E].
  - right. split; [apply Hrun, Hh|].
    intros k' Hk' Hh'. apply (Hmin k' Hk'). apply Hrun, Hh'.
Qed.

Lemma straight_reports_lowest_run_witness :
  let cards := [mkCard NINE HEARTS; mkCard FIVE SPADES; mkCard SEVEN CLUBS;
                mkCard FOUR HEARTS; mkCard EIGHT DIAMONDS; mkCard SIX SPADES;
                mkCard THREE CLUBS] in
  let h := HandStrength.mk STRAIGHT [1] in
  _evaluate_cards cards = Ok h
  /\ exists k, HandStrength.high_cards h = [k]
       /\ ((k = 0 /\ forall r, r ∈ wheel_ranks ->
                       exists x, x ∈ cards /\ rank x = r)
           \/ (holds_run cards k /\ forall k', k' < k -> ~ holds_run cards k')).
Proof.
  intros cards h.
  assert (E : _evaluate_cards cards = Ok h) by reflexivity.
  split; [exact E|].
  exact (straight_reports_lowest_run cards h E eq_refl).
Defined.

(** ** Evaluator: the straight flush *)

Lemma straight_flush_scan_Some cards suits c l :
  straight_flush_scan cards suits = Some (c :: l) ->
  exists s, s ∈ suits
    /\ _check_straight
         (py_sorted (fun a b => rank_index (rank a) <? rank_index (rank b))
            (filter (fun c => suit c = s) cards)) = Some (c :: l).
Proof.
  induction suits as [|s suits IH]; simpl; [discriminate|].
  destruct (_check_straight _) as [[|c' l']|] eqn:E.
  - intros H. destruct (IH H) as (s' & Hs' & H'). exists s'. split; [right|]; assumption.
  - intros H. injection H as -> ->. exists s. split; [left|exact E].
  - intros H. destruct (IH H) as (s' & Hs' & H'). exists s'. split; [right|]; assumption.
Qed.

(** X9. A [STRAIGHT_FLUSH] answer is found in the cards of one suit, and
    its tie-break is measured like that of a straight: 0, the index of the
    Two, when that suit holds Ace, Two, Three, Four and Five, and otherwise
    the index of the lowest card of the lowest run of five consecutive
    ranks in that suit. *)
Theorem straight_flush_reports_lowest_run (cards : list Card) (h : HandStrength.t) :
  _evaluate_cards cards = Ok h ->
  HandStrength.rank h = STRAIGHT_FLUSH ->
  exists k s,
    HandStrength.high_cards h = [k]
    /\ ((k = 0 /\ forall r, r ∈ wheel_ranks -> mkCard r s ∈ cards)
        \/ (holds_run (filter (fun c => suit c = s) cards) k
            /\ forall k', k' < k ->
                 ~ holds_run (filter (fun c => suit c = s) cards) k')).
Proof.
  intros H Hr.
  destruct (_evaluate_cards_made_hand cards h H) as (Hsf & _).
  destruct (Hsf Hr) as (c & l & Hd & _ & ->).
  apply straight_flush_scan_Some in Hd as (s & _ & Hd).
  exists (rank_index (rank c)), s. split; [reflexivity|].
  set (suited := py_sorted _ _) in Hd.
  assert (Hin : forall x, x ∈ suited <-> x ∈ filter (fun c => suit c = s) cards).
  { intros x. unfold suited. rewrite py_sorted_perm, !list_elem_of_filter.
    rewrite (sorted_cards_perm cards). reflexivity. }
  assert (Hrun : forall k, holds_run suited k
                           <-> holds_run (filter (fun c => suit c = s) cards) k).
  { intros k. unfold holds_run.
    split; intros Hk j Hj; destruct (Hk j Hj) as (x & Hx & E); exists x;
      (split; [apply Hin; exact Hx|exact E]). }
  destruct (_check_straight_lowest _ _ _ Hd) as [[Hc Hw]|[Hh Hmin]].
  - left. split; [rewrite Hc; reflexivity|].
    intros r Hr'. destruct (Hw r Hr') as (x & Hx & E).
    apply Hin in Hx. apply list_elem_of_filter in Hx as [Hs Hx].
    destruct x as [rx sx]. simpl in *. subst. exact Hx.
  - right. split; [apply Hrun, Hh|].
    intros k' Hk' Hh'. apply (Hmin k' Hk'). apply Hrun, Hh'.
Qed.

Lemma straight_flush_reports_lowest_run_witness :
  let cards := [mkCard NINE HEARTS; mkCard FIVE HEARTS; mkCard SEVEN HEARTS;
                mkCard FOUR SPADES; mkCard EIGHT HEARTS; mkCard SIX HEARTS;
                mkCard TEN HEARTS] in
  let h := HandStrength.mk STRAIGHT_FLUSH [3] in
  _evaluate_cards cards = Ok h
  /\ exists k s,
       HandStrength.high_cards h = [k]
       /\ ((k = 0 /\ forall r, r ∈ wheel_ranks -> mkCard r s ∈ cards)
           \/ (holds_run (filter (fun c => suit c = s) cards) k
               /\ forall k', k' < k ->
                    ~ holds_run (filter (fun c => suit c = s) cards) k')).
Proof.
  intros cards h.
  assert (E : _evaluate_cards cards = Ok h) by reflexivity.
  split; [exact E|].
  exact (straight_flush_reports_lowest_run cards h E eq_refl).
Defined.

(** ** Evaluator: when it raises *)

Lemma four_of_a_kind_scan_raise cards items e :
  four_of_a_kind_scan cards items = Raise e ->
  e = StopIteration
  /\ exists r, (r, 4%nat) ∈ items /\ not_of_rank r cards = [].
Proof.
  induction items as [|[r n] items IH]; simpl; [discriminate|].
  destruct (decide (n = 4%nat)) as [->|Hn].
  - destruct (not_of_rank r cards) as [|k ks] eqn:E; simpl; [|discriminate].
    intros H. injection H as <-. split; [reflexivity|].
    exists r. split; [left|exact E].
  - intros H. destruct (IH H) as (-> & r' & Hin & E).
    split; [reflexivity|]. exists r'. split; [right; exact Hin|exact E].
Qed.

Lemma four_of_a_kind_scan_miss cards items :
  (forall r n, (r, n) ∈ items -> n <> 4%nat) ->
  four_of_a_kind_scan cards items = Ok None.
Proof.
  induction items as [|[r n] items IH]; intros H; simpl; [reflexivity|].
  destruct (decide (n = 4%nat)) as [->|Hn].
  - exfalso. apply (H r 4%nat); [left|reflexivity].
  - apply IH. intros r' n' Hin. apply (H r'). right. exact Hin.
Qed.

Lemma four_of_a_kind_scan_exhausted cards items r :
  (forall c, c ∈ cards -> rank c = r) ->
  (forall r' n, (r', n) ∈ items -> n = rank_count r' cards /\ (1 <= n)%nat) ->
  (r, 4%nat) ∈ items ->
  four_of_a_kind_scan cards items = Raise StopIteration.
Proof.
  intros Hall. induction items as [|[r' n] items IH]; intros Hit Hin; simpl.
  - inversion Hin.
  - destruct (decide (n = 4%nat)) as [->|Hn].
    + assert (E : not_of_rank r' cards = []).
      { destruct (Hit r' 4%nat ltac:(left)) as [Hc _].
        unfold rank_count in Hc.
        destruct (of_rank r' cards) as [|x xs] eqn:Ex; [discriminate Hc|].
        assert (Hx : x ∈ of_rank r' cards) by (rewrite Ex; left).
        apply list_elem_of_filter in Hx as [Hr Hx].
        rewrite (Hall x Hx) in Hr. subst r'.
        apply filter_none. intros z Hz Hne. apply Hne, Hall, Hz. }
      rewrite E. reflexivity.
    + apply IH.
      * intros r'' n'' H. apply Hit. right. exact H.
      * apply elem_of_cons in Hin as [Hin|Hin]; [congruence|exact Hin].
Qed.

Lemma _check_two_pair_raise cards e :
  _check_two_pair cards = Raise e ->
  e = StopIteration
  /\ exists p0 p1, p0 <> p1 /\ (2 <= rank_count p0 cards)%nat
       /\ (2 <= rank_count p1 cards)%nat
       /\ filter (fun c => rank c <> p0 /\ rank c <> p1) cards = [].
Proof.
  unfold _check_two_pair.
  destruct (rank_counts_spec cards) as [Hnd _].
  set (F := filter (fun rc : Rank * nat => (2 <= rc.2)%nat) (rank_counts cards)).
  assert (HF : forall rc, rc ∈ F -> rc ∈ rank_counts cards /\ (2 <= rc.2)%nat).
  { intros rc H. apply list_elem_of_filter in H as [H1 H2]. auto. }
  assert (HndF : NoDup (map fst F)).
  { eapply sublist_NoDup; [exact Hnd|].
    change (map fst ?l) with (fst <$> l). apply fmap_sublist, sublist_filter. }
  destruct F as [|[p0 n0] [|[p1 n1] F']]; try discriminate.
  cbn [map fst] in *.
  destruct (filter (fun c => rank c <> p0 /\ rank c <> p1) cards) as [|k ks] eqn:E;
    simpl; [|discriminate].
  intros H. injection H as <-. split; [reflexivity|].
  exists p0, p1.
  split. { apply NoDup_cons in HndF as [H _]. intros ->. apply H. left. }
  destruct (HF (p0, n0) ltac:(left)) as [H0 G0].
  destruct (HF (p1, n1) ltac:(right; left)) as [H1 G1].
  apply rank_counts_exact in H0, H1. simpl in *. subst n0 n1. auto.
Qed.

Lemma _check_two_pair_exhausted cards r1 r2 :
  r1 <> r2 -> rank_count r1 cards = 2%nat -> rank_count r2 cards = 2%nat ->
  length cards = 4%nat ->
  _check_two_pair cards = Raise StopIteration.
Proof.
  intros Hne H1 H2 Hlen.
  pose proof (two_rank_split r1 r2 cards Hne) as Hs.
  unfold rank_count in H1, H2.
  assert (Hall : forall c, c ∈ cards -> rank c = r1 \/ rank c = r2).
  { intros c Hc. destruct (decide (rank c = r1)) as [|N1]; [left; assumption|].
    destruct (decide (rank c = r2)) as [|N2]; [right; assumption|].
    exfalso.
    destruct (filter (fun c => rank c <> r1 /\ rank c <> r2) cards) as [|k ks] eqn:E;
      [|simpl in Hs; lia].
    eapply filter_nil_not_elem_of; [exact E| |exact Hc]. split; assumption. }
  unfold _check_two_pair.
  destruct (rank_counts_spec cards) as [Hnd _].
  set (F := filter (fun rc : Rank * nat => (2 <= rc.2)%nat) (rank_counts cards)).
  assert (HF : forall rc, rc ∈ F -> rc.1 = r1 \/ rc.1 = r2).
  { intros [r n] H. apply list_elem_of_filter in H as [Hn H]. simpl in *.
    apply rank_counts_elem in H as [-> _]. unfold rank_count in Hn.
    destruct (of_rank r cards) as [|x xs] eqn:Ex; [simpl in Hn; lia|].
    assert (Hx : x ∈ of_rank r cards) by (rewrite Ex; left).
    apply list_elem_of_filter in Hx as [<- Hx]. apply Hall, Hx. }
  assert (HndF : NoDup (map fst F)).
  { eapply sublist_NoDup; [exact Hnd|].
    change (map fst ?l) with (fst <$> l). apply fmap_sublist, sublist_filter. }
  assert (Hin : forall r, (2 <= rank_count r cards)%nat ->
                          (r, rank_count r cards) ∈ F).
  { intros r Hr. apply list_elem_of_filter. split; [exact Hr|].
    apply rank_counts_has. lia. }
  pose proof (Hin r1 ltac:(unfold rank_count; lia)) as Hf1.
  pose proof (Hin r2 ltac:(unfold rank_count; lia)) as Hf2.
  destruct F as [|[p0 n0] [|[p1 n1] F']].
  - inversion Hf1.
  - apply list_elem_of_singleton in Hf1. apply list_elem_of_singleton in Hf2.
    congruence.
  - cbn [map fst] in *.
    assert (N01 : p0 <> p1).
    { apply NoDup_cons in HndF as [H _]. intros ->. apply H. left. }
    pose proof (HF (p0, n0) ltac:(left)) as G0.
    pose proof (HF (p1, n1) ltac:(right; left)) as G1. simpl in G0, G1.
    rewrite filter_none; [reflexivity|].
    intros z Hz [Z0 Z1]. destruct (Hall z Hz), G0, G1; congruence.
Qed.

Lemma straight_flush_scan_short cards suits :
  (length cards <= 4)%nat -> straight_flush_scan cards suits = None.
Proof.
  intros Hlen. induction suits as [|s suits IH]; simpl; [reflexivity|].
  rewrite _check_straight_short; [exact IH|].
  rewrite (Permutation_length (py_sorted_perm _ (filter (fun c => suit c = s) cards))).
  pose proof (length_filter (fun c => suit c = s) cards). lia.
Qed.

Ltac raise_test t :=
  destruct t as [[|? ?]|];
  [ | destruct (decide _); intros; discriminate | ].

(** An exception of [_evaluate_cards] comes from one of the two [next]
    calls, and the second is only reached without a full house. *)
Lemma _evaluate_cards_raise (cards : list Card) (e : exn) :
  _evaluate_cards cards = Raise e ->
  _check_four_of_a_kind (py_sorted_rev card_lt cards) = Raise e
  \/ ((forall c l, _check_full_house (py_sorted_rev card_lt cards) <> Some (c :: l))
      /\ _check_two_pair (py_sorted_rev card_lt cards) = Raise e).
Proof.
  unfold _evaluate_cards.
  set (s := py_sorted_rev card_lt cards).
  destruct (_check_straight_flush s) as [[|c l]|].
  2:{ destruct (decide _); [destruct (decide _)|]; intros; discriminate. }
  all: destruct (_check_four_of_a_kind s) as [[[|? ?]|]|?]; cbn [rbind];
    [ | destruct (decide _); intros; discriminate |
      | intros H; injection H as <-; left; reflexivity ].
  all: destruct (_check_full_house s) as [[|? ?]|];
    [ | destruct (decide _); intros; discriminate | ].
  all: raise_test (_check_flush s).
  all: raise_test (_check_straight s).
  all: raise_test (_check_three_of_a_kind s).
  all: destruct (_check_two_pair s) as [[[|? ?]|]|?]; cbn [rbind];
    [ | destruct (decide _); intros; discriminate |
      | intros H; injection H as <-; right;
        split; [intros ? ? ?; discriminate|reflexivity] ].
  all: raise_test (_check_pair s).
  all: intros; discriminate.
Qed.

(** X10. [_evaluate_cards] raises an exception on exactly two kinds of input,
    both of four cards: four cards of one rank, and two pairs without a
    fifth card.  The exception is [StopIteration], from the search for a
    kicker.  Every other list of cards, of any length, is evaluated. *)
Theorem evaluator_raises_without_kicker (cards : list Card) (e : exn) :
  _evaluate_cards cards = Raise e <->
  e = StopIteration /\ length cards = 4%nat
  /\ ((exists r, rank_count r cards = 4%nat)
      \/ (exists r1 r2, r1 <> r2 /\ rank_count r1 cards = 2%nat
                        /\ rank_count r2 cards = 2%nat)).
Proof.
  pose proof (sorted_cards_perm cards) as Hp.
  pose proof (Permutation_length Hp) as Hlen.
  set (s := py_sorted_rev card_lt cards) in *.
  split.
  - intros H. apply _evaluate_cards_raise in H. fold s in H.
    destruct H as [H|[Hfh H]].
    + apply four_of_a_kind_scan_raise in H as (-> & r & Hin & E).
      apply rank_counts_exact in Hin.
      pose proof (rank_split r s) as Hs. rewrite E in Hs. unfold rank_count in Hin.
      split; [reflexivity|]. split; [simpl in Hs; lia|].
      left. exists r. rewrite <- (rank_count_perm r _ _ Hp). fold s.
      unfold rank_count. lia.
    + apply _check_two_pair_raise in H as (-> & p0 & p1 & Hne & H0 & H1 & E).
      assert (B0 : (rank_count p0 s <= 2)%nat).
      { destruct (decide (rank_count p0 s <= 2)%nat) as [|N]; [assumption|].
        destruct (_check_full_house_complete s p0 p1 Hne ltac:(lia) H1)
          as (c & l & Hc).
        exfalso. exact (Hfh c l Hc). }
      assert (B1 : (rank_count p1 s <= 2)%nat).
      { destruct (decide (rank_count p1 s <= 2)%nat) as [|N]; [assumption|].
        destruct (_check_full_house_complete s p1 p0 (not_eq_sym Hne) ltac:(lia) H0)
          as (c & l & Hc).
        exfalso. exact (Hfh c l Hc). }
      pose proof (two_rank_split p0 p1 s Hne) as Hs. rewrite E in Hs.
      unfold rank_count in H0, H1, B0, B1. simpl in Hs.
      split; [reflexivity|]. split; [lia|].
      right. exists p0, p1. split; [exact Hne|].
      rewrite <- (rank_count_perm p0 _ _ Hp), <- (rank_count_perm p1 _ _ Hp).
      fold s. unfold rank_count. lia.
  - intros (-> & Hl & Hshape).
    assert (Hls : length s = 4%nat) by lia.
    unfold _evaluate_cards. fold s. unfold _check_straight_flush.
    rewrite straight_flush_scan_short by lia.
    destruct Hshape as [(r & Hr)|(r1 & r2 & Hne & H1 & H2)].
    + rewrite <- (rank_count_perm r _ _ Hp) in Hr. clear Hp.
      unfold _check_four_of_a_kind.
      rewrite (four_of_a_kind_scan_exhausted s (rank_counts s) r); [reflexivity| | |].
      * intros c Hc. pose proof (rank_split r s) as Hs. unfold rank_count in Hr.
        apply (not_of_rank_empty r s c); [|exact Hc].
        destruct (not_of_rank r s); [reflexivity|simpl in Hs; lia].
      * intros r' n. apply rank_counts_elem.
      * rewrite <- Hr. apply rank_counts_has. lia.
    + rewrite <- (rank_count_perm r1 _ _ Hp) in H1.
      rewrite <- (rank_count_perm r2 _ _ Hp) in H2. clear Hp.
      assert (Hsmall : forall r n, (r, n) ∈ rank_counts s -> (n <= 2)%nat).
      { intros r n Hin. apply rank_counts_elem in Hin as [-> Hn].
        destruct (decide (r = r1)) as [->|N1]; [lia|].
        destruct (decide (r = r2)) as [->|N2]; [lia|].
        exfalso. pose proof (two_rank_split r1 r2 s Hne) as Hs.
        unfold rank_count in *.
        destruct (of_rank r s) as [|x xs] eqn:Ex; [simpl in Hn; lia|].
        assert (Hx : x ∈ of_rank r s) by (rewrite Ex; left).
        apply list_elem_of_filter in Hx as [Hrx Hx].
        assert (Hx' : x ∈ filter (fun c => rank c <> r1 /\ rank c <> r2) s).
        { apply list_elem_of_filter. split; [split; congruence|exact Hx]. }
        destruct (filter (fun c => rank c <> r1 /\ rank c <> r2) s);
          [inversion Hx'|simpl in Hs; lia]. }
      unfold _check_four_of_a_kind.
      rewrite four_of_a_kind_scan_miss; cbn [rbind].
      2:{ intros r n Hin. specialize (Hsmall r n Hin). lia. }
      destruct (_check_full_house s) as [lf|] eqn:Efh.
      { exfalso. destruct (_check_full_house_sound _ _ Efh) as (t & p & _ & Ht & _).
        specialize (Hsmall t _ (rank_counts_has s t ltac:(lia))). lia. }
      destruct (_check_flush s) as [lfl|] eqn:Efl.
      { exfalso. apply flush_scan_Some in Efl as (σ & _ & Hσ & _).
        pose proof (length_filter (fun c => suit c = σ) s). lia. }
      rewrite _check_straight_short by lia.
      destruct (_check_three_of_a_kind s) as [l3|] eqn:E3.
      { exfalso.
        apply (three_of_a_kind_scan_Some s _ _ (rank_counts_exact s)) in E3
          as (t & Ht & _).
        specialize (Hsmall t _ (rank_counts_has s t ltac:(lia))). lia. }
      rewrite (_check_two_pair_exhausted s r1 r2 Hne H1 H2 Hls). reflexivity.
Qed.

Lemma evaluator_raises_without_kicker_witness :
  let cards := [mkCard NINE HEARTS; mkCard FOUR SPADES; mkCard NINE CLUBS;
                mkCard FOUR HEARTS] in
  _evaluate_cards cards = Raise StopIteration.
Proof.
  intros cards. apply evaluator_raises_without_kicker.
  split; [reflexivity|]. split; [reflexivity|].
  right. exists NINE, FOUR. split; [discriminate|]. split; reflexivity.
Defined.

(** ** The decision policy: before the flop, raises, free checks *)

Lemma late_position (pos : string) :
  (4 <=? default 0 (Player.position_ranks !! pos))
  = bool_decide (pos = "BTN" \/ pos = "CO").
Proof.
  destruct (Player.position_ranks !! pos) as [v|] eqn:E.
  - unfold Player.position_ranks in E. apply elem_of_list_to_map_2 in E.
    repeat (apply elem_of_cons in E as [E|E];
            [injection E as E1 E2; subst pos v; vm_compute; reflexivity|]).
    inversion E.
  - simpl. symmetry. apply bool_decide_eq_false. intros [->| ->];
      vm_compute in E; discriminate E.
Qed.


Lemma evaluate_hand_preflop (p : Player.t) (c0 c1 : Card) :
  Player.hole_cards p = [c0; c1] ->
  Player.evaluate_hand p []
  = Ok (if decide (rank c0 = rank c1) then
          if rank_index TEN <=? rank_index (rank c0)
          then HandStrength.mk PAIR [rank_index (rank c0)]
          else HandStrength.mk HIGH_CARD [rank_index (rank c0)]
        else
          let high_card := Z.max (rank_index (rank c0)) (rank_index (rank c1)) in
          if rank_index JACK <=? high_card
          then HandStrength.mk HIGH_CARD [high_card]
          else HandStrength.mk HIGH_CARD [0]).
Proof.
  intros Hh. unfold Player.evaluate_hand. rewrite Hh. cbn [map].
  change (py_index [rank c0; rank c1] 0) with (Ok (rank c0)).
  change (py_index [rank c0; rank c1] 1) with (Ok (rank c1)).
  cbn [rbind]. destruct (decide (rank c0 = rank c1)).
  - destruct (_ <=? _); reflexivity.
  - unfold py_max. cbn [foldl]. destruct (_ <=? _); reflexivity.
Qed.

(** X11. Before the flop the hand is judged from the two hole cards alone.
    The answer is [PAIR] exactly for a pocket pair of tens or better; any
    other hand is a [HIGH_CARD], whose tie-break is the rank of a small
    pair, the higher card when that is a Jack or better, and 0 otherwise.
    A player holding fewer than two cards makes the evaluation, and with it
    any decision whose call is affordable, fail with [IndexError]. *)
Theorem preflop_hand_strength (p : Player.t) :
  (forall c0 c1, Player.hole_cards p = [c0; c1] ->
     exists h, Player.evaluate_hand p [] = Ok h
       /\ (HandStrength.rank h = PAIR \/ HandStrength.rank h = HIGH_CARD)
       /\ (HandStrength.rank h = PAIR <->
           rank c0 = rank c1 /\ rank_index TEN <= rank_index (rank c0))
       /\ (rank c0 = rank c1 ->
           HandStrength.high_cards h = [rank_index (rank c0)])
       /\ (rank c0 <> rank c1 ->
           HandStrength.high_cards h
           = [if rank_index JACK
                 <=? Z.max (rank_index (rank c0)) (rank_index (rank c1))
              then Z.max (rank_index (rank c0)) (rank_index (rank c1))
              else 0]))
  /\ ((length (Player.hole_cards p) < 2)%nat ->
      Player.evaluate_hand p [] = Raise IndexError
      /\ forall to_call pot,
           (to_call <= Player.stack p)%Q ->
           Player.make_decision p to_call pot [] = Raise IndexError).
Proof.
  split.
  - intros c0 c1 Hh. rewrite (evaluate_hand_preflop p c0 c1 Hh).
    eexists. split; [reflexivity|].
    destruct (decide (rank c0 = rank c1)) as [E|E].
    + destruct (rank_index TEN <=? rank_index (rank c0)) eqn:Ht;
        cbn [HandStrength.rank HandStrength.high_cards].
      * apply Z.leb_le in Ht. split; [left; reflexivity|].
        split; [split; [intros _; split; assumption|reflexivity]|].
        split; [reflexivity|]. intros N. contradiction.
      * apply Z.leb_gt in Ht. split; [right; reflexivity|].
        split; [split; [discriminate|intros [_ H]; lia]|].
        split; [reflexivity|]. intros N. contradiction.
    + cbv zeta.
      destruct (rank_index JACK <=? _) eqn:Hj;
        cbn [HandStrength.rank HandStrength.high_cards];
        (split; [right; reflexivity|]);
        (split; [split; [discriminate|intros [H _]; contradiction]|]);
        (split; [intros H; contradiction|reflexivity]).
  - intros Hlen.
    assert (He : Player.evaluate_hand p [] = Raise IndexError).
    { unfold Player.evaluate_hand.
      destruct (Player.hole_cards p) as [|c0 [|c1 l]]; simpl in Hlen;
        [reflexivity|reflexivity|lia]. }
    split; [exact He|].
    intros to_call pot Hcall. unfold Player.make_decision.
    rewrite (proj2 (Qltb_false _ _) Hcall), He. reflexivity.
Qed.

Lemma preflop_hand_strength_witness :
  let p := Player.mk "Player 1" 1000 [mkCard QUEEN HEARTS; mkCard QUEEN SPADES]
             0 true "BTN" (-1) false 6 in
  let q := Player.mk "Player 2" 1000 [mkCard QUEEN HEARTS] 0 true "BTN" (-1) false 6 in
  (exists h, Player.evaluate_hand p [] = Ok h
     /\ (HandStrength.rank h = PAIR \/ HandStrength.rank h = HIGH_CARD)
     /\ (HandStrength.rank h = PAIR <->
         QUEEN = QUEEN /\ rank_index TEN <= rank_index QUEEN)
     /\ (QUEEN = QUEEN -> HandStrength.high_cards h = [rank_index QUEEN])
     /\ (QUEEN <> QUEEN ->
         HandStrength.high_cards h
         = [if rank_index JACK <=? Z.max (rank_index QUEEN) (rank_index QUEEN)
            then Z.max (rank_index QUEEN) (rank_index QUEEN) else 0]))
  /\ Player.evaluate_hand q [] = Raise IndexError.
Proof.
  intros p q. split.
  - exact (proj1 (preflop_hand_strength p) (mkCard QUEEN HEARTS)
             (mkCard QUEEN SPADES) eq_refl).
  - refine (proj1 (proj2 (preflop_hand_strength q) _)). simpl. lia.
Defined.




(** X13. A check that costs nothing.  After the flop a player whose stack
    is not negative never folds when there is nothing to call: the decision
    is a raise or a call of 0.  Before the flop this does not hold: a hand
    without a pair that holds an Ace, King or Queen is folded in every seat
    but the button and the cut-off, whatever the amount to call, zero
    included. *)
Theorem free_check_policy (p : Player.t) (to_call pot : Q) :
  (forall community_cards action amount,
     community_cards <> [] -> (to_call == 0)%Q -> (0 <= Player.stack p)%Q ->
     Player.make_decision p to_call pot community_cards = Ok (action, amount) ->
     action = "raise" \/ (action = "call" /\ amount = 0%Q))
  /\ (forall c0 c1,
        Player.hole_cards p = [c0; c1] -> rank c0 <> rank c1 ->
        rank c0 ∈ [ACE; KING; QUEEN] \/ rank c1 ∈ [ACE; KING; QUEEN] ->
        Player.position p <> "BTN" -> Player.position p <> "CO" ->
        Player.make_decision p to_call pot [] = Ok ("fold", 0%Q)).
Proof.
  split.
  - intros cc action amount Hcc H0 Hs. unfold Player.make_decision.
    assert (Hq : Qltb (Player.stack p) to_call = false).
    { apply Qltb_false. rewrite H0. exact Hs. }
    rewrite Hq.
    destruct (Player.evaluate_hand p cc) as [h|]; cbn [rbind]; [|discriminate].
    destruct cc as [|c cc]; [contradiction|].
    apply Qeq_bool_iff in H0. unfold Player._postflop_strategy. rewrite H0.
    repeat decision_case; intros H; injection H as <- <-; auto.
  - intros c0 c1 Hh Hne Hhigh N1 N2. unfold Player.make_decision.
    destruct (Qltb _ _); [reflexivity|].
    rewrite (evaluate_hand_preflop p c0 c1 Hh). cbn [rbind].
    rewrite late_position, bool_decide_eq_false_2 by (intros [?|?]; contradiction).
    unfold Player._preflop_strategy. rewrite Hh.
    rewrite bool_decide_eq_false_2 by exact Hne.
    rewrite bool_decide_eq_true_2; [reflexivity|].
    destruct Hhigh as [H|H].
    + rewrite filter_cons_True by exact H. simpl. lia.
    + rewrite filter_cons. destruct (decide _); simpl; [lia|].
      rewrite filter_cons_True by exact H. simpl. lia.
Qed.

Lemma free_check_policy_witness :
  let p := Player.mk "Player 1" 1000 [mkCard ACE HEARTS; mkCard KING SPADES]
             0 true "UTG" (-1) false 6 in
  let q := Player.mk "Player 2" 1000 [mkCard SEVEN HEARTS; mkCard TWO SPADES]
             0 true "UTG" (-1) false 6 in
  let board := [mkCard NINE CLUBS; mkCard FOUR DIAMONDS; mkCard JACK CLUBS] in
  Player.make_decision p 0 15 [] = Ok ("fold", 0%Q)
  /\ ("call" = "raise" \/ ("call" = "call" /\ 0%Q = 0%Q)).
Proof.
  intros p q board. split.
  - refine (proj2 (free_check_policy p 0 15) (mkCard ACE HEARTS)
              (mkCard KING SPADES) eq_refl _ _ _ _).
    + discriminate.
    + left. left.
    + discriminate.
    + discriminate.
  - refine (proj1 (free_check_policy q 0 15) board "call" 0%Q _ _ _ eq_refl).
    + discriminate.
    + reflexivity.
    + discriminate.
Defined.

(** ** The betting round: what it leaves alone and how it ends *)

Lemma active_players_length g :
  length (Game.active_players g)
  = length (filter (fun b => b = true) (active_flags g)).
Proof.
  unfold Game.active_players, active_flags.
  assert (H : forall (l : list Player.t) (f : nat -> Player.t -> nat * Player.t),
            (forall i p, (f i p).2 = p) ->
            length (filter (fun ip : nat * Player.t => Player.is_active ip.2 = true)
                      (imap f l))
            = length (filter (fun b => b = true) (map Player.is_active l))).
  { induction l as [|p l IH]; intros f Hf; simpl; [reflexivity|].
    rewrite !filter_cons, Hf.
    destruct (decide (Player.is_active p = true)); simpl;
      rewrite IH by (intros i q; apply Hf); reflexivity. }
  apply H. reflexivity.
Qed.

Lemma count_insert_false (fl : list bool) (k : nat) :
  (length (filter (fun b => b = true) (<[k := false]> fl))
   <= length (filter (fun b => b = true) fl)
   <= S (length (filter (fun b => b = true) (<[k := false]> fl))))%nat.
Proof.
  revert k. induction fl as [|b fl IH]; intros [|k]; simpl; try lia.
  - rewrite !filter_cons. destruct b; simpl; lia.
  - specialize (IH k). rewrite !filter_cons. destruct (decide (b = true)); simpl; lia.
Qed.

Lemma update_player_proj {A} (proj : Player.t -> A) i f g g' :
  (forall p, proj (f p) = proj p) ->
  PokerGame.update_player i f g = Ok g' ->
  map proj (PokerGame.players g') = map proj (PokerGame.players g).
Proof.
  intros Hf H. destruct (update_player_Ok _ _ _ _ H) as (k & p & _ & Hk & ->).
  simpl. change (map proj ?l) with (proj <$> l).
  rewrite list_fmap_insert, Hf. apply list_insert_id.
  rewrite list_lookup_fmap, Hk. reflexivity.
Qed.

Lemma update_player_table i f g g' :
  PokerGame.update_player i f g = Ok g' ->
  g' = PokerGame.set_players (PokerGame.players g') g.
Proof.
  intros H. destruct (update_player_Ok _ _ _ _ H) as (k & p & _ & _ & ->).
  reflexivity.
Qed.

Lemma round_frame_refl g : round_frame g g.
Proof.
  split; [reflexivity|]. split; [reflexivity|].
  split; [intros k H; exact H|reflexivity].
Qed.

Lemma round_frame_trans g1 g2 g3 :
  round_frame g1 g2 -> round_frame g2 g3 -> round_frame g1 g3.
Proof.
  intros (A1 & B1 & C1 & D1) (A2 & B2 & C2 & D2).
  split; [congruence|]. split; [congruence|].
  split; [intros k H; apply C1, C2, H|lia].
Qed.

(** A store that keeps the activity flag and the seat data of the player. *)
Lemma update_player_frame i f g g' :
  (forall p, Player.is_active (f p) = Player.is_active p) ->
  (forall p, player_seat (f p) = player_seat p) ->
  PokerGame.update_player i f g = Ok g' ->
  round_frame g g'
  /\ length (Game.active_players g') = length (Game.active_players g).
Proof.
  intros Ha Hs H.
  pose proof (update_player_proj Player.is_active _ _ _ _ Ha H) as E1.
  pose proof (update_player_proj player_seat _ _ _ _ Hs H) as E2.
  pose proof (update_player_table _ _ _ _ H) as E3.
  assert (E4 : length (Game.active_players g') = length (Game.active_players g)).
  { rewrite !active_players_length. unfold active_flags. rewrite E1. reflexivity. }
  split; [|exact E4].
  split; [rewrite E3; reflexivity|]. split; [exact E2|].
  split; [|rewrite E4; reflexivity].
  intros k. unfold active_flags. rewrite E1. auto.
Qed.

(** A fold: the activity flag of one seat is cleared. *)
Lemma update_player_fold i g g' :
  PokerGame.update_player i (Player.set_is_active false) g = Ok g' ->
  round_frame g g'
  /\ (length (Game.active_players g)
      <= S (length (Game.active_players g')))%nat.
Proof.
  intros H.
  pose proof (update_player_proj player_seat i (Player.set_is_active false) g g'
                (fun p => eq_refl) H) as E2.
  destruct (update_player_Ok _ _ _ _ H) as (k & p & _ & Hk & ->).
  assert (E1 : active_flags (PokerGame.set_players
                 (<[k := Player.set_is_active false p]> (PokerGame.players g)) g)
               = <[k := false]> (active_flags g)).
  { unfold active_flags. simpl. change (map ?f ?l) with (f <$> l).
    rewrite list_fmap_insert. reflexivity. }
  pose proof (count_insert_false (active_flags g) k) as Hc.
  rewrite !active_players_length, E1.
  split; [|lia].
  split; [reflexivity|]. split; [exact E2|]. split.
  - intros j. rewrite E1. destruct (decide (j = k)) as [->|Hne].
    + intros Hj. apply list_lookup_insert_Some in Hj as [(_ & Hj & _)|[Hj _]];
        [discriminate|contradiction].
    + rewrite list_lookup_insert_ne by congruence. auto.
  - rewrite !active_players_length, E1. lia.
Qed.

Lemma process_action_frame pos action amount g g' :
  Game.process_action pos action amount g = Ok g' ->
  round_frame g g'
  /\ (length (Game.active_players g) <= S (length (Game.active_players g')))%nat.
Proof.
  unfold Game.process_action.
  destruct (py_index _ _) as [player|]; simpl; [|discriminate].
  destruct (decide (action = "fold")) as [_|_]; [apply update_player_fold|].
  destruct (decide (action = "call")) as [_|_];
    [|destruct (decide (action = "raise")) as [_|_]].
  - destruct (PokerGame.update_player _ _ _) as [g1|] eqn:E; simpl; [|discriminate].
    intros H. injection H as <-.
    apply update_player_frame in E; [|reflexivity|reflexivity].
    destruct E as [(A & B & C & D) E].
    split; [|rewrite <- E; apply Nat.le_succ_diag_r].
    split; [exact A|]. split; [exact B|]. split; [exact C|exact D].
  - destruct (PokerGame.update_player _ _ _) as [g1|] eqn:E; simpl; [|discriminate].
    intros H. injection H as <-.
    apply update_player_frame in E; [|reflexivity|reflexivity].
    destruct E as [(A & B & C & D) E].
    split; [|rewrite <- E; apply Nat.le_succ_diag_r].
    split; [exact A|]. split; [exact B|]. split; [exact C|exact D].
  - intros H. injection H as <-. split; [apply round_frame_refl|lia].
Qed.

Lemma betting_loop_spec fuel start_pos pos g b g' :
  (2 <= length (Game.active_players g))%nat ->
  Game.betting_loop fuel start_pos pos g = Some (Ok (b, g')) ->
  round_frame g g'
  /\ (b = false <-> (length (Game.active_players g') <= 1)%nat)
  /\ (b = true -> Game.all_called g' = true)
  /\ (1 <= length (Game.active_players g'))%nat.
Proof.
  revert pos g. induction fuel as [|fuel IH]; intros pos g H2 H; simpl in H.
  - discriminate.
  - destruct (Game.next_active _ g pos) as [[cur|]|]; simpl in H; try discriminate.
    destruct (py_index (PokerGame.players g) cur) as [player|]; simpl in H;
      [|discriminate].
    destruct (Player.make_decision _ _ _ _) as [decision|]; simpl in H;
      [|discriminate].
    destruct (Game.process_action cur _ _ g) as [g1|] eqn:Hact; simpl in H;
      [|discriminate].
    apply process_action_frame in Hact as [Hf Hc].
    destruct (bool_decide (length (Game.active_players g1) <= 1)%nat) eqn:Hle.
    + injection H as <- <-. apply bool_decide_eq_true in Hle.
      split; [exact Hf|]. split; [split; [intros _; exact Hle|reflexivity]|].
      split; [discriminate|lia].
    + apply bool_decide_eq_false in Hle.
      destruct (Game.all_called g1 && (cur =? start_pos)) eqn:Hall.
      * injection H as <- <-. apply andb_true_iff in Hall as [Hall _].
        split; [exact Hf|]. split; [split; [discriminate|intros; lia]|].
        split; [intros _; exact Hall|lia].
      * destruct (py_mod _ _) as [pos'|]; simpl in H; [|discriminate].
        apply IH in H; [|lia]. destruct H as (Hf' & Hb & Hcall & H1).
        split; [exact (round_frame_trans _ _ _ Hf Hf')|]. auto.
Qed.

Lemma _betting_round_spec fuel g b g' :
  Game._betting_round fuel g = Some (Ok (b, g')) ->
  round_frame g g'
  /\ (b = false <-> (length (Game.active_players g') <= 1)%nat)
  /\ (b = true -> Game.all_called g' = true)
  /\ ((1 <= length (Game.active_players g))%nat ->
      (1 <= length (Game.active_players g'))%nat).
Proof.
  unfold Game._betting_round.
  destruct (bool_decide (length (Game.active_players g) <= 1)%nat) eqn:Hle.
  - intros H. injection H as <- <-. apply bool_decide_eq_true in Hle.
    split; [apply round_frame_refl|].
    split; [split; [intros _; exact Hle|reflexivity]|].
    split; [discriminate|auto].
  - apply bool_decide_eq_false in Hle.
    destruct (py_mod _ _) as [start_pos|]; simpl; [|discriminate].
    intros H. apply betting_loop_spec in H; [|lia].
    destruct H as (Hf & Hb & Hcall & H1). auto.
Qed.

(** X14. How a betting round ends.  It returns [False] exactly when at most
    one player is left in the hand, and [True] only when every player still
    in the hand has matched the current bet.  A round that starts with a
    player in the hand ends with a player in the hand: the last player
    cannot fold, since the round stops as soon as one is left. *)
Theorem betting_round_outcome (fuel : nat) (g g' : PokerGame.t) (b : bool) :
  Game._betting_round fuel g = Some (Ok (b, g')) ->
  (b = false <-> (length (Game.active_players g') <= 1)%nat)
  /\ (b = true -> Game.all_called g' = true)
  /\ ((1 <= length (Game.active_players g))%nat ->
      (1 <= length (Game.active_players g'))%nat).
Proof.
  intros H. apply _betting_round_spec in H. tauto.
Qed.

(** X15. What a betting round leaves alone.  It draws no card and moves no
    button: deck, board, button, blinds and table size are as before.  Every
    seat keeps its player, with the same name, hole cards and position.  A
    player that is out of the hand stays out, so the number of players in
    the hand does not grow. *)
Theorem betting_round_frame (fuel : nat) (g g' : PokerGame.t) (b : bool) :
  Game._betting_round fuel g = Some (Ok (b, g')) ->
  table_setup g' = table_setup g
  /\ map player_seat (PokerGame.players g') = map player_seat (PokerGame.players g)
  /\ (forall k, active_flags g' !! k = Some true -> active_flags g !! k = Some true)
  /\ (length (Game.active_players g') <= length (Game.active_players g))%nat.
Proof.
  intros H. apply _betting_round_spec in H. destruct H as [H _]. exact H.
Qed.

Lemma betting_round_outcome_witness :
  let p0 := Player.mk "Player 1" 990 [mkCard ACE SPADES; mkCard JACK SPADES]
              10 true "BB" (-1) false 6 in
  let p1 := Player.mk "Player 2" 1000 [mkCard KING SPADES; mkCard TEN SPADES]
              0 true "BTN" (-1) false 6 in
  let p2 := Player.mk "Player 3" 995 [mkCard QUEEN SPADES; mkCard NINE SPADES]
              5 true "SB" (-1) false 6 in
  let g := PokerGame.mk 3 1000 5 10 false Deck.new [p0; p1; p2] [] 15 10 1 in
  exists b g',
    Game._betting_round 20 g = Some (Ok (b, g'))
    /\ (b = false <-> (length (Game.active_players g') <= 1)%nat)
    /\ (b = true -> Game.all_called g' = true)
    /\ ((1 <= length (Game.active_players g))%nat ->
        (1 <= length (Game.active_players g'))%nat).
Proof.
  intros p0 p1 p2 g.
  destruct (Game._betting_round 20 g) as [[[b g']|e]|] eqn:E.
  - exists b, g'. split; [reflexivity|].
    exact (betting_round_outcome 20%nat g g' b E).
  - exfalso. vm_compute in E. discriminate E.
  - exfalso. vm_compute in E. discriminate E.
Defined.

Lemma betting_round_frame_witness :
  let p0 := Player.mk "Player 1" 990 [mkCard ACE SPADES; mkCard JACK SPADES]
              10 true "BB" (-1) false 6 in
  let p1 := Player.mk "Player 2" 1000 [mkCard KING SPADES; mkCard TEN SPADES]
              0 true "BTN" (-1) false 6 in
  let p2 := Player.mk "Player 3" 995 [mkCard QUEEN SPADES; mkCard NINE SPADES]
              5 true "SB" (-1) false 6 in
  let g := PokerGame.mk 3 1000 5 10 false Deck.new [p0; p1; p2] [] 15 10 1 in
  exists b g',
    Game._betting_round 20 g = Some (Ok (b, g'))
    /\ table_setup g' = table_setup g
    /\ map player_seat (PokerGame.players g')
       = map player_seat (PokerGame.players g)
    /\ (forall k, active_flags g' !! k = Some true ->
                  active_flags g !! k = Some true)
    /\ (length (Game.active_players g') <= length (Game.active_players g))%nat.
Proof.
  intros p0 p1 p2 g.
  destruct (Game._betting_round 20 g) as [[[b g']|e]|] eqn:E.
  - exists b, g'. split; [reflexivity|].
    exact (betting_round_frame 20%nat g g' b E).
  - exfalso. vm_compute in E. discriminate E.
  - exfalso. vm_compute in E. discriminate E.
Defined.

(** ** Starting a hand: [reset_hand] *)

Lemma reset_hand_positions_keeps {A} (proj : Player.t -> A) seats g g' :
  (forall lab p, proj (Player.set_position lab p) = proj p) ->
  PokerGame.reset_hand_positions seats g = Ok g' ->
  map proj (PokerGame.players g') = map proj (PokerGame.players g)
  /\ g' = PokerGame.set_players (PokerGame.players g') g.
Proof.
  intros Hproj. revert g. induction seats as [|i seats IH]; intros g H; simpl in H.
  - injection H as <-. split; [reflexivity|]. destruct g; reflexivity.
  - destruct (py_mod _ _) as [pos|]; simpl in H; [|discriminate].
    destruct (if pos <? _ then _ else _) as [label|]; simpl in H; [|discriminate].
    destruct (PokerGame.update_player i _ g) as [g1|] eqn:E; simpl in H;
      [|discriminate].
    destruct (IH _ H) as [H1 H2].
    pose proof (update_player_proj proj _ _ _ _ (Hproj label) E) as E1.
    pose proof (update_player_table _ _ _ _ E) as E2.
    split; [congruence|]. rewrite H2, E2. reflexivity.
Qed.

Lemma reset_hand_Ok g g' :
  PokerGame.reset_hand g = Ok g' ->
  exists ps,
    map (fun p => (Player.name p, Player.stack p)) ps
    = map (fun p => (Player.name p, Player.stack p)) (PokerGame.players g)
    /\ g' = PokerGame.mk (PokerGame.num_players g) (PokerGame.initial_stack g)
              (PokerGame.small_blind g) (PokerGame.big_blind g)
              (PokerGame.four_card_flop g) Deck.new
              (map (PokerGame.reset_player (PokerGame.initial_stack g)) ps)
              [] 0%Q 0%Q
              ((PokerGame.button_pos g + 1) mod PokerGame.num_players g).
Proof.
  unfold PokerGame.reset_hand.
  cbn [PokerGame.num_players PokerGame.button_pos PokerGame.set_deck
       PokerGame.set_community_cards PokerGame.set_pot PokerGame.set_current_bet].
  unfold py_mod. destruct (PokerGame.num_players g =? 0); simpl; [discriminate|].
  destruct (PokerGame.reset_hand_positions _ _) as [g1|] eqn:E; simpl;
    [|discriminate].
  intros H. injection H as <-.
  destruct (reset_hand_positions_keeps
              (fun p => (Player.name p, Player.stack p)) _ _ _
              (fun _ _ => eq_refl) E) as [H1 H2].
  exists (PokerGame.players g1). split; [exact H1|].
  rewrite H2. reflexivity.
Qed.

(** X16. [reset_hand] starts every hand from a clean table: a full deck in
    its creation order, an empty board, an empty pot, no bet to match, and
    the button one seat further.  Every player is back in the hand, with no
    cards, no bet and the [folded] flag down; each seat keeps its player and
    its stack, except that a stack of zero or less is replaced by the
    initial stack.  With a positive initial stack every player therefore
    starts the hand with chips. *)
Theorem reset_hand_starts_clean (g : PokerGame.t) :
  0 < PokerGame.num_players g ->
  Z.of_nat (length (PokerGame.players g)) = PokerGame.num_players g ->
  exists g',
    PokerGame.reset_hand g = Ok g'
    /\ PokerGame.deck g' = Deck.new
    /\ PokerGame.community_cards g' = []
    /\ PokerGame.pot g' = 0%Q
    /\ PokerGame.current_bet g' = 0%Q
    /\ PokerGame.button_pos g'
       = (PokerGame.button_pos g + 1) mod PokerGame.num_players g
    /\ Forall (fun p' => Player.is_active p' = true
                         /\ Player.hole_cards p' = []
                         /\ Player.current_bet p' = 0%Q
                         /\ Player.folded p' = false)
              (PokerGame.players g')
    /\ Forall2 (fun p p' =>
                  Player.name p' = Player.name p
                  /\ Player.stack p'
                     = if Qleb (Player.stack p) 0 then PokerGame.initial_stack g
                       else Player.stack p)
               (PokerGame.players g) (PokerGame.players g')
    /\ ((0 < PokerGame.initial_stack g)%Q ->
        Forall (fun p' => (0 < Player.stack p')%Q) (PokerGame.players g')).
Proof.
  intros Hn Hlen.
  destruct (reset_hand_labels g Hn Hlen) as (g' & Hr & _).
  exists g'. split; [exact Hr|].
  destruct (reset_hand_Ok _ _ Hr) as (ps & Hps & ->). simpl.
  do 5 (split; [reflexivity|]).
  assert (Hstack : forall p,
            Player.stack (PokerGame.reset_player (PokerGame.initial_stack g) p)
            = if Qleb (Player.stack p) 0 then PokerGame.initial_stack g
              else Player.stack p).
  { intros p. unfold PokerGame.reset_player. simpl.
    destruct (Qleb (Player.stack p) 0); reflexivity. }
  split; [|split].
  - apply Forall_forall. intros p' Hp'.
    apply list_elem_of_fmap in Hp' as (p & -> & _).
    unfold PokerGame.reset_player. destruct (Qleb _ _); repeat split.
  - clear Hr Hlen. revert ps Hps. induction (PokerGame.players g) as [|q qs IH];
      intros [|p ps] Hps; simpl in Hps; try discriminate; [constructor|].
    injection Hps as Hname Hst Hps. simpl. constructor; [|apply IH; exact Hps].
    rewrite Hstack, Hst. split; [|reflexivity].
    unfold PokerGame.reset_player. destruct (Qleb _ _); exact Hname.
  - intros Hinit. apply Forall_forall. intros p' Hp'.
    apply list_elem_of_fmap in Hp' as (p & -> & _). rewrite Hstack.
    destruct (Qleb (Player.stack p) 0) eqn:E; [exact Hinit|].
    unfold Qleb in E. apply Qnot_le_lt. intros Hle.
    apply Qle_bool_iff in Hle. congruence.
Qed.

Lemma reset_hand_starts_clean_witness :
  let p0 := Player.mk "Player 1" 0 [mkCard ACE SPADES; mkCard JACK SPADES]
              10 false "BB" (-1) false 6 in
  let p1 := Player.mk "Player 2" 2010 [mkCard KING SPADES; mkCard TEN SPADES]
              10 true "BTN" (-1) false 6 in
  let p2 := Player.mk "Player 3" 990 [mkCard QUEEN SPADES; mkCard NINE SPADES]
              5 false "SB" (-1) false 6 in
  let g := PokerGame.mk 3 1000 5 10 false Deck.new [p0; p1; p2] [] 20 10 2 in
  exists g',
    PokerGame.reset_hand g = Ok g'
    /\ PokerGame.button_pos g' = 0
    /\ map Player.stack (PokerGame.players g') = [1000%Q; 2010%Q; 990%Q]
    /\ Forall (fun p' => Player.is_active p' = true
                         /\ Player.hole_cards p' = []
                         /\ Player.current_bet p' = 0%Q
                         /\ Player.folded p' = false)
              (PokerGame.players g').
Proof.
  intros p0 p1 p2 g.
  destruct (reset_hand_starts_clean g) as (g' & Hr & _ & _ & _ & _ & Hb & Hf & _);
    [reflexivity|reflexivity|].
  exists g'. split; [exact Hr|]. split; [exact Hb|]. split; [|exact Hf].
  vm_compute in Hr. injection Hr as <-. reflexivity.
Defined.

(** ** Dealing *)

Lemma draw_cards d :
  match Deck.draw d with
  | (Some c, d') => Deck.cards d = Deck.cards d' ++ [c]
  | (None, d') => d' = d /\ Deck.cards d = []
  end.
Proof.
  unfold Deck.draw. destruct (Deck.list_pop (Deck.cards d)) as [[c rest]|] eqn:E.
  - simpl. apply list_pop_snoc. exact E.
  - split; [reflexivity|]. apply list_pop_None. exact E.
Qed.

Lemma dealt_refl p : Player.is_active p = false -> dealt 1 p p.
Proof.
  intros H. exists []. rewrite H, app_nil_r. split; [|reflexivity].
  destruct p; reflexivity.
Qed.

Lemma dealt_receive c p : Player.is_active p = true -> dealt 1 p (Player.receive_card c p).
Proof. intros H. exists [c]. rewrite H. split; reflexivity. Qed.

Lemma dealt_twice p p1 p2 : dealt 1 p p1 -> dealt 1 p1 p2 -> dealt 2 p p2.
Proof.
  intros (n1 & -> & H1) (n2 & -> & H2). simpl in *.
  exists (n1 ++ n2). rewrite <- app_assoc. split; [reflexivity|].
  rewrite length_app, H1, H2. destruct (Player.is_active p); reflexivity.
Qed.

Lemma dealt_active n p p' : dealt n p p' -> Player.is_active p' = Player.is_active p.
Proof. intros (new & -> & _). reflexivity. Qed.

(** One pass over the seats, with a card in the deck for every player in
    the hand. *)
Lemma deal_round_enough todo : forall done d,
  (length (filter (fun p => Player.is_active p = true) todo)
   <= length (Deck.cards d))%nat ->
  exists todo',
    (PokerGame.deal_round done todo d).1 = done ++ todo'
    /\ Forall2 (dealt 1) todo todo'
    /\ length (Deck.cards (PokerGame.deal_round done todo d).2)
       = (length (Deck.cards d)
          - length (filter (fun p => Player.is_active p = true) todo))%nat.
Proof.
  induction todo as [|p todo IH]; intros done d Hlen; simpl.
  - exists []. rewrite app_nil_r, Nat.sub_0_r. repeat split. constructor.
  - rewrite filter_cons in Hlen |- *.
    destruct (Player.is_active p) eqn:Ea.
    + rewrite decide_True in Hlen |- * by reflexivity. simpl in Hlen.
      pose proof (draw_cards d) as Hd.
      destruct (Deck.draw d) as [[c|] d'].
      * assert (Hl : length (Deck.cards d) = S (length (Deck.cards d'))).
        { rewrite Hd, length_app. simpl. lia. }
        destruct (IH (done ++ [Player.receive_card c p]) d') as (todo' & E & HF & HL);
          [lia|].
        exists (Player.receive_card c p :: todo').
        rewrite E, <- app_assoc. split; [reflexivity|].
        split; [constructor; [apply dealt_receive, Ea|exact HF]|].
        rewrite HL, Hl. simpl. lia.
      * destruct Hd as [_ Hd]. rewrite Hd in Hlen. simpl in Hlen. lia.
    + rewrite decide_False in Hlen |- * by discriminate.
      destruct (IH (done ++ [p]) d Hlen) as (todo' & E & HF & HL).
      exists (p :: todo'). rewrite E, <- app_assoc. split; [reflexivity|].
      split; [constructor; [apply dealt_refl, Ea|exact HF]|exact HL].
Qed.

(** A pass over the seats moves cards from the deck to the players and
    touches nothing else of a player. *)
Lemma deal_round_perm todo : forall done d,
  Permutation
    (concat (map Player.hole_cards (PokerGame.deal_round done todo d).1)
     ++ Deck.cards (PokerGame.deal_round done todo d).2)
    (concat (map Player.hole_cards (done ++ todo)) ++ Deck.cards d).
Proof.
  induction todo as [|p todo IH]; intros done d; simpl.
  - rewrite app_nil_r. reflexivity.
  - destruct (Player.is_active p).
    + pose proof (draw_cards d) as Hd.
      destruct (Deck.draw d) as [[c|] d'].
      * rewrite IH, Hd. rewrite !map_app, !concat_app. simpl.
        rewrite !app_nil_r, <- !app_assoc.
        apply Permutation_app_head, Permutation_app_head. simpl.
        rewrite (Permutation_app_comm (Deck.cards d') [c]).
        simpl. apply Permutation_middle.
      * destruct Hd as [-> _]. rewrite IH, <- app_assoc. reflexivity.
    + rewrite IH, <- app_assoc. reflexivity.
Qed.

Lemma deal_round_proj {A} (proj : Player.t -> A) todo : forall done d,
  (forall c p, proj (Player.receive_card c p) = proj p) ->
  map proj (PokerGame.deal_round done todo d).1 = map proj (done ++ todo).
Proof.
  induction todo as [|p todo IH]; intros done d Hp; simpl.
  - rewrite app_nil_r. reflexivity.
  - destruct (Player.is_active p).
    + destruct (Deck.draw d) as [[card|] d']; rewrite IH, <- app_assoc by exact Hp;
        rewrite !map_app; simpl; rewrite ?Hp; reflexivity.
    + rewrite IH, <- app_assoc by exact Hp. reflexivity.
Qed.

Lemma active_count_dealt n ps ps' :
  Forall2 (dealt n) ps ps' ->
  length (filter (fun p => Player.is_active p = true) ps')
  = length (filter (fun p => Player.is_active p = true) ps).
Proof.
  induction 1 as [|p p' ps ps' Hd HF IH]; [reflexivity|].
  rewrite !filter_cons, (dealt_active _ _ _ Hd).
  destruct (decide _); simpl; rewrite IH; reflexivity.
Qed.

Lemma active_players_filter g :
  length (Game.active_players g)
  = length (filter (fun p => Player.is_active p = true) (PokerGame.players g)).
Proof.
  rewrite active_players_length. unfold active_flags.
  induction (PokerGame.players g) as [|p ps IH]; [reflexivity|].
  simpl. rewrite !filter_cons.
  destruct (decide (Player.is_active p = true)); simpl; rewrite IH; reflexivity.
Qed.

(** X17. [deal_hole_cards] with enough cards in the deck, two for every
    player in the hand: each such player receives exactly two cards, added
    after the cards already held; a player out of the hand receives none;
    nothing else of any player changes; the deck shrinks by the number of
    cards dealt.  The cards dealt are cards of the deck: hole cards, board
    and deck together hold the same cards as before. *)
Theorem deal_hole_cards_two_each
    (shuffle_list : list Card -> list Card) (g : PokerGame.t) :
  (forall l, Permutation (shuffle_list l) l) ->
  (2 * length (Game.active_players g) <= Deck.remaining (PokerGame.deck g))%nat ->
  Forall2 (dealt 2) (PokerGame.players g)
          (PokerGame.players (PokerGame.deal_hole_cards shuffle_list g))
  /\ Deck.remaining (PokerGame.deck (PokerGame.deal_hole_cards shuffle_list g))
     = (Deck.remaining (PokerGame.deck g) - 2 * length (Game.active_players g))%nat
  /\ Permutation (cards_in_play (PokerGame.deal_hole_cards shuffle_list g))
                 (cards_in_play g).
Proof.
  intros Hsh Hlen. rewrite active_players_filter in *.
  unfold Deck.remaining in *. unfold PokerGame.deal_hole_cards, cards_in_play.
  set (d0 := Deck.shuffle shuffle_list (PokerGame.deck g)).
  assert (Hd0 : Permutation (Deck.cards d0) (Deck.cards (PokerGame.deck g)))
    by apply Hsh.
  pose proof (Permutation_length Hd0) as Hl0. simpl in Hl0.
  pose proof (deal_round_perm (PokerGame.players g) [] d0) as P1.
  destruct (deal_round_enough (PokerGame.players g) [] d0) as (ps1 & E1 & F1 & L1);
    [simpl; lia|].
  destruct (PokerGame.deal_round [] (PokerGame.players g) d0) as [ps d1].
  simpl in E1, L1, P1. subst ps.
  pose proof (active_count_dealt _ _ _ F1) as Hc.
  pose proof (deal_round_perm ps1 [] d1) as P2.
  destruct (deal_round_enough ps1 [] d1) as (ps2 & E2 & F2 & L2); [lia|].
  destruct (PokerGame.deal_round [] ps1 d1) as [ps d2].
  simpl in E2, L2, P2. subst ps. simpl.
  split; [|split].
  - clear -F1 F2. revert ps2 F2.
    induction F1 as [|p p1 ps ps1 Hd HF IH]; intros ps2 F2.
    + inversion F2. constructor.
    + inversion F2 as [|? p2 ? ps2' Hd2 HF2]; subst.
      constructor; [exact (dealt_twice _ _ _ Hd Hd2)|apply IH, HF2].
  - lia.
  - rewrite !(Permutation_app_swap_app _ (PokerGame.community_cards g)).
    apply Permutation_app_head. rewrite P2, P1, (Hsh _). reflexivity.
Qed.

Lemma deal_hole_cards_two_each_witness :
  let g := PokerGame.new 3 1000 5 10 false in
  Forall2 (dealt 2) (PokerGame.players g)
          (PokerGame.players (PokerGame.deal_hole_cards (@rev Card) g))
  /\ Deck.remaining (PokerGame.deck (PokerGame.deal_hole_cards (@rev Card) g))
     = (Deck.remaining (PokerGame.deck g) - 2 * length (Game.active_players g))%nat
  /\ Permutation (cards_in_play (PokerGame.deal_hole_cards (@rev Card) g))
                 (cards_in_play g).
Proof.
  intros g. apply deal_hole_cards_two_each.
  - intros l. symmetry. apply Permutation_rev.
  - vm_compute. lia.
Defined.

(** ** A whole hand *)

(** The shape of [play_hand]: after [reset_hand], a sequence of blinds,
    deals and betting rounds, then the payout.  A relation kept by each
    step is kept from the reset table to the table that is paid out. *)
Lemma play_hand_steps (R : PokerGame.t -> PokerGame.t -> Prop)
    shuffle_list fuel g g' ws :
  (forall g, R g g) ->
  (forall a b c, R a b -> R b c -> R a c) ->
  (forall g g1, Game.post_small_blind g = Ok g1 -> R g g1) ->
  (forall g g1, Game.post_big_blind g = Ok g1 -> R g g1) ->
  (forall g, R g (PokerGame.deal_hole_cards shuffle_list g)) ->
  (forall fuel g b g1, Game._betting_round fuel g = Some (Ok (b, g1)) -> R g g1) ->
  (forall g, R g (PokerGame.deal_community g)) ->
  Session.play_hand shuffle_list fuel g = Some (Ok (g', ws)) ->
  exists g0 gR,
    PokerGame.reset_hand g = Ok g0
    /\ (exists g1, Game.post_small_blind g0 = Ok g1)
    /\ R g0 gR
    /\ Game._resolve_winners gR = Ok (g', ws).
Proof.
  intros Hrefl Htrans Hsb Hbb Hdeal Hbet Hcom.
  assert (Hflop : forall g, R g (PokerGame.deal_flop g)).
  { intros x. unfold PokerGame.deal_flop.
    destruct (PokerGame.four_card_flop x); simpl;
      repeat (eapply Htrans; [|apply Hcom]); apply Hrefl. }
  unfold Session.play_hand. intros H.
  destruct (PokerGame.reset_hand g) as [g0|] eqn:H0; simpl in H; [|discriminate].
  exists g0.
  destruct (Game.post_small_blind g0) as [g1|] eqn:H1; simpl in H; [|discriminate].
  destruct (Game.post_big_blind g1) as [g2|] eqn:H2; simpl in H; [|discriminate].
  assert (S3 : R g0 (PokerGame.deal_hole_cards shuffle_list g2)).
  { eapply Htrans; [apply Hsb, H1|]. eapply Htrans; [apply Hbb, H2|apply Hdeal]. }
  destruct (Game._betting_round fuel _) as [[r|]|] eqn:E; simpl in H;
    try discriminate H.
  assert (S4 : R g0 r.2).
  { destruct r as [b gr]. eapply Htrans; [exact S3|]. eapply Hbet. exact E. }
  clear E S3.
  destruct (negb r.1).
  { exists r.2. injection H as H. eauto 6. }
  destruct (Game._betting_round fuel _) as [[r0|]|] eqn:E; simpl in H;
    try discriminate H.
  assert (S5 : R g0 r0.2).
  { destruct r0 as [b gr]. eapply Htrans; [exact S4|].
    eapply Htrans; [apply Hflop|]. eapply Hbet. exact E. }
  clear E S4.
  destruct (negb r0.1).
  { exists r0.2. injection H as H. eauto 6. }
  destruct (py_index _ 3) as [c3|]; simpl in H; [|discriminate].
  destruct (Game._betting_round fuel _) as [[r1|]|] eqn:E; simpl in H;
    try discriminate H.
  assert (S6 : R g0 r1.2).
  { destruct r1 as [b gr]. eapply Htrans; [exact S5|].
    eapply Htrans; [apply Hcom|]. eapply Hbet. exact E. }
  clear E S5.
  destruct (negb r1.1).
  { exists r1.2. injection H as H. eauto 6. }
  destruct (py_index _ 4) as [c4|]; simpl in H; [|discriminate].
  destruct (Game._betting_round fuel _) as [[r2|]|] eqn:E; simpl in H;
    try discriminate H.
  assert (S7 : R g0 r2.2).
  { destruct r2 as [b gr]. eapply Htrans; [exact S6|].
    eapply Htrans; [apply Hcom|]. eapply Hbet. exact E. }
  exists r2.2. injection H as H. eauto 6.
Qed.

Lemma active_flags_count g g' :
  active_flags g' = active_flags g ->
  length (Game.active_players g') = length (Game.active_players g).
Proof. intros H. rewrite !active_players_length, H. reflexivity. Qed.

Lemma hand_step_refl g : hand_step g g.
Proof. split; [reflexivity|]. split; [reflexivity|auto]. Qed.

Lemma hand_step_trans g1 g2 g3 : hand_step g1 g2 -> hand_step g2 g3 -> hand_step g1 g3.
Proof.
  intros (B1 & C1 & D1) (B2 & C2 & D2).
  split; [congruence|]. split; [congruence|auto].
Qed.

Lemma cards_step_refl g : cards_step g g.
Proof. unfold cards_step. reflexivity. Qed.

Lemma cards_step_trans g1 g2 g3 : cards_step g1 g2 -> cards_step g2 g3 -> cards_step g1 g3.
Proof. unfold cards_step. intros H1 H2. rewrite H2. exact H1. Qed.

Lemma player_seat_names ps ps' :
  map player_seat ps' = map player_seat ps ->
  map Player.name ps' = map Player.name ps
  /\ map Player.hole_cards ps' = map Player.hole_cards ps.
Proof.
  revert ps'. induction ps as [|p ps IH]; intros [|p' ps'] H; simpl in H;
    try discriminate; [split; reflexivity|].
  injection H as Hn Hh _ H. destruct (IH _ H) as [H1 H2]. simpl.
  rewrite Hn, Hh, H1, H2. split; reflexivity.
Qed.

(** What betting leaves alone includes the cards, the settings and the
    names. *)
Lemma round_frame_cards g g' : round_frame g g' -> cards_step g g'.
Proof.
  intros (A & B & _ & _). unfold cards_step, cards_in_play.
  apply player_seat_names in B as [_ B]. rewrite B.
  unfold table_setup in A. injection A as _ _ _ _ _ -> -> _. reflexivity.
Qed.

Lemma round_frame_step g g' :
  round_frame g g' ->
  ((1 <= length (Game.active_players g))%nat ->
   (1 <= length (Game.active_players g'))%nat) ->
  hand_step g g'.
Proof.
  intros (A & B & _ & _) Ha.
  apply player_seat_names in B as [B _].
  unfold table_setup in A. injection A as E1 E2 E3 E4 E5 _ _ E6.
  split; [unfold game_config; congruence|]. split; [exact B|exact Ha].
Qed.

Lemma post_small_blind_frame g g' :
  Game.post_small_blind g = Ok g' ->
  round_frame g g'
  /\ length (Game.active_players g') = length (Game.active_players g).
Proof.
  unfold Game.post_small_blind.
  destruct (py_mod _ _) as [sb_pos|]; simpl; [|discriminate].
  destruct (PokerGame.update_player sb_pos _ g) as [g1|] eqn:H1; simpl; [|discriminate].
  destruct (PokerGame.update_player sb_pos _ g1) as [g2|] eqn:H2; simpl; [|discriminate].
  intros H. injection H as <-.
  apply update_player_frame in H1 as [F1 E1]; [|reflexivity|reflexivity].
  apply update_player_frame in H2 as [F2 E2]; [|reflexivity|reflexivity].
  split; [|exact (eq_trans E2 E1)].
  exact (round_frame_trans _ _ _ F1 F2).
Qed.

Lemma post_big_blind_frame g g' :
  Game.post_big_blind g = Ok g' ->
  round_frame g g'
  /\ length (Game.active_players g') = length (Game.active_players g).
Proof.
  unfold Game.post_big_blind.
  destruct (py_mod _ _) as [bb_pos|]; simpl; [|discriminate].
  destruct (PokerGame.update_player bb_pos _ g) as [g1|] eqn:H1; simpl; [|discriminate].
  destruct (PokerGame.update_player bb_pos _ g1) as [g2|] eqn:H2; simpl; [|discriminate].
  intros H. injection H as <-.
  apply update_player_frame in H1 as [F1 E1]; [|reflexivity|reflexivity].
  apply update_player_frame in H2 as [F2 E2]; [|reflexivity|reflexivity].
  split; [|exact (eq_trans E2 E1)].
  exact (round_frame_trans _ _ _ F1 F2).
Qed.

Lemma post_small_blind_step g g' :
  Game.post_small_blind g = Ok g' -> hand_step g g'.
Proof.
  intros H. destruct (post_small_blind_frame _ _ H) as [F E].
  apply round_frame_step; [exact F|rewrite E; auto].
Qed.

Lemma post_big_blind_step g g' :
  Game.post_big_blind g = Ok g' -> hand_step g g'.
Proof.
  intros H. destruct (post_big_blind_frame _ _ H) as [F E].
  apply round_frame_step; [exact F|rewrite E; auto].
Qed.

Lemma _betting_round_step fuel g b g' :
  Game._betting_round fuel g = Some (Ok (b, g')) -> hand_step g g'.
Proof.
  intros H. destruct (_betting_round_spec _ _ _ _ H) as (F & _ & _ & Ha).
  apply round_frame_step; [exact F|exact Ha].
Qed.

Lemma deal_hole_cards_proj {A} (proj : Player.t -> A) shuffle_list g :
  (forall c p, proj (Player.receive_card c p) = proj p) ->
  map proj (PokerGame.players (PokerGame.deal_hole_cards shuffle_list g))
  = map proj (PokerGame.players g).
Proof.
  intros Hp. unfold PokerGame.deal_hole_cards.
  pose proof (deal_round_proj proj (PokerGame.players g) []
                (Deck.shuffle shuffle_list (PokerGame.deck g)) Hp) as H1.
  destruct (PokerGame.deal_round [] (PokerGame.players g) _) as [ps d].
  pose proof (deal_round_proj proj ps [] d Hp) as H2.
  destruct (PokerGame.deal_round [] ps d) as [ps' d'].
  simpl in *. congruence.
Qed.

Lemma deal_hole_cards_table shuffle_list g :
  exists ps d,
    PokerGame.deal_hole_cards shuffle_list g
    = PokerGame.set_deck d (PokerGame.set_players ps g).
Proof.
  unfold PokerGame.deal_hole_cards.
  destruct (PokerGame.deal_round [] (PokerGame.players g) _) as [ps d].
  destruct (PokerGame.deal_round [] ps d) as [ps' d']. eauto.
Qed.

Lemma deal_hole_cards_step shuffle_list g :
  hand_step g (PokerGame.deal_hole_cards shuffle_list g).
Proof.
  pose proof (deal_hole_cards_proj Player.name shuffle_list g (fun _ _ => eq_refl))
    as Hn.
  pose proof (deal_hole_cards_proj Player.is_active shuffle_list g
                (fun _ _ => eq_refl)) as Ha.
  destruct (deal_hole_cards_table shuffle_list g) as (ps & d & E).
  split; [|split].
  - rewrite E. reflexivity.
  - exact Hn.
  - rewrite (active_flags_count g _ Ha). auto.
Qed.

Lemma deal_hole_cards_perm shuffle_list g :
  (forall l, Permutation (shuffle_list l) l) ->
  cards_step g (PokerGame.deal_hole_cards shuffle_list g).
Proof.
  intros Hsh. unfold cards_step, PokerGame.deal_hole_cards, cards_in_play.
  pose proof (deal_round_perm (PokerGame.players g) []
                (Deck.shuffle shuffle_list (PokerGame.deck g))) as P1.
  destruct (PokerGame.deal_round [] (PokerGame.players g) _) as [ps1 d1].
  pose proof (deal_round_perm ps1 [] d1) as P2.
  destruct (PokerGame.deal_round [] ps1 d1) as [ps2 d2].
  simpl in *.
  rewrite !(Permutation_app_swap_app _ (PokerGame.community_cards g)).
  apply Permutation_app_head. rewrite P2, P1, (Hsh _). reflexivity.
Qed.

Lemma deal_community_step g : hand_step g (PokerGame.deal_community g).
Proof.
  unfold PokerGame.deal_community.
  destruct (Deck.draw _) as [[card|] d'];
    (split; [reflexivity|]; split; [reflexivity|auto]).
Qed.

Lemma deal_community_perm g : cards_step g (PokerGame.deal_community g).
Proof.
  unfold cards_step, cards_in_play, PokerGame.deal_community.
  pose proof (draw_cards (PokerGame.deck g)) as Hd.
  destruct (Deck.draw _) as [[card|] d']; simpl.
  - rewrite Hd, <- !app_assoc. apply Permutation_app_head, Permutation_app_head.
    apply Permutation_app_comm.
  - destruct Hd as [-> _]. reflexivity.
Qed.

(** The payout. *)
Lemma map_alter_proj {A} (proj : Player.t -> A) (f : Player.t -> Player.t) ps k :
  (forall p, proj (f p) = proj p) ->
  map proj (alter f k ps) = map proj ps.
Proof.
  intros Hf. revert k. induction ps as [|a ps IH]; intros [|k]; simpl;
    try reflexivity.
  - rewrite Hf. reflexivity.
  - f_equal. apply IH.
Qed.

Lemma foldl_credit_proj {A} (proj : Player.t -> A) w seats g :
  (forall v p, proj (Player.set_stack v p) = proj p) ->
  map proj (PokerGame.players (foldl (Game.credit w) g seats))
  = map proj (PokerGame.players g)
  /\ foldl (Game.credit w) g seats
     = PokerGame.set_players
         (PokerGame.players (foldl (Game.credit w) g seats)) g.
Proof.
  intros Hp. revert g. induction seats as [|s seats IH]; intros g; simpl.
  - split; [reflexivity|]. destruct g; reflexivity.
  - destruct (IH (Game.credit w g s)) as [H1 H2]. split.
    + rewrite H1. unfold Game.credit. simpl. apply map_alter_proj.
      intros p. apply Hp.
    + rewrite H2 at 1. reflexivity.
Qed.

Lemma take_until_break_elem {A} (test : A -> bool) (l : list A) x :
  x ∈ take_until_break test l -> x ∈ l.
Proof.
  induction l as [|a l IH]; simpl; [intros H; inversion H|].
  destruct (test a); [|intros H; inversion H].
  intros H. apply elem_of_cons in H as [->|H]; [left|right; auto].
Qed.

Lemma res_map_elem {A B} (f : A -> res B) (l : list A) bs b :
  res_map f l = Ok bs -> b ∈ bs -> exists a, a ∈ l /\ f a = Ok b.
Proof.
  revert bs. induction l as [|a l IH]; intros bs H Hb; simpl in H.
  - injection H as <-. inversion Hb.
  - destruct (f a) as [b0|] eqn:E; simpl in H; [|discriminate].
    destruct (res_map f l) as [bs0|]; simpl in H; [|discriminate].
    injection H as <-. apply elem_of_cons in Hb as [->|Hb].
    + exists a. split; [left|exact E].
    + destruct (IH bs0 eq_refl Hb) as (a' & Ha' & E').
      exists a'. split; [right; exact Ha'|exact E'].
Qed.

Lemma take_until_break_sublist {A} (test : A -> bool) (l : list A) :
  sublist (take_until_break test l) l.
Proof.
  induction l as [|a l IH]; simpl; [constructor|].
  destruct (test a); [constructor; exact IH|apply sublist_nil_l].
Qed.

Lemma res_map_seats (cc : list Card) (l : list (nat * Player.t)) hands :
  res_map (fun ip : nat * Player.t =>
             do h <- Player.evaluate_hand ip.2 cc; Ok (ip.1, h)) l = Ok hands ->
  map fst hands = map fst l.
Proof.
  revert hands. induction l as [|[s p] l IH]; intros hands H; simpl in H.
  - injection H as <-. reflexivity.
  - destruct (Player.evaluate_hand p cc) as [h|]; simpl in H; [|discriminate].
    destruct (res_map _ l) as [hs|]; simpl in H; [|discriminate].
    injection H as <-. simpl. rewrite (IH hs eq_refl). reflexivity.
Qed.

(** The amount that [_resolve_winners] lists for each of [n] winners: the
    whole pot when a single player is left in the hand, the float quotient
    of the pot by [n] at a showdown. *)
Lemma _resolve_winners_Ok g g' ws :
  Game._resolve_winners g = Ok (g', ws) ->
  exists w seats,
    g' = foldl (Game.credit w) g seats
    /\ ws = map (fun s => (s, w)) seats
    /\ NoDup seats
    /\ (forall s, s ∈ seats -> exists p, (s, p) ∈ Game.active_players g)
    /\ (Game.active_players g = [] -> seats = [])
    /\ (Game.active_players g <> [] ->
        seats <> []
        /\ w = if decide (length (Game.active_players g) = 1%nat)
               then PokerGame.pot g
               else fdiv (PokerGame.pot g)
                      (float_of_int (Z.of_nat (length seats)))).
Proof.
  unfold Game._resolve_winners.
  pose proof (active_players_seats g) as Hseats.
  destruct (Game.active_players g) as [|[seat winner] [|second rest]] eqn:Hact.
  - intros H. injection H as <- <-. exists 0%Q, [].
    split; [reflexivity|]. split; [reflexivity|]. split; [constructor|].
    split; [intros s Hs; inversion Hs|]. split; [reflexivity|contradiction].
  - intros H. injection H as <- <-. exists (PokerGame.pot g), [seat].
    split; [reflexivity|]. split; [reflexivity|].
    split; [apply NoDup_singleton|]. split; [|split].
    + intros s Hs. apply list_elem_of_singleton in Hs as ->.
      exists winner. left.
    + discriminate.
    + intros _. split; [discriminate|reflexivity].
  - set (active := (seat, winner) :: second :: rest) in *.
    set (f := fun ip : nat * Player.t =>
                do h <- Player.evaluate_hand ip.2 (PokerGame.community_cards g);
                Ok (ip.1, h)).
    destruct (res_map f active) as [hands|] eqn:Hmap; simpl; [|discriminate].
    set (sorted := py_sorted_rev _ hands).
    destruct (py_index sorted 0) as [best|]; simpl; [|discriminate].
    set (winners := map fst (take_until_break _ sorted)).
    destruct (bool_decide (length winners = 0%nat)) eqn:Hz; simpl; [discriminate|].
    apply bool_decide_eq_false in Hz.
    intros H. injection H as <- <-.
    exists (fdiv (PokerGame.pot g) (float_of_int (Z.of_nat (length winners)))),
           winners.
    split; [reflexivity|]. split; [reflexivity|]. split; [|split; [|split]].
    + unfold winners. eapply sublist_NoDup.
      2:{ change (map fst ?l) with (fst <$> l).
          apply fmap_sublist, take_until_break_sublist. }
      assert (P : Permutation (fst <$> sorted) (fst <$> hands)).
      { unfold sorted. rewrite py_sorted_rev_perm. reflexivity. }
      rewrite P. change (fst <$> hands) with (map fst hands).
      rewrite (res_map_seats _ _ _ Hmap). exact Hseats.
    + intros s Hs. unfold winners in Hs.
      change (map fst ?l) with (fst <$> l) in Hs.
      apply list_elem_of_fmap in Hs as ([s' h] & -> & Hin). simpl.
      apply take_until_break_elem in Hin. unfold sorted in Hin.
      rewrite py_sorted_rev_perm in Hin.
      destruct (res_map_elem _ _ _ _ Hmap Hin) as ([s0 p0] & Hp & Hf).
      unfold f in Hf. simpl in Hf.
      destruct (Player.evaluate_hand p0 _) as [h0|]; simpl in Hf; [|discriminate].
      injection Hf as -> _. exists p0. exact Hp.
    + discriminate.
    + intros _. split; [|reflexivity]. intros E. apply Hz. rewrite E. reflexivity.
Qed.

Lemma active_players_valid g seat p :
  (seat, p) ∈ Game.active_players g ->
  PokerGame.players g !! seat = Some p /\ Player.is_active p = true.
Proof.
  unfold Game.active_players. intros H.
  apply list_elem_of_filter in H as [Ha H]. simpl in Ha.
  apply elem_of_lookup_imap in H as (i & x & E & Hx).
  injection E as -> ->. auto.
Qed.

(** The payout credits each winner once, by a float addition of the amount
    listed, and no other stack. *)
Lemma _resolve_winners_pays g g' ws :
  Game._resolve_winners g = Ok (g', ws) ->
  (1 <= length (Game.active_players g))%nat ->
  ws <> []
  /\ (forall s w, (s, w) ∈ ws ->
        w = if decide (length (Game.active_players g) = 1%nat)
            then PokerGame.pot g
            else fdiv (PokerGame.pot g) (float_of_int (Z.of_nat (length ws))))
  /\ (forall s w, (s, w) ∈ ws ->
        exists p p', PokerGame.players g !! s = Some p
          /\ PokerGame.players g' !! s = Some p'
          /\ Player.stack p' = fadd (Player.stack p) w)
  /\ (forall s, s ∉ map fst ws ->
        Player.stack <$> (PokerGame.players g' !! s)
        = Player.stack <$> (PokerGame.players g !! s)).
Proof.
  intros H Ha.
  destruct (_resolve_winners_Ok _ _ _ H)
    as (w & seats & -> & -> & Hnd & Hv & _ & Hne).
  destruct Hne as [Hne Hw].
  { intros E. rewrite E in Ha. simpl in Ha. lia. }
  assert (Hin : forall s w', (s, w') ∈ map (fun s => (s, w)) seats ->
                  s ∈ seats /\ w' = w).
  { intros s w' Hs. change (map ?f ?l) with (f <$> l) in Hs.
    apply list_elem_of_fmap in Hs as (s' & E & Hs). injection E as -> ->.
    split; [exact Hs|reflexivity]. }
  split; [destruct seats; [congruence|discriminate]|]. split; [|split].
  - intros s w' Hs. apply Hin in Hs as [_ ->]. rewrite length_map. exact Hw.
  - intros s w' Hs. apply Hin in Hs as [Hs ->].
    destruct (Hv s Hs) as [p Hp]. apply active_players_valid in Hp as [Hp _].
    exists p. eexists. split; [exact Hp|].
    rewrite (foldl_credit_lookup w seats g s Hnd), decide_True by exact Hs.
    rewrite Hp. split; reflexivity.
  - intros s Hs. rewrite map_map in Hs. simpl in Hs. rewrite map_id in Hs.
    rewrite (foldl_credit_lookup w seats g s Hnd), decide_False by exact Hs.
    reflexivity.
Qed.

Lemma _resolve_winners_frame g g' ws :
  Game._resolve_winners g = Ok (g', ws) ->
  table_setup g' = table_setup g
  /\ map player_seat (PokerGame.players g') = map player_seat (PokerGame.players g)
  /\ active_flags g' = active_flags g
  /\ PokerGame.pot g' = PokerGame.pot g
  /\ PokerGame.current_bet g' = PokerGame.current_bet g.
Proof.
  intros H.
  destruct (_resolve_winners_Ok _ _ _ H) as (w & seats & -> & _).
  destruct (foldl_credit_proj player_seat w seats g (fun _ _ => eq_refl)) as [H1 H2].
  destruct (foldl_credit_proj Player.is_active w seats g (fun _ _ => eq_refl))
    as [H3 _].
  split; [rewrite H2; reflexivity|]. split; [exact H1|].
  split; [exact H3|]. rewrite H2. split; reflexivity.
Qed.

Lemma cards_in_play_frame g g' :
  table_setup g' = table_setup g ->
  map player_seat (PokerGame.players g') = map player_seat (PokerGame.players g) ->
  cards_in_play g' = cards_in_play g.
Proof.
  intros A B. unfold cards_in_play.
  apply player_seat_names in B as [_ B]. rewrite B.
  unfold table_setup in A. injection A as _ _ _ _ _ -> -> _. reflexivity.
Qed.

Lemma reset_hand_cards g g0 :
  PokerGame.reset_hand g = Ok g0 -> cards_in_play g0 = Deck.full_deck.
Proof.
  intros H. destruct (reset_hand_Ok _ _ H) as (ps & _ & ->).
  unfold cards_in_play. simpl.
  assert (E : concat (map Player.hole_cards
                (map (PokerGame.reset_player (PokerGame.initial_stack g)) ps)) = []).
  { clear H. induction ps as [|p ps IH]; [reflexivity|]. simpl. rewrite IH.
    unfold PokerGame.reset_player. destruct (Qleb _ _); reflexivity. }
  rewrite E. reflexivity.
Qed.

Lemma reset_hand_active g g0 :
  PokerGame.reset_hand g = Ok g0 ->
  length (Game.active_players g0) = length (PokerGame.players g0).
Proof.
  intros H. destruct (reset_hand_Ok _ _ H) as (ps & _ & ->).
  rewrite active_players_filter. simpl. clear H.
  induction ps as [|p ps IH]; [reflexivity|]. simpl. rewrite filter_cons.
  rewrite decide_True; [simpl; rewrite IH; reflexivity|].
  unfold PokerGame.reset_player. destruct (Qleb _ _); reflexivity.
Qed.

(** X18. The cards of a hand.  With a shuffle that permutes the deck, the
    hole cards, the board and the deck after a hand played are together the
    52 cards of a full deck, each once: no card is dealt twice, to two
    players or to a player and the board. *)
Theorem hand_keeps_the_deck
    (shuffle_list : list Card -> list Card) (fuel : nat)
    (g g' : PokerGame.t) (ws : list (nat * Q)) :
  (forall l, Permutation (shuffle_list l) l) ->
  Session.play_hand shuffle_list fuel g = Some (Ok (g', ws)) ->
  Permutation (cards_in_play g') Deck.full_deck
  /\ NoDup (cards_in_play g').
Proof.
  intros Hsh H.
  apply (play_hand_steps cards_step) in H.
  - destruct H as (g0 & gR & H0 & _ & HR & Hres).
    apply _resolve_winners_frame in Hres as (A & B & _).
    assert (P : Permutation (cards_in_play g') Deck.full_deck).
    { rewrite (cards_in_play_frame _ _ A B). unfold cards_step in HR.
      rewrite HR. rewrite (reset_hand_cards _ _ H0). reflexivity. }
    split; [exact P|]. rewrite P. apply full_deck_NoDup.
  - apply cards_step_refl.
  - apply cards_step_trans.
  - intros x y Hx. apply round_frame_cards, (post_small_blind_frame _ _ Hx).
  - intros x y Hx. apply round_frame_cards, (post_big_blind_frame _ _ Hx).
  - intros x. apply deal_hole_cards_perm, Hsh.
  - intros f x b y Hx. apply round_frame_cards, (_betting_round_spec _ _ _ _ Hx).
  - apply deal_community_perm.
Qed.

Lemma hand_keeps_the_deck_witness :
  match Session.play_hand (fun l => l) 100 (PokerGame.new 3 1000 5 10 false) with
  | Some (Ok (g', ws)) =>
      Permutation (cards_in_play g') Deck.full_deck /\ NoDup (cards_in_play g')
  | _ => False
  end.
Proof.
  destruct (Session.play_hand (fun l => l) 100 (PokerGame.new 3 1000 5 10 false))
    as [[[g' ws]|e]|] eqn:E.
  - exact (hand_keeps_the_deck (fun l => l) 100%nat _ g' ws
             (fun l => Permutation_refl l) E).
  - vm_compute in E. discriminate E.
  - vm_compute in E. discriminate E.
Defined.

Lemma play_hand_frame shuffle_list fuel g g' ws :
  Session.play_hand shuffle_list fuel g = Some (Ok (g', ws)) ->
  exists g0 gR,
    PokerGame.reset_hand g = Ok g0
    /\ hand_step g0 gR
    /\ (1 <= length (Game.active_players gR))%nat
    /\ Game._resolve_winners gR = Ok (g', ws).
Proof.
  intros H. apply (play_hand_steps hand_step) in H.
  - destruct H as (g0 & gR & H0 & [g1 H1] & HR & Hres).
    exists g0, gR. split; [exact H0|]. split; [exact HR|]. split; [|exact Hres].
    destruct HR as (_ & _ & Ha). apply Ha.
    rewrite (reset_hand_active _ _ H0).
    destruct (post_small_blind_moves _ _ H1) as (k & [p Hk] & _).
    apply lookup_lt_Some in Hk. lia.
  - apply hand_step_refl.
  - apply hand_step_trans.
  - apply post_small_blind_step.
  - apply post_big_blind_step.
  - apply deal_hole_cards_step.
  - apply _betting_round_step.
  - apply deal_community_step.
Qed.



Lemma run_simulation_positions_keeps seats g g' :
  PokerGame.run_simulation_positions seats g = Ok g' ->
  g' = PokerGame.set_players (PokerGame.players g') g.
Proof.
  revert g. induction seats as [|i seats IH]; intros g H; simpl in H.
  - injection H as <-. destruct g; reflexivity.
  - destruct (py_mod _ _) as [pos|]; simpl in H; [|discriminate].
    destruct (py_index _ pos) as [label|]; simpl in H; [|discriminate].
    destruct (PokerGame.update_player i _ g) as [g1|] eqn:E; simpl in H;
      [|discriminate].
    rewrite (IH _ H), (update_player_table _ _ _ _ E). reflexivity.
Qed.

Lemma run_one_hand_button shuffle_list fuel g g' entry :
  Session.run_one_hand shuffle_list fuel g = Some (Ok (g', entry)) ->
  PokerGame.num_players g <> 0
  /\ PokerGame.num_players g' = PokerGame.num_players g
  /\ PokerGame.button_pos g'
     = (PokerGame.button_pos g + 2) mod PokerGame.num_players g.
Proof.
  unfold Session.run_one_hand. intros H.
  unfold py_mod in H at 1.
  destruct (PokerGame.num_players g =? 0) eqn:En; simpl in H; [discriminate|].
  apply Z.eqb_neq in En.
  destruct (PokerGame.run_simulation_positions _ _) as [g1|] eqn:E1; simpl in H;
    [|discriminate].
  apply run_simulation_positions_keeps in E1.
  destruct (Session.play_hand shuffle_list fuel g1) as [[[g2 ws]|]|] eqn:E2;
    simpl in H; try discriminate.
  destruct (Session._log_hand_results g2 ws) as [e|]; simpl in H; [|discriminate].
  injection H as <- _.
  destruct (play_hand_frame _ _ _ _ _ E2) as (g0 & gR & H0 & HR & _ & Hres).
  destruct (_resolve_winners_frame _ _ _ Hres) as (A & _).
  destruct HR as (B & _).
  destruct (reset_hand_Ok _ _ H0) as (ps & _ & E0).
  unfold table_setup in A. injection A as A1 _ _ _ _ _ _ A2.
  unfold game_config in B. injection B as B1 _ _ _ _ B2.
  rewrite A1, A2, B1, B2, E0, E1. simpl.
  split; [exact En|]. split; [reflexivity|].
  rewrite Z.add_mod_idemp_l by exact En. f_equal. lia.
Qed.

Lemma run_hands_spec shuffle_list fuel n : forall g g' log,
  Session.run_hands shuffle_list fuel n g = Some (Ok (g', log)) ->
  length log = n
  /\ (n = 0%nat -> g' = g)
  /\ PokerGame.num_players g' = PokerGame.num_players g
  /\ ((0 < n)%nat ->
      PokerGame.button_pos g'
      = (PokerGame.button_pos g + 2 * Z.of_nat n) mod PokerGame.num_players g).
Proof.
  induction n as [|n IH]; intros g g' log H; simpl in H.
  - injection H as <- <-. repeat split; try reflexivity. lia.
  - destruct (Session.run_one_hand shuffle_list fuel g) as [[[g1 e]|]|] eqn:E1;
      simpl in H; try discriminate.
    destruct (Session.run_hands shuffle_list fuel n g1) as [[[g2 es]|]|] eqn:E2;
      simpl in H; try discriminate.
    injection H as <- <-.
    destruct (run_one_hand_button _ _ _ _ _ E1) as (Hn & N1 & B1).
    destruct (IH _ _ _ E2) as (L & Z0 & N2 & B2).
    split; [simpl; rewrite L; reflexivity|]. split; [discriminate|].
    split; [congruence|]. intros _.
    destruct n as [|n].
    + rewrite (Z0 eq_refl), B1. reflexivity.
    + rewrite B2 by lia. rewrite N1, B1, Z.add_mod_idemp_l by exact Hn.
      f_equal. lia.
Qed.

(** X20. The simulation loop.  [run_simulation] plays exactly [num_hands]
    hands, none when that number is not positive, and logs one entry per
    hand.  The button moves two seats per hand: the loop advances it and
    sets the positions, then [play_hand] calls [reset_hand], which advances
    it again.  The size of the table does not change. *)
Theorem button_moves_two_seats
    (shuffle_list : list Card -> list Card) (fuel : nat) (num_hands : Z)
    (g g' : PokerGame.t) (log : list HandLog.t) :
  Session.run_simulation shuffle_list fuel num_hands g = Some (Ok (g', log)) ->
  length log = Z.to_nat num_hands
  /\ (num_hands <= 0 -> g' = g)
  /\ PokerGame.num_players g' = PokerGame.num_players g
  /\ (0 < num_hands ->
      PokerGame.button_pos g'
      = (PokerGame.button_pos g + 2 * num_hands) mod PokerGame.num_players g).
Proof.
  unfold Session.run_simulation. intros H.
  destruct (run_hands_spec _ _ _ _ _ _ H) as (L & Z0 & N & B).
  split; [exact L|]. split; [intros Hle; apply Z0; lia|].
  split; [exact N|]. intros Hpos. rewrite B by lia. f_equal. lia.
Qed.

Lemma button_moves_two_seats_witness :
  match Session.run_simulation (fun l => l) 100 2 (PokerGame.new 3 1000 5 10 false) with
  | Some (Ok (g', log)) =>
      length log = 2%nat /\ PokerGame.num_players g' = 3
      /\ PokerGame.button_pos g' = (0 + 2 * 2) mod 3
  | _ => False
  end.
Proof.
  destruct (Session.run_simulation (fun l => l) 100 2
              (PokerGame.new 3 1000 5 10 false)) as [[[g' log]|e]|] eqn:E.
  - destruct (button_moves_two_seats (fun l => l) 100%nat 2 _ g' log E)
      as (L & _ & N & B).
    split; [exact L|]. split; [exact N|]. apply B. lia.
  - vm_compute in E. discriminate E.
  - vm_compute in E. discriminate E.
Defined.

(** ** The payout, the log and the simulation loop *)

(** X21. The payout.  [_resolve_winners] changes stacks only: the board,
    the deck, the bets, who is in the hand, and the [pot] field, which it
    does not clear, stay as they are.  Only players still in the hand are
    paid, all the same amount.  With nobody in the hand nothing is paid;
    otherwise somebody is: the amount is the whole pot when a single player
    is left and the float quotient of the pot by the number of winners at a
    showdown, each winner's stack takes it by one float addition, and no
    other stack changes. *)
Theorem payout_hands_over_the_pot (g g' : PokerGame.t) (ws : list (nat * Q)) :
  Game._resolve_winners g = Ok (g', ws) ->
  table_setup g' = table_setup g
  /\ map player_seat (PokerGame.players g') = map player_seat (PokerGame.players g)
  /\ active_flags g' = active_flags g
  /\ PokerGame.pot g' = PokerGame.pot g
  /\ (forall s w, (s, w) ∈ ws ->
        exists p, PokerGame.players g !! s = Some p /\ Player.is_active p = true)
  /\ (forall s1 w1 s2 w2, (s1, w1) ∈ ws -> (s2, w2) ∈ ws -> w1 = w2)
  /\ (Game.active_players g = [] -> g' = g /\ ws = [])
  /\ ((1 <= length (Game.active_players g))%nat ->
      ws <> []
      /\ (forall s w, (s, w) ∈ ws ->
            w = if decide (length (Game.active_players g) = 1%nat)
                then PokerGame.pot g
                else fdiv (PokerGame.pot g)
                       (float_of_int (Z.of_nat (length ws))))
      /\ (forall s w, (s, w) ∈ ws ->
            exists p p', PokerGame.players g !! s = Some p
              /\ PokerGame.players g' !! s = Some p'
              /\ Player.stack p' = fadd (Player.stack p) w)
      /\ (forall s, s ∉ map fst ws ->
            Player.stack <$> (PokerGame.players g' !! s)
            = Player.stack <$> (PokerGame.players g !! s))).
Proof.
  intros H.
  destruct (_resolve_winners_frame _ _ _ H) as (A & B & C & D & _).
  do 4 (split; [assumption|]).
  pose proof (_resolve_winners_pays _ _ _ H) as Hpay.
  destruct (_resolve_winners_Ok _ _ _ H)
    as (w & seats & -> & -> & _ & Hv & Hnil & _).
  split; [|split; [|split; [|exact Hpay]]].
  - intros s w' Hin. change (map ?f ?l) with (f <$> l) in Hin.
    apply list_elem_of_fmap in Hin as (s' & E & Hs). injection E as -> ->.
    destruct (Hv _ Hs) as [p Hp]. exists p. apply active_players_valid. exact Hp.
  - intros s1 w1 s2 w2 H1 H2. change (map ?f ?l) with (f <$> l) in H1, H2.
    apply list_elem_of_fmap in H1 as (? & E1 & _).
    apply list_elem_of_fmap in H2 as (? & E2 & _). congruence.
  - intros E. rewrite (Hnil E). split; reflexivity.
Qed.

Lemma payout_hands_over_the_pot_witness :
  let p0 := Player.mk "Player 1" 990 [mkCard ACE SPADES; mkCard JACK SPADES]
              10 false "BB" (-1) false 6 in
  let p1 := Player.mk "Player 2" 990 [mkCard KING SPADES; mkCard TEN SPADES]
              10 true "BTN" (-1) false 6 in
  let p2 := Player.mk "Player 3" 995 [mkCard QUEEN SPADES; mkCard NINE SPADES]
              5 false "SB" (-1) false 6 in
  let g := PokerGame.mk 3 1000 5 10 false Deck.new [p0; p1; p2] [] 25 10 1 in
  let g' := Game.credit 25 g 1 in
  [(1%nat, 25%Q)] <> []
  /\ (exists p p', PokerGame.players g !! 1%nat = Some p
        /\ PokerGame.players g' !! 1%nat = Some p'
        /\ Player.stack p' = fadd (Player.stack p) 25)
  /\ PokerGame.pot g' = 25%Q.
Proof.
  intros p0 p1 p2 g g'.
  destruct (payout_hands_over_the_pot g g' [(1%nat, 25%Q)] eq_refl)
    as (_ & _ & _ & Hpot & _ & _ & _ & Hpay).
  destruct Hpay as (Hne & _ & Hs & _); [simpl; lia|].
  split; [exact Hne|]. split; [|exact Hpot].
  apply (Hs 1%nat 25%Q). left.
Defined.






(** ** The board and the seat search *)

Lemma draw_many_length k : forall d,
  length (draw_many k d).1 = Nat.min k (length (Deck.cards d))
  /\ length (Deck.cards (draw_many k d).2) = (length (Deck.cards d) - k)%nat.
Proof.
  induction k as [|k IH]; intros d; cbn [draw_many].
  - cbn [fst snd length]. split; lia.
  - pose proof (draw_cards d) as Hd.
    destruct (Deck.draw d) as [[c|] d'].
    + destruct (IH d') as [H1 H2].
      destruct (draw_many k d') as [cs d'']. cbn [fst snd length] in *.
      rewrite Hd, length_app. cbn [length]. split; lia.
    + destruct Hd as [-> Hd]. cbn [fst snd]. rewrite Hd. cbn [length]. split; lia.
Qed.

(** [k] community cards dealt one after the other. *)
Lemma deal_community_iter k : forall g,
  Nat.iter k PokerGame.deal_community g
  = PokerGame.set_community_cards
      (PokerGame.community_cards g ++ (draw_many k (PokerGame.deck g)).1)
      (PokerGame.set_deck (draw_many k (PokerGame.deck g)).2 g).
Proof.
  induction k as [|k IH]; intros g.
  - simpl. rewrite app_nil_r. destruct g; reflexivity.
  - rewrite Nat.iter_succ_r, IH. unfold PokerGame.deal_community. simpl.
    pose proof (draw_cards (PokerGame.deck g)) as Hd.
    destruct (Deck.draw (PokerGame.deck g)) as [[c|] d']; simpl.
    + destruct (draw_many k d') as [cs d'']. simpl.
      rewrite <- app_assoc. reflexivity.
    + destruct Hd as [-> Hd]. simpl.
      assert (E : draw_many k (PokerGame.deck g) = ([], PokerGame.deck g)).
      { clear IH. induction k as [|k IHk]; simpl; [reflexivity|].
        unfold Deck.draw. rewrite Hd. reflexivity. }
      rewrite E. reflexivity.
Qed.

(** X23. The board.  The flop is three cards, or four on a table set up
    with [four_card_flop]; the turn and the river are one card each; all
    are the next cards of the deck, in the order in which they are drawn.
    With enough cards in the deck the board therefore grows by five cards
    in a hand, and by six with the four-card flop. *)
Theorem board_dealt_from_deck (g : PokerGame.t) :
  let n := if PokerGame.four_card_flop g then 4%nat else 3%nat in
  PokerGame.community_cards (PokerGame.deal_flop g)
  = PokerGame.community_cards g ++ (draw_many n (PokerGame.deck g)).1
  /\ PokerGame.deck (PokerGame.deal_flop g) = (draw_many n (PokerGame.deck g)).2
  /\ PokerGame.community_cards (PokerGame.deal_turn g)
     = PokerGame.community_cards g ++ (draw_many 1 (PokerGame.deck g)).1
  /\ PokerGame.deck (PokerGame.deal_turn g) = (draw_many 1 (PokerGame.deck g)).2
  /\ PokerGame.deal_river g = PokerGame.deal_turn g
  /\ ((n + 2 <= Deck.remaining (PokerGame.deck g))%nat ->
      length (PokerGame.community_cards
                (PokerGame.deal_river (PokerGame.deal_turn (PokerGame.deal_flop g))))
      = (length (PokerGame.community_cards g) + n + 2)%nat).
Proof.
  intros n.
  assert (Hflop : PokerGame.deal_flop g = Nat.iter n PokerGame.deal_community g).
  { unfold PokerGame.deal_flop, n. destruct (PokerGame.four_card_flop g); reflexivity. }
  assert (Hturn : forall x, PokerGame.deal_turn x = Nat.iter 1 PokerGame.deal_community x)
    by reflexivity.
  split; [rewrite Hflop, deal_community_iter; reflexivity|].
  split; [rewrite Hflop, deal_community_iter; reflexivity|].
  split; [rewrite Hturn, deal_community_iter; reflexivity|].
  split; [rewrite Hturn, deal_community_iter; reflexivity|].
  split; [reflexivity|].
  unfold Deck.remaining. intros Hlen.
  unfold PokerGame.deal_river, PokerGame.deal_turn.
  set (g1 := PokerGame.deal_flop g).
  set (g2 := PokerGame.deal_community g1).
  pose proof (deal_community_iter n g) as E1. rewrite <- Hflop in E1. fold g1 in E1.
  pose proof (deal_community_iter 1 g1) as E2.
  pose proof (deal_community_iter 1 g2) as E3.
  change (Nat.iter 1 PokerGame.deal_community g1) with g2 in E2.
  change (Nat.iter 1 PokerGame.deal_community g2)
    with (PokerGame.deal_community g2) in E3.
  destruct (draw_many_length n (PokerGame.deck g)) as [L1 L2].
  destruct (draw_many_length 1 (PokerGame.deck g1)) as [L3 L4].
  destruct (draw_many_length 1 (PokerGame.deck g2)) as [L5 _].
  assert (D1 : PokerGame.deck g1 = (draw_many n (PokerGame.deck g)).2)
    by (rewrite E1; reflexivity).
  assert (D2 : PokerGame.deck g2 = (draw_many 1 (PokerGame.deck g1)).2)
    by (rewrite E2; reflexivity).
  assert (C1 : length (PokerGame.community_cards g1)
               = (length (PokerGame.community_cards g)
                  + length (draw_many n (PokerGame.deck g)).1)%nat)
    by (rewrite E1; apply length_app).
  assert (C2 : length (PokerGame.community_cards g2)
               = (length (PokerGame.community_cards g1)
                  + length (draw_many 1 (PokerGame.deck g1)).1)%nat)
    by (rewrite E2; apply length_app).
  rewrite E3. cbn [PokerGame.community_cards PokerGame.set_community_cards].
  rewrite length_app, C2, C1, L5, L3, L1, D2, L4, D1, L2. lia.
Qed.

Lemma board_dealt_from_deck_witness :
  let g := PokerGame.new 3 1000 5 10 true in
  length (PokerGame.community_cards
            (PokerGame.deal_river (PokerGame.deal_turn (PokerGame.deal_flop g))))
  = (length (PokerGame.community_cards g) + 4 + 2)%nat.
Proof.
  intros g.
  refine (proj2 (proj2 (proj2 (proj2 (proj2 (board_dealt_from_deck g))))) _).
  vm_compute. lia.
Defined.

Lemma next_active_reaches g (d : nat) : forall fuel pos p,
  0 < PokerGame.num_players g ->
  Z.of_nat (length (PokerGame.players g)) = PokerGame.num_players g ->
  (d < fuel)%nat ->
  0 <= pos < PokerGame.num_players g ->
  PokerGame.players g
  !! Z.to_nat ((pos + Z.of_nat d) mod PokerGame.num_players g) = Some p ->
  Player.is_active p = true ->
  exists pos' p',
    Game.next_active fuel g pos = Some (Ok pos')
    /\ 0 <= pos' < PokerGame.num_players g
    /\ PokerGame.players g !! Z.to_nat pos' = Some p'
    /\ Player.is_active p' = true.
Proof.
  induction d as [|d IH]; intros fuel pos p Hn Hlen Hf Hpos Hp Ha;
    (destruct fuel as [|fuel]; [lia|]); cbn [Game.next_active].
  - rewrite Z.add_0_r, Z.mod_small in Hp by lia.
    destruct (py_index_lookup (PokerGame.players g) pos ltac:(lia)) as (q & Hq & ->).
    rewrite Hp in Hq. injection Hq as <-. simpl. rewrite Ha.
    exists pos, p. auto.
  - destruct (py_index_lookup (PokerGame.players g) pos ltac:(lia)) as (q & Hq & ->).
    simpl. destruct (Player.is_active q) eqn:Eq.
    + exists pos, q. auto.
    + rewrite (py_mod_pos _ _ Hn). simpl.
      apply (IH fuel _ p); try assumption; try lia.
      * apply Z.mod_pos_bound. lia.
      * rewrite Z.add_mod_idemp_l by lia.
        replace (pos + 1 + Z.of_nat d) with (pos + Z.of_nat (S d)) by lia.
        exact Hp.
Qed.

(** X24. The seat search of the betting round, [while not
    self.players[current_pos].is_active], ends whenever somebody is in the
    hand: from any seat of a full table it stops, within one lap, at a seat
    whose player is in the hand. *)
Theorem next_active_finds_a_seat (g : PokerGame.t) (pos : Z) :
  0 < PokerGame.num_players g ->
  Z.of_nat (length (PokerGame.players g)) = PokerGame.num_players g ->
  0 <= pos < PokerGame.num_players g ->
  (1 <= length (Game.active_players g))%nat ->
  exists pos' p',
    Game.next_active (length (PokerGame.players g) + 2) g pos = Some (Ok pos')
    /\ 0 <= pos' < PokerGame.num_players g
    /\ py_index (PokerGame.players g) pos' = Ok p'
    /\ Player.is_active p' = true.
Proof.
  intros Hn Hlen Hpos Ha.
  destruct (Game.active_players g) as [|[k p] rest] eqn:E; [simpl in Ha; lia|].
  assert (Hk : (k, p) ∈ Game.active_players g) by (rewrite E; left).
  apply active_players_valid in Hk as [Hk Hact].
  pose proof (lookup_lt_Some _ _ _ Hk) as Hlt.
  set (n := PokerGame.num_players g) in *.
  set (d := Z.to_nat ((Z.of_nat k - pos) mod n)).
  assert (Hd : 0 <= (Z.of_nat k - pos) mod n < n) by (apply Z.mod_pos_bound; lia).
  destruct (next_active_reaches g d (length (PokerGame.players g) + 2) pos p)
    as (pos' & p' & H1 & H2 & H3 & H4); try assumption.
  - unfold d. lia.
  - unfold d. rewrite Z2Nat.id by lia. fold n.
    rewrite Z.add_mod_idemp_r by lia.
    replace (pos + (Z.of_nat k - pos)) with (Z.of_nat k) by lia.
    rewrite Z.mod_small by lia. rewrite Nat2Z.id. exact Hk.
  - exists pos', p'. split; [exact H1|]. split; [exact H2|]. split; [|exact H4].
    destruct (py_index_lookup (PokerGame.players g) pos' ltac:(lia)) as (q & Hq & ->).
    rewrite H3 in Hq. injection Hq as <-. reflexivity.
Qed.

Lemma next_active_finds_a_seat_witness :
  let p0 := Player.mk "Player 1" 990 [] 10 false "BB" (-1) false 6 in
  let p1 := Player.mk "Player 2" 1000 [] 0 true "BTN" (-1) false 6 in
  let p2 := Player.mk "Player 3" 995 [] 5 false "SB" (-1) false 6 in
  let g := PokerGame.mk 3 1000 5 10 false Deck.new [p0; p1; p2] [] 15 10 1 in
  exists pos' p',
    Game.next_active (length (PokerGame.players g) + 2) g 2 = Some (Ok pos')
    /\ 0 <= pos' < PokerGame.num_players g
    /\ py_index (PokerGame.players g) pos' = Ok p'
    /\ Player.is_active p' = true.
Proof.
  intros p0 p1 p2 g. apply next_active_finds_a_seat.
  - reflexivity.
  - reflexivity.
  - simpl. lia.
  - vm_compute. lia.
Defined.
